(** * nitro: replay driver (cmd/replay/main.go) and sync monitor
      (arbnode/sync_monitor.go)

    A shallow embedding of the two Go files, with the behaviour of the
    packages they call (wavmio, arbstate, das/celestia/tree, go-ethereum)
    taken as parameters, followed by the properties of the embedding. *)

From Stdlib Require Import ZArith Lia Bool.
From Stdlib Require Strings.Byte.
From stdpp Require Import base option list strings gmap.

Local Open Scope Z_scope.

(** ** Go data: unsigned integers, slices, results *)

Module Go.

Abbreviation byte := Byte.byte.

(** [uint64] and [uint32] values are integers in range; every arithmetic
    result is reduced explicitly. *)
Definition wrap64 (z : Z) : Z := z mod 2 ^ 64.
Definition wrap32 (z : Z) : Z := z mod 2 ^ 32.

(** [len(s)], a non-negative [int]. *)
Definition len {A} (s : list A) : Z := Z.of_nat (length s).

(** The run-time panics of the language, and [panic(...)] calls. *)
Inductive panic :=
| DivideByZero
| IndexOutOfRange
| SliceBoundsOutOfRange
| NilDereference
| Explicit (msg : string).

(** What a call does: return a value, return a non-nil [error] of type
    [E], or panic. *)
Inductive outcome (E A : Type) :=
| Ret (a : A)
| Err (e : E)
| Panic (p : panic).
Arguments Ret {E A} a.
Arguments Err {E A} e.
Arguments Panic {E A} p.

Definition bind {E A B} (m : outcome E A) (k : A → outcome E B) : outcome E B :=
  match m with
  | Ret a => k a
  | Err e => Err e
  | Panic p => Panic p
  end.

(** [x / y] and [x % y] on unsigned operands panic when [y] is zero. *)
Definition udiv {E} (x y : Z) : outcome E Z :=
  if y =? 0 then Panic DivideByZero else Ret (x / y).
Definition umod {E} (x y : Z) : outcome E Z :=
  if y =? 0 then Panic DivideByZero else Ret (x mod y).

(** [s[lo:]]: the missing upper index is [len(s)], so the expression
    panics exactly when [lo > len(s)] (a negative [lo] cannot be
    written for an unsigned or constant index; it is treated as out of
    range). *)
Definition slice_from {E A} (s : list A) (lo : Z) : outcome E (list A) :=
  if (lo <? 0) || (len s <? lo) then Panic SliceBoundsOutOfRange
  else Ret (drop (Z.to_nat lo) s).

(** [s[:hi]] and [s[lo:hi]] where the code has already checked
    [lo <= hi <= len(s)]: within the length the capacity plays no role. *)
Definition slice_to {A} (s : list A) (hi : Z) : list A := take (Z.to_nat hi) s.
Definition slice {A} (s : list A) (lo hi : Z) : list A :=
  drop (Z.to_nat lo) (take (Z.to_nat hi) s).

Definition byte_val (b : byte) : Z := Z.of_N (Byte.to_N b).

(** Four bytes read as a big-endian [uint32]. *)
Definition be32 (b0 b1 b2 b3 : byte) : Z :=
  Z.lor (Z.lor (Z.lor (byte_val b3) (Z.shiftl (byte_val b2) 8))
               (Z.shiftl (byte_val b1) 16))
        (Z.shiftl (byte_val b0) 24).

(** [binary.BigEndian.Uint32(b)]: needs [b[3]]. *)
Definition BigEndian_Uint32 {E} (b : list byte) : outcome E Z :=
  match b with
  | b0 :: b1 :: b2 :: b3 :: _ => Ret (be32 b0 b1 b2 b3)
  | _ => Panic IndexOutOfRange
  end.

(** A slice value with its backing array: the elements are the first
    [slen] cells of [backing], the capacity is the length of [backing]. *)
Record bslice := {
  backing : list byte;
  slen : nat;
}.
Definition elems (s : bslice) : list byte := take (slen s) (backing s).
Definition cap (s : bslice) : Z := len (backing s).
Definition wf_bslice (s : bslice) : Prop := (slen s ≤ length (backing s))%nat.

(** [s[:hi]] on a slice value: the upper bound is the capacity. *)
Definition bslice_to {E} (s : bslice) (hi : Z) : outcome E (list byte) :=
  if (hi <? 0) || (cap s <? hi) then Panic SliceBoundsOutOfRange
  else Ret (take (Z.to_nat hi) (backing s)).

End Go.

Export Go.

(** [outcome E] is a monad; stdpp's [x ← m; k] sequences calls, stopping at
    the first error or panic. *)
#[global] Instance outcome_ret {E} : MRet (Go.outcome E) := fun A a => Go.Ret a.
#[global] Instance outcome_bind {E} : MBind (Go.outcome E) := fun A B k m => Go.bind m k.

(** [common.Hash], 32 bytes read as a number: the zero hash is 0. *)
Abbreviation Hash := Z (only parsing).
(** [[]byte] where only the elements matter. *)
Abbreviation bytes := (list Byte.byte) (only parsing).

(** ** cmd/replay/main.go *)

Module Replay.

(** arbutil preimage kinds used by the replay binary. *)
Inductive PreimageType :=
| Keccak256PreimageType
| Sha2_256PreimageType
| EthVersionedHashPreimageType.

(** The [error] values built in this file, one constructor per
    [fmt.Errorf] call with the values it formats, and the errors handed
    back unchanged from the packages called. *)
Inductive error :=
| External (msg : string)
| BlobLength (h : Hash) (got expected : Z)
| FirstRowStartIndex (startIndex odsSize : Z)
| SharesLengthZero
| FirstRowLarger (firstRowShares sharesLength : Z)
| PartialRowIndex (r : Z)
| EndRowOds (v : Z)
| ContentStartIndex (startIndex odsSize : Z)
| ContentEndIndex (endIndex odsSize : Z)
| RowTooShort (odsSize rowLen : Z)
| StartAfterEnd (startIndex endIndex : Z)
| SequenceLengthShare (shareLen : Z)
| SequenceLengthData (sequenceLength dataLen : Z).

Abbreviation res := (Go.outcome error).

(** celestia.BlobPointer *)
Record BlobPointer := {
  BlockHeight : Z;
  Start : Z;
  SharesLength : Z;
  TxCommitment : Hash;
  DataRoot : Hash;
}.

(** celestia.SquareData *)
Record SquareData := {
  RowRoots : list bytes;
  ColumnRoots : list bytes;
  Rows : list (list bytes);
  SquareSize : Z;
  StartRow : Z;
  EndRow : Z;
}.

(** The four indices [Read] derives from a pointer. *)
Record ShareRange := {
  startRow : Z;
  startIndex : Z;
  endRow : Z;
  endIndex : Z;
}.

Section PreimageCelestiaReader.

(** [wavmio.ResolveTypedPreimage], [tree.NamespaceSize],
    [tree.MerkleTreeContent] and [tree.NmtContent] are not part of the
    two files; they are taken as given. *)
Variable ResolveTypedPreimage : PreimageType → Hash → res bytes.
Variable NamespaceSize : Z.
Variable MerkleTreeContent : (Hash → res bytes) → Hash → res (list bytes).
Variable NmtContent : (Hash → res bytes) → bytes → res (list bytes).

(** main.go 174-236: [startRow], [startIndex], [endRow] and [endIndex]
    from the pointer and the square size. *)
Definition Read_range (squareSize odsSize : Z) (blobPointer : BlobPointer)
  : res ShareRange :=
  startRow ← udiv (Start blobPointer) squareSize;
  startIndex ← umod (Start blobPointer) squareSize;
  if odsSize <? startIndex then Err (FirstRowStartIndex startIndex odsSize) else
  let firtsRowShares := wrap64 (odsSize - startIndex) in
  if SharesLength blobPointer =? 0 then Err SharesLengthZero else
  '(endRow, endIndex) ←
    (if SharesLength blobPointer <=? firtsRowShares then
       Ret (startRow,
            wrap64 (wrap64 (Start blobPointer + SharesLength blobPointer) - 1))
     else
       if SharesLength blobPointer <? firtsRowShares
       then Err (FirstRowLarger firtsRowShares (SharesLength blobPointer))
       else
         let remainingShares := wrap64 (SharesLength blobPointer - firtsRowShares) in
         rowsNeeded ← udiv remainingShares odsSize;
         rem ← umod remainingShares odsSize;
         let endRow :=
           wrap64 (wrap64 (startRow + rowsNeeded) + (if 0 <? rem then 1 else 0)) in
         slm ← umod (SharesLength blobPointer) squareSize;
         let partialRow := 0 <? slm in
         if partialRow then
           if rem <? 1 then Err (PartialRowIndex rem)
           else Ret (endRow, wrap64 (wrap64 (endRow * odsSize) + wrap64 (rem - 1)))
         else
           if wrap64 (endRow * odsSize) <? 1 then Err (EndRowOds (wrap64 (endRow * odsSize)))
           else Ret (endRow, wrap64 (wrap64 (endRow * odsSize) - 1)));
  endIndex ← umod endIndex squareSize;
  if odsSize <? startIndex then Err (ContentStartIndex startIndex odsSize) else
  if odsSize <? wrap64 (endIndex + 1) then Err (ContentEndIndex endIndex odsSize) else
  Ret {| startRow := startRow; startIndex := startIndex;
         endRow := endRow; endIndex := endIndex |}.

(** main.go 238-265: the loop [for i := startRow; i <= endRow; i++].
    [roots] is [rowRoots[i:]]: its head is [rowRoots[i]], and when it
    is empty the index expression is out of range. The upper bounds
    [odsSize] and [endIndex+1] of the slice expressions are within the
    length of the row by the checks made before them. *)
Fixpoint Read_rows (odsSize : Z) (r : ShareRange)
    (roots : list bytes) (i : Z) (rows : list (list bytes)) (shares : list bytes)
  : res (list (list bytes) * list bytes) :=
  if endRow r <? i then Ret (rows, shares) else
  match roots with
  | [] => Panic IndexOutOfRange
  | root :: roots' =>
      row ← NmtContent (ResolveTypedPreimage Sha2_256PreimageType) root;
      let rows := rows ++ [row] in
      if len row <? odsSize then Err (RowTooShort odsSize (len row)) else
      let odsRow := slice_to row odsSize in
      if startRow r =? endRow r then
        if wrap64 (endIndex r + 1) <? startIndex r
        then Err (StartAfterEnd (startIndex r) (endIndex r))
        else Ret (rows, shares ++ slice odsRow (startIndex r) (wrap64 (endIndex r + 1)))
      else if i =? startRow r then
        tl ← slice_from odsRow (startIndex r);
        Read_rows odsSize r roots' (wrap64 (i + 1)) rows (shares ++ tl)
      else if i =? endRow r then
        Read_rows odsSize r roots' (wrap64 (i + 1)) rows
                  (shares ++ slice_to odsRow (wrap64 (endIndex r + 1)))
      else
        Read_rows odsSize r roots' (wrap64 (i + 1)) rows (shares ++ odsRow)
  end.

(** main.go 272-280: [for i, share := range shares]. *)
Fixpoint Read_strip (shares : list bytes) (i : Z) (data : bytes) : res bytes :=
  match shares with
  | [] => Ret data
  | share :: rest =>
      share ← slice_from share 29;
      if i =? 0 then
        tl ← slice_from share (NamespaceSize + 5);
        Read_strip rest (i + 1) (data ++ tl)
      else
        tl ← slice_from share (NamespaceSize + 1);
        Read_strip rest (i + 1) (data ++ tl)
  end.

(** main.go 267-284: from the selected shares to the blob. *)
Definition Read_deframe (shares : list bytes) : res bytes :=
  match shares with
  | [] => Panic IndexOutOfRange
  | share0 :: _ =>
      if (len share0 <? NamespaceSize * 2 + 1) || (len share0 <? NamespaceSize * 2 + 5)
      then Err (SequenceLengthShare (len share0))
      else
        sequenceLength ←
          BigEndian_Uint32 (slice share0 (NamespaceSize * 2 + 1) (NamespaceSize * 2 + 5));
        data ← Read_strip shares 0 [];
        if wrap32 (len data) <? sequenceLength
        then Err (SequenceLengthData sequenceLength (len data))
        else Ret (slice_to data sequenceLength)
  end.

(** main.go 156-294: [PreimageCelestiaReader.Read]. *)
Definition Read (blobPointer : BlobPointer) : res (bytes * SquareData) :=
  let oracle := ResolveTypedPreimage Sha2_256PreimageType in
  leaves ← MerkleTreeContent oracle (DataRoot blobPointer);
  let squareSize := len leaves / 2 in
  let rowRoots := slice_to leaves squareSize in
  let odsSize := squareSize / 2 in
  r ← Read_range squareSize odsSize blobPointer;
  '(rows, shares) ←
    Read_rows odsSize r (drop (Z.to_nat (startRow r)) rowRoots) (startRow r) [] [];
  data ← Read_deframe shares;
  Ret (data,
       {| RowRoots := rowRoots;
          ColumnRoots := drop (Z.to_nat squareSize) leaves;
          Rows := rows;
          SquareSize := squareSize;
          StartRow := startRow r;
          EndRow := endRow r |}).

End PreimageCelestiaReader.

(** *** BlobPreimageReader *)

(** [len(blob)] for [kzg4844.Blob], an array type [[131072]byte]. *)
Definition BlobLen : Z := 131072.

(** [var blob kzg4844.Blob]: the zero array. *)
Definition zero_blob : bytes := replicate (Z.to_nat BlobLen) Byte.x00.

(** [copy(dst, src)] on the array behind [dst]: the first
    [min(len(dst), len(src))] cells are overwritten. *)
Definition copy (dst src : bytes) : bytes :=
  let n := Nat.min (length dst) (length src) in
  take n src ++ drop n dst.

Section BlobPreimageReader.

Variable ResolveTypedPreimage : PreimageType → Hash → res bytes.

(** main.go 134-145: the loop over [versionedHashes], [blobs] being the
    slice built so far. *)
Fixpoint GetBlobs_loop (versionedHashes : list Hash) (blobs : list bytes)
  : res (list bytes) :=
  match versionedHashes with
  | [] => Ret blobs
  | h :: rest =>
      let blob := zero_blob in
      preimage ← ResolveTypedPreimage EthVersionedHashPreimageType h;
      if negb (len preimage =? BlobLen)
      then Err (BlobLength h (len preimage) BlobLen)
      else
        let blob := copy blob preimage in
        GetBlobs_loop rest (blobs ++ [blob])
  end.

(** main.go 128-147: [BlobPreimageReader.GetBlobs] ([ctx] and
    [batchBlockHash] are not used by the body). *)
Definition GetBlobs (batchBlockHash : Hash) (versionedHashes : list Hash)
  : res (list bytes) :=
  GetBlobs_loop versionedHashes [].

End BlobPreimageReader.

(** *** The tape and the calls made on it *)

(** Modelled from the spec: arbstate.KeysetValidationMode, declared
    outside the source files; main.go names [KeysetPanicIfInvalid] and
    [KeysetDontValidate], the specification lists a third mode. *)
Inductive KeysetValidationMode :=
| KeysetPanicIfInvalid
| KeysetAssumeValid
| KeysetDontValidate.

(** The three readers of this file, wrapped by [arbstate.NewDAProviderDAS],
    [NewDAProviderCelestia] and [NewDAProviderBlobReader]. *)
Inductive DataAvailabilityProvider :=
| DAProviderDAS
| DAProviderCelestia
| DAProviderBlobReader.

(** What [arbstate.NewInboxMultiplexer] is given. *)
Record InboxMultiplexer := {
  delayedMessagesRead : Z;
  daProviders : list DataAvailabilityProvider;
  keysetValidationMode : KeysetValidationMode;
}.

(** The cursor of the inbox backend. *)
Record Cursor := {
  inboxPosition : Z;
  positionWithinMessage : Z;
}.

(** The calls main.go makes on wavmio and arbstate, in the order it makes
    them. What the packages it calls do on the oracle in turn (the state
    database reads its nodes through [PreimageDb], the multiplexer reads
    the inbox) is not part of it: these are the functions of [Host], and
    a pop is one event. *)
Inductive event :=
| EvStubInit
| EvGetLastBlockHash
| EvResolveTypedPreimage (ty : PreimageType) (hash : Hash)
| EvGetInboxPosition
| EvReadInboxMessage (pos : Z)
| EvAdvanceInboxMessage
| EvGetPositionWithinMessage (pos : Z)
| EvSetPositionWithinMessage (pos : Z)
| EvNewDAProvider (p : DataAvailabilityProvider)
| EvNewInboxMultiplexer (m : InboxMultiplexer)
| EvPop
| EvSetLastBlockHash (h : Hash)
| EvSetSendRoot (h : Hash)
| EvStubFinal.

(** Modelled from the spec: the state behind package wavmio, which is not
    among the source files: the cursor, the committed last block hash and
    the send root (section 4.1), with the calls made so far. *)
Record World := {
  cursor : Cursor;
  lastBlockHash : Hash;
  sendRoot : Hash;
  trace : list event;
}.

(** A computation on the tape: an outcome and the tape it leaves. *)
Definition M (A : Type) : Type := World → res A * World.

#[global] Instance M_ret : MRet M := fun A a w => (Ret a, w).
#[global] Instance M_bind : MBind M := fun A B k m w =>
  match m w with
  | (Ret a, w') => k a w'
  | (Err e, w') => (Err e, w')
  | (Panic p, w') => (Panic p, w')
  end.

Definition record (e : event) (w : World) : World :=
  {| cursor := cursor w; lastBlockHash := lastBlockHash w;
     sendRoot := sendRoot w; trace := trace w ++ [e] |}.

Definition emit (e : event) : M unit := fun w => (Ret (), record e w).

Definition lift {A} (r : res A) : M A := fun w => (r, w).

(** [panic(...)] with a message. *)
Definition panic_with {A} (msg : string) : M A := fun w => (Panic (Explicit msg), w).

(** [x, err := f(); if err != nil { panic(...) }]; for [panic(err)] the
    message names the call that failed. *)
Definition must {A} (msg : string) (m : M A) : M A := fun w =>
  match m w with
  | (Ret a, w') => (Ret a, w')
  | (Err _, w') => (Panic (Explicit msg), w')
  | (Panic p, w') => (Panic p, w')
  end.

(** Modelled from the spec: the wavmio primitives of section 4.1, which
    are not among the source files. *)
Definition wavmio_GetLastBlockHash : M Hash := fun w =>
  (Ret (lastBlockHash w), record EvGetLastBlockHash w).
Definition wavmio_GetInboxPosition : M Z := fun w =>
  (Ret (inboxPosition (cursor w)), record EvGetInboxPosition w).
Definition wavmio_GetPositionWithinMessage : M Z := fun w =>
  (Ret (positionWithinMessage (cursor w)),
   record (EvGetPositionWithinMessage (positionWithinMessage (cursor w))) w).
Definition wavmio_SetPositionWithinMessage (pos : Z) : M unit := fun w =>
  (Ret (),
   {| cursor := {| inboxPosition := inboxPosition (cursor w);
                   positionWithinMessage := pos |};
      lastBlockHash := lastBlockHash w; sendRoot := sendRoot w;
      trace := trace w ++ [EvSetPositionWithinMessage pos] |}).
Definition wavmio_AdvanceInboxMessage : M unit := fun w =>
  (Ret (),
   {| cursor := {| inboxPosition := wrap64 (inboxPosition (cursor w) + 1);
                   positionWithinMessage := positionWithinMessage (cursor w) |};
      lastBlockHash := lastBlockHash w; sendRoot := sendRoot w;
      trace := trace w ++ [EvAdvanceInboxMessage] |}).
Definition wavmio_SetLastBlockHash (h : Hash) : M unit := fun w =>
  (Ret (),
   {| cursor := cursor w; lastBlockHash := h; sendRoot := sendRoot w;
      trace := trace w ++ [EvSetLastBlockHash h] |}).
Definition wavmio_SetSendRoot (h : Hash) : M unit := fun w =>
  (Ret (),
   {| cursor := cursor w; lastBlockHash := lastBlockHash w; sendRoot := h;
      trace := trace w ++ [EvSetSendRoot h] |}).
Definition wavmio_StubFinal : M unit := emit EvStubFinal.

(** [wavmio.StubInit], outside the source files: the tape is the one the
    backend holds once it is set up; the call is recorded. *)
Definition wavmio_StubInit : M unit := emit EvStubInit.

(** *** Data of go-ethereum and arbos used by [main] *)

(** types.HeaderInfo: the two fields [main] reads. *)
Record HeaderInfo := {
  SendRoot : Hash;
  ArbOSFormatVersion : Z;
}.

(** params.ArbitrumChainParams: the fields [main] reads. *)
Record params_ArbitrumChainParams := {
  DataAvailabilityCommittee : bool;
  CelestiaDA : bool;
  GenesisBlockNum : Z;
}.

(** [params.ArbitrumChainParams{}] *)
Definition zero_ArbitrumChainParams : params_ArbitrumChainParams :=
  {| DataAvailabilityCommittee := false; CelestiaDA := false; GenesisBlockNum := 0 |}.

(** params.ChainConfig *)
Record params_ChainConfig := {
  ChainID : Z;
  ArbitrumChainParams : params_ArbitrumChainParams;
}.

(** arbostypes.ParsedInitMessage; [ChainConfig] may be nil. *)
Record ParsedInitMessage := {
  ChainId : Z;
  ChainConfig : option params_ChainConfig;
}.

(** arbostypes.MessageWithMetadata *)
Record MessageWithMetadata (L1IncomingMessage : Type) := {
  Message : L1IncomingMessage;
  DelayedMessagesRead : Z;
}.
Arguments Message {L1IncomingMessage} m.
Arguments DelayedMessagesRead {L1IncomingMessage} m.

(** Everything [main] calls outside this file: the oracle contents and
    the functions of go-ethereum, arbos, arbosState, arbstate and
    chaininfo. State databases are passed explicitly. *)
Record Host := {
  Header : Type;
  Block : Type;
  StateDB : Type;
  ArbosState : Type;
  L1IncomingMessage : Type;
  Header_Root : Header → Hash;
  Header_Nonce : Header → Z;
  Block_Hash : Block → Hash;
  Block_Header : Block → Header;
  DeserializeHeaderExtraInformation : Header → HeaderInfo;
  ResolvePreimage : PreimageType → Hash → res bytes;
  ReadInboxMessage : Z → bslice;
  rlp_DecodeBytes : bytes → res Header;
  NewDeterministic : Hash → res StateDB;
  OpenSystemArbosState : StateDB → res ArbosState;
  ArbosState_ChainId : ArbosState → res Z;
  ArbosState_GenesisBlockNum : ArbosState → res Z;
  ArbosState_ChainConfig : ArbosState → res bytes;
  json_Unmarshal : bytes → res params_ChainConfig;
  GetChainConfig : Z → Z → res params_ChainConfig;
  ParseInitMessage : L1IncomingMessage → res ParsedInitMessage;
  InitializeArbosState :
    StateDB → params_ChainConfig → ParsedInitMessage → res StateDB;
  IntermediateRoot : StateDB → Hash;
  MakeGenesisBlock : Hash → Z → Z → Hash → params_ChainConfig → Block;
  ProduceBlock :
    L1IncomingMessage → Z → option Header → StateDB → params_ChainConfig → res Block;
  Pop : InboxMultiplexer → Cursor →
        res (MessageWithMetadata L1IncomingMessage) * Cursor;
}.

Section Driver.

Variable H : Host.

(** [wavmio.ResolveTypedPreimage]: a read of the oracle, recorded. *)
Definition wavmio_ResolveTypedPreimage (ty : PreimageType) (hash : Hash) : M bytes :=
  fun w => (ResolvePreimage H ty hash, record (EvResolveTypedPreimage ty hash) w).

(** main.go 40-51 *)
Definition getBlockHeaderByHash (hash : Hash) : M (Header H) :=
  enc ← must "Error resolving preimage"
           (wavmio_ResolveTypedPreimage Keccak256PreimageType hash);
  must "Error parsing resolved block header" (lift (rlp_DecodeBytes H enc)).

(** main.go 69-75: [WavmInbox.PeekSequencerInbox]. The arguments of
    [log.Info], among them [res[:8]], are evaluated before the call. *)
Definition PeekSequencerInbox : M (bslice * Hash) :=
  pos ← wavmio_GetInboxPosition;
  _ ← emit (EvReadInboxMessage pos);
  let res := ReadInboxMessage H pos in
  _ ← lift (bslice_to res 8);
  mret (res, 0).

(** main.go 77-81: [WavmInbox.GetSequencerInboxPosition]. *)
Definition GetSequencerInboxPosition : M Z :=
  pos ← wavmio_GetInboxPosition;
  mret pos.

(** main.go 83-86: [WavmInbox.AdvanceSequencerInbox]. *)
Definition AdvanceSequencerInbox : M unit :=
  wavmio_AdvanceInboxMessage.

(** main.go 88-92: [WavmInbox.GetPositionWithinMessage]. *)
Definition GetPositionWithinMessage : M Z :=
  pos ← wavmio_GetPositionWithinMessage;
  mret pos.

(** main.go 94-97: [WavmInbox.SetPositionWithinMessage]. *)
Definition SetPositionWithinMessage (pos : Z) : M unit :=
  wavmio_SetPositionWithinMessage pos.

(** [arbstate.NewDAProviderDAS] and its two siblings. *)
Definition NewDAProvider (p : DataAvailabilityProvider) : M DataAvailabilityProvider :=
  _ ← emit (EvNewDAProvider p);
  mret p.

(** [arbstate.NewInboxMultiplexer] *)
Definition NewInboxMultiplexer (delayed : Z)
    (providers : list DataAvailabilityProvider) (mode : KeysetValidationMode)
  : M InboxMultiplexer :=
  let m := {| delayedMessagesRead := delayed; daProviders := providers;
              keysetValidationMode := mode |} in
  _ ← emit (EvNewInboxMultiplexer m);
  mret m.

(** [inboxMultiplexer.Pop(ctx)]: the multiplexer works on the cursor. *)
Definition InboxMultiplexer_Pop (m : InboxMultiplexer)
  : M (MessageWithMetadata (L1IncomingMessage H)) := fun w =>
  let '(r, c) := Pop H m (cursor w) in
  (r, {| cursor := c; lastBlockHash := lastBlockHash w; sendRoot := sendRoot w;
         trace := trace w ++ [EvPop] |}).

(** main.go 345-384: the closure [readMessage]; [lastBlockHeader] is
    the variable it captures. *)
Definition readMessage (lastBlockHeader : option (Header H))
    (arbChainParams : params_ArbitrumChainParams)
  : M (MessageWithMetadata (L1IncomingMessage H)) :=
  let delayedMessagesRead :=
    match lastBlockHeader with
    | Some h => Header_Nonce H h
    | None => 0
    end in
  if DataAvailabilityCommittee arbChainParams && CelestiaDA arbChainParams
  then panic_with "Error Multiple DA providers enabled" else
  let dasReader :=
    if DataAvailabilityCommittee arbChainParams then Some DAProviderDAS else None in
  let celestiaReader :=
    if CelestiaDA arbChainParams then Some DAProviderCelestia else None in
  pos ← GetPositionWithinMessage;
  let keysetValidationMode :=
    if 0 <? pos then KeysetDontValidate else KeysetPanicIfInvalid in
  let daProviders : list DataAvailabilityProvider := [] in
  daProviders ←
    match dasReader with
    | Some r => p ← NewDAProvider r; mret (daProviders ++ [p])
    | None => mret daProviders
    end;
  daProviders ←
    match celestiaReader with
    | Some r => p ← NewDAProvider r; mret (daProviders ++ [p])
    | None => mret daProviders
    end;
  p ← NewDAProvider DAProviderBlobReader;
  let daProviders := daProviders ++ [p] in
  inboxMultiplexer ←
    NewInboxMultiplexer delayedMessagesRead daProviders keysetValidationMode;
  must "Error reading from inbox multiplexer" (InboxMultiplexer_Pop inboxMultiplexer).

(** main.go 318-467: from the start to the new block. The set-up between
    [wavmio.StubInit] and the read of the last block hash (the hooked
    geth, logging, the ECDSA cache, the database handles) reads and writes
    nothing of the tape. *)
Definition main_produce : M (Block H) :=
  _ ← wavmio_StubInit;
  lastBlockHash ← wavmio_GetLastBlockHash;
  lastBlockHeader ←
    (if lastBlockHash =? 0 then mret None
     else h ← getBlockHeaderByHash lastBlockHash; mret (Some h));
  let lastBlockStateRoot :=
    match lastBlockHeader with
    | Some h => Header_Root H h
    | None => 0
    end in
  statedb ← must "Error opening state db" (lift (NewDeterministic H lastBlockStateRoot));
  if negb (lastBlockStateRoot =? 0) then
    initialArbosState ←
      must "Error opening initial ArbOS state" (lift (OpenSystemArbosState H statedb));
    chainId ←
      must "Error getting chain ID from initial ArbOS state"
           (lift (ArbosState_ChainId H initialArbosState));
    genesisBlockNum ←
      must "Error getting genesis block number from initial ArbOS state"
           (lift (ArbosState_GenesisBlockNum H initialArbosState));
    chainConfigJson ←
      must "Error getting chain config from initial ArbOS state"
           (lift (ArbosState_ChainConfig H initialArbosState));
    chainConfig ←
      (if 0 <? len chainConfigJson then
         chainConfig ← must "Error parsing chain config"
                            (lift (json_Unmarshal H chainConfigJson));
         if negb (ChainID chainConfig =? chainId)
         then panic_with "Error: chain id mismatch"
         else if negb (GenesisBlockNum (ArbitrumChainParams chainConfig) =? genesisBlockNum)
         then panic_with "Error: genesis block number mismatch"
         else mret chainConfig
       else must "GetChainConfig" (lift (GetChainConfig H chainId genesisBlockNum)));
    message ← readMessage lastBlockHeader (ArbitrumChainParams chainConfig);
    must "ProduceBlock"
         (lift (ProduceBlock H (Message message) (DelayedMessagesRead message)
                             lastBlockHeader statedb chainConfig))
  else
    message ← readMessage lastBlockHeader zero_ArbitrumChainParams;
    initMessage ← must "ParseInitMessage" (lift (ParseInitMessage H (Message message)));
    chainConfig ←
      match ChainConfig initMessage with
      | Some c => mret c
      | None => must "GetChainConfig" (lift (GetChainConfig H (ChainId initMessage) 0))
      end;
    statedb ←
      must "Error initializing ArbOS"
           (lift (InitializeArbosState H statedb chainConfig initMessage));
    mret (MakeGenesisBlock H 0 0 0 (IntermediateRoot H statedb) chainConfig).

(** main.go 469-480: check the produced header and write the result. *)
Definition main_finish (newBlock : Block H) : M unit :=
  let newBlockHash := Block_Hash H newBlock in
  let extraInfo := DeserializeHeaderExtraInformation H (Block_Header H newBlock) in
  if ArbOSFormatVersion extraInfo =? 0
  then panic_with "Error deserializing header extra info" else
  _ ← wavmio_SetLastBlockHash newBlockHash;
  _ ← wavmio_SetSendRoot (SendRoot extraInfo);
  wavmio_StubFinal.

(** main.go 317-481 *)
Definition main : M unit :=
  newBlock ← main_produce;
  main_finish newBlock.

End Driver.

End Replay.

(** ** arbnode/sync_monitor.go *)

Module SyncMonitor.

(** Errors are carried by their message, as [err.Error()] reads them. *)
Abbreviation returns := (Go.outcome string).

Record SyncMonitorConfig := {
  BlockBuildLag : Z;
  BlockBuildSequencerInboxLag : Z;
  CoordinatorMsgLag : Z;
  SafeBlockWaitForBlockValidator : bool;
  FinalizedBlockWaitForBlockValidator : bool;
}.

Definition DefaultSyncMonitorConfig : SyncMonitorConfig :=
  {| BlockBuildLag := 20;
     BlockBuildSequencerInboxLag := 0;
     CoordinatorMsgLag := 15;
     SafeBlockWaitForBlockValidator := false;
     FinalizedBlockWaitForBlockValidator := false |}.

(** The collaborators of the monitor are declared outside the source
    files; each is given by what its methods answer when the monitor
    calls them. *)
Record BatchMetadata := {
  MessageCount : Z;
}.

Record L1Header := {
  Number : Z;
  HeaderHash : Hash;
}.

Record L1Reader := {
  LastHeaderWithError : option L1Header * option string;
}.

Record InboxReader := {
  GetLastSeenBatchCount : Z;
  GetLastReadBlockAndBatchCount : Z * Z;
  Tracker_GetBatchMetadata : Z → returns BatchMetadata;
  l1Reader : option L1Reader;
  GetSafeMsgCount : returns Z;
  GetFinalizedMsgCount : returns Z;
}.

Record BlockValidator := {
  GetValidated : Z;
}.

Record TransactionStreamer := {
  broadcasterQueuedMessagesPos : Z;
  GetMessageCount : returns Z;
  validator : option BlockValidator;
}.

Record SeqCoordinator := {
  GetRemoteMsgCount : returns Z;
}.

Record FullExecutionClient := {
  HeadMessageNumber : returns Z;
  MessageIndexToBlockNumber : Z → Z;
}.

(** Pointers and interfaces are [option]s: [None] is nil. *)
Record SyncMonitor := {
  config : option SyncMonitorConfig;
  inboxReader : option InboxReader;
  txStreamer : option TransactionStreamer;
  coordinator : option SeqCoordinator;
  exec : option FullExecutionClient;
  initialized : bool;
}.

(** Following a pointer, or calling a method through an interface. *)
Definition deref {A} (p : option A) : returns A :=
  match p with
  | Some a => Ret a
  | None => Panic NilDereference
  end.

(** sync_monitor.go 22-26 *)
Definition NewSyncMonitor (config : option SyncMonitorConfig) : SyncMonitor :=
  {| config := config; inboxReader := None; txStreamer := None;
     coordinator := None; exec := None; initialized := false |}.

(** sync_monitor.go 52-58 *)
Definition Initialize (s : SyncMonitor) (inboxReader : option InboxReader)
    (txStreamer : option TransactionStreamer) (coordinator : option SeqCoordinator)
    (exec : option FullExecutionClient) : SyncMonitor :=
  {| config := config s; inboxReader := inboxReader; txStreamer := txStreamer;
     coordinator := coordinator; exec := exec; initialized := true |}.

(** The values stored in a [map[string]interface{}]. *)
Inductive value :=
| VString (s : string)
| VUint64 (n : Z)
| VMessageIndex (n : Z)
| VBigInt (n : Z)
| VHash (h : Hash)
| VError (msg : string).

(** sync_monitor.go 76-86 *)
Definition progress_built (exec : FullExecutionClient)
    (syncing : bool) (res : gmap string value) : returns (bool * gmap string value * Z) :=
  match HeadMessageNumber exec with
  | Err err =>
      let res := <["builtMessageCountError" := VString err]> res in
      Ret (true, res, 0)
  | Ret builtMessageCount =>
      let blockNum := MessageIndexToBlockNumber exec builtMessageCount in
      let res := <["blockNum" := VUint64 blockNum]> res in
      let builtMessageCount := wrap64 (builtMessageCount + 1) in
      let res := <["messageOfLastBlock" := VMessageIndex builtMessageCount]> res in
      Ret (syncing, res, builtMessageCount)
  | Panic p => Panic p
  end.

(** sync_monitor.go 88-97. After an error [msgCount] is only read at
    line 141, to set a flag that the error has already set: it is taken
    to be the zero value. *)
Definition progress_msgCount (s : SyncMonitor) (txStreamer : TransactionStreamer)
    (builtMessageCount : Z) (syncing : bool) (res : gmap string value)
  : returns (bool * gmap string value * Z) :=
  match GetMessageCount txStreamer with
  | Err err =>
      let res := <["msgCountError" := VString err]> res in
      Ret (true, res, 0)
  | Ret msgCount =>
      let res := <["msgCount" := VMessageIndex msgCount]> res in
      config ← deref (config s);
      let syncing :=
        if wrap64 (builtMessageCount + BlockBuildLag config) <? msgCount
        then true else syncing in
      Ret (syncing, res, msgCount)
  | Panic p => Panic p
  end.

(** sync_monitor.go 99-132 *)
Definition progress_inbox (s : SyncMonitor) (builtMessageCount : Z)
    (syncing : bool) (res : gmap string value) : returns (bool * gmap string value) :=
  match inboxReader s with
  | None => Ret (syncing, res)
  | Some inboxReader =>
      let batchSeen := GetLastSeenBatchCount inboxReader in
      let batchProcessed := snd (GetLastReadBlockAndBatchCount inboxReader) in
      let syncing :=
        if (batchSeen =? 0) || (batchProcessed <? batchSeen) then true else syncing in
      let res := <["batchSeen" := VUint64 batchSeen]> res in
      let res := <["batchProcessed" := VUint64 batchProcessed]> res in
      '(syncing, res) ←
        match Tracker_GetBatchMetadata inboxReader (wrap64 (batchProcessed - 1)) with
        | Err err =>
            Ret (true, <["batchMetadataError" := VString err]> res)
        | Ret processedMetadata =>
            let res :=
              <["messageOfProcessedBatch" :=
                  VMessageIndex (MessageCount processedMetadata)]> res in
            config ← deref (config s);
            let syncing :=
              if wrap64 (builtMessageCount + BlockBuildSequencerInboxLag config)
                 <? MessageCount processedMetadata
              then true else syncing in
            Ret (syncing, res)
        | Panic p => Panic p
        end;
      match l1Reader inboxReader with
      | None => Ret (syncing, res)
      | Some l1reader =>
          let '(header, err) := LastHeaderWithError l1reader in
          let res :=
            match err with
            | Some err => <["lastL1HeaderErr" := VError err]> res
            | None => res
            end in
          let res :=
            match header with
            | Some header =>
                <["lastl1BlockHash" := VHash (HeaderHash header)]>
                  (<["lastL1BlockNum" := VBigInt (Number header)]> res)
            | None => res
            end in
          Ret (syncing, res)
      end
  end.

(** sync_monitor.go 134-145 *)
Definition progress_coordinator (s : SyncMonitor) (msgCount : Z)
    (syncing : bool) (res : gmap string value) : returns (bool * gmap string value) :=
  match coordinator s with
  | None => Ret (syncing, res)
  | Some coordinator =>
      match GetRemoteMsgCount coordinator with
      | Err err =>
          Ret (true, <["coordinatorMsgCountError" := VString err]> res)
      | Ret coordinatorMessageCount =>
          let res :=
            <["coordinatorMessageCount" := VMessageIndex coordinatorMessageCount]> res in
          config ← deref (config s);
          let syncing :=
            if wrap64 (msgCount + CoordinatorMsgLag config) <? coordinatorMessageCount
            then true else syncing in
          Ret (syncing, res)
      | Panic p => Panic p
      end
  end.

(** sync_monitor.go 60-152 *)
Definition SyncProgressMap (s : SyncMonitor) : returns (gmap string value) :=
  let syncing := false in
  let res : gmap string value := ∅ in
  if negb (initialized s) then
    Ret (<["err" := VString "uninitialized"]> res)
  else
    txStreamer ← deref (txStreamer s);
    let broadcasterQueuedMessagesPos := broadcasterQueuedMessagesPos txStreamer in
    let syncing :=
      if negb (broadcasterQueuedMessagesPos =? 0) then true else syncing in
    let res :=
      <["broadcasterQueuedMessagesPos" := VUint64 broadcasterQueuedMessagesPos]> res in
    exec ← deref (exec s);
    '(syncing, res, builtMessageCount) ← progress_built exec syncing res;
    '(syncing, res, msgCount) ← progress_msgCount s txStreamer builtMessageCount syncing res;
    '(syncing, res) ← progress_inbox s builtMessageCount syncing res;
    '(syncing, res) ← progress_coordinator s msgCount syncing res;
    if negb syncing then Ret ∅ else Ret res.

(** sync_monitor.go 176-181 *)
Definition getLatestValidatedCount (s : SyncMonitor) : returns Z :=
  txStreamer ← deref (txStreamer s);
  match validator txStreamer with
  | None => Err "validator not set up"
  | Some validator => Ret (GetValidated validator)
  end.

(** sync_monitor.go 154-174 *)
Definition SafeBlockNumber (s : SyncMonitor) : returns Z :=
  match inboxReader s with
  | None => Err "not set up for safeblock"
  | Some inboxReader =>
      if negb (initialized s) then Err "not set up for safeblock" else
      msg ← GetSafeMsgCount inboxReader;
      config ← deref (config s);
      msg ←
        (if SafeBlockWaitForBlockValidator config then
           latestValidatedCount ← getLatestValidatedCount s;
           Ret (if latestValidatedCount <? msg then latestValidatedCount else msg)
         else Ret msg);
      exec ← deref (exec s);
      let block := MessageIndexToBlockNumber exec (wrap64 (msg - 1)) in
      Ret block
  end.

(** sync_monitor.go 183-203 *)
Definition FinalizedBlockNumber (s : SyncMonitor) : returns Z :=
  match inboxReader s with
  | None => Err "not set up for safeblock"
  | Some inboxReader =>
      if negb (initialized s) then Err "not set up for safeblock" else
      msg ← GetFinalizedMsgCount inboxReader;
      config ← deref (config s);
      msg ←
        (if FinalizedBlockWaitForBlockValidator config then
           latestValidatedCount ← getLatestValidatedCount s;
           Ret (if latestValidatedCount <? msg then latestValidatedCount else msg)
         else Ret msg);
      exec ← deref (exec s);
      let block := MessageIndexToBlockNumber exec (wrap64 (msg - 1)) in
      Ret block
  end.

(** sync_monitor.go 205-207 *)
Definition Synced (s : SyncMonitor) : returns bool :=
  m ← SyncProgressMap s;
  Ret (bool_decide (size m = 0%nat)).

End SyncMonitor.

(** ** cmd/replay/main.go: the chain context *)

Module ChainContext.
Import Replay.

Section WavmChainContext.

Variable H : Host.

(** [header.Number], a [*big.Int], as the integer it holds. *)
Variable Header_Number : Header H → Z.

(** [Number.IsUint64()] *)
Definition IsUint64 (n : Z) : bool := (0 <=? n) && (n <? 2 ^ 64).

(** main.go 59-65: [WavmChainContext.GetHeader]. [Number.Uint64()] is only
    evaluated when [IsUint64()] holds, where it is the number itself. *)
Definition GetHeader (hash : Hash) (num : Z) : M (Header H) :=
  header ← getBlockHeaderByHash H hash;
  if negb (IsUint64 (Header_Number header)) || negb (Header_Number header =? num)
  then panic_with "Retrieved wrong block number for header hash"
  else mret header.

End WavmChainContext.

End ChainContext.

(** ** broadcaster/message: dummy broadcast messages *)

Module Broadcast.

(** [BroadcastFeedMessage]: the two fields the constructor sets. *)
Record BroadcastFeedMessage (MessageWithMetadata : Type) := {
  SequenceNumber : Z;
  Message : MessageWithMetadata;
}.
Arguments SequenceNumber {MessageWithMetadata} b.
Arguments Message {MessageWithMetadata} b.

(** [BroadcastMessage]: the field the constructor sets. *)
Record BroadcastMessage (MessageWithMetadata : Type) := {
  Messages : list (BroadcastFeedMessage MessageWithMetadata);
}.
Arguments Messages {MessageWithMetadata} b.

Section Dummy.

Variable MessageWithMetadata : Type.

(** [arbostypes.EmptyTestMessageWithMetadata], declared outside the file. *)
Variable EmptyTestMessageWithMetadata : MessageWithMetadata.

(** Two constants of the Go runtime that depend on the platform: the
    largest allocation in bytes ([maxAlloc]) and the size of a pointer
    ([goarch.PtrSize]). *)
Variable maxAlloc : Z.
Variable PtrSize : Z.

(** [make([]*T, 0, length)], that is [runtime.makeslice] with length 0: an
    empty slice. The runtime panics when the capacity is negative or when
    [length] pointers take more than [maxAlloc] bytes ([maxAlloc] is below
    the range of [uintptr], so the overflow test of the runtime adds
    nothing to the comparison written here). An allocation within the
    limit is taken to succeed. *)
Definition make_empty {A} (length : Z) : Go.outcome unit (list A) :=
  if (length <? 0) || (maxAlloc <? PtrSize * length)
  then Panic (Explicit "makeslice: cap out of range") else Ret [].

(** [for _, seqNum := range seqNums] with the slice built so far. *)
Fixpoint append_dummies (seqNums : list Z)
    (broadcastMessages : list (BroadcastFeedMessage MessageWithMetadata))
  : list (BroadcastFeedMessage MessageWithMetadata) :=
  match seqNums with
  | [] => broadcastMessages
  | seqNum :: rest =>
      let broadcastMessage :=
        {| SequenceNumber := seqNum; Message := EmptyTestMessageWithMetadata |} in
      append_dummies rest (broadcastMessages ++ [broadcastMessage])
  end.

(** [CreateDummyBroadcastMessagesImpl] *)
Definition CreateDummyBroadcastMessagesImpl (seqNums : list Z) (length : Z)
  : Go.outcome unit (list (BroadcastFeedMessage MessageWithMetadata)) :=
  broadcastMessages ← make_empty length;
  Ret (append_dummies seqNums broadcastMessages).

(** [CreateDummyBroadcastMessages] *)
Definition CreateDummyBroadcastMessages (seqNums : list Z)
  : Go.outcome unit (list (BroadcastFeedMessage MessageWithMetadata)) :=
  CreateDummyBroadcastMessagesImpl seqNums (len seqNums).

(** [CreateDummyBroadcastMessage] *)
Definition CreateDummyBroadcastMessage (seqNums : list Z)
  : Go.outcome unit (BroadcastMessage MessageWithMetadata) :=
  messages ← CreateDummyBroadcastMessages seqNums;
  Ret {| Messages := messages |}.

End Dummy.

End Broadcast.

(** * Vocabulary of the statements *)

Module Spec.
Import Replay SyncMonitor.

(** Share deframing as the specification words it

    Every share loses its leading 29 bytes; the first one loses
    [NamespaceSize + 5] more, each later one [NamespaceSize + 1] more;
    what is left is concatenated in order. [Read_deframe] is compared
    with this. *)
Definition strip_first (NamespaceSize : Z) (share : bytes) : bytes :=
  drop (Z.to_nat (NamespaceSize + 5)) (drop 29 share).
Definition strip_next (NamespaceSize : Z) (share : bytes) : bytes :=
  drop (Z.to_nat (NamespaceSize + 1)) (drop 29 share).
Definition payload (NamespaceSize : Z) (shares : list bytes) : bytes :=
  match shares with
  | [] => []
  | share0 :: rest =>
      strip_first NamespaceSize share0 ++ concat (map (strip_next NamespaceSize) rest)
  end.

(** The sequence length of the first share: the big-endian number in its
    bytes [2*NamespaceSize+1 .. 2*NamespaceSize+5]. *)
Definition sequence_length (NamespaceSize : Z) (share0 : bytes) : Z :=
  match drop (Z.to_nat (NamespaceSize * 2 + 1)) share0 with
  | b0 :: b1 :: b2 :: b3 :: _ => be32 b0 b1 b2 b3
  | _ => 0
  end.

(** A share long enough for the header the deframing step removes from it. *)
Definition carries_first_header (NamespaceSize : Z) (share : bytes) : Prop :=
  NamespaceSize * 2 + 5 ≤ len share ∧ 29 + (NamespaceSize + 5) ≤ len share.
Definition carries_next_header (NamespaceSize : Z) (share : bytes) : Prop :=
  29 + (NamespaceSize + 1) ≤ len share.

(** [h] resolves, under the versioned-hash kind, to a preimage of blob length. *)
Definition resolves_to_blob (ResolveTypedPreimage : PreimageType → Hash → res bytes)
    (h : Hash) (blob : bytes) : Prop :=
  ResolveTypedPreimage EthVersionedHashPreimageType h = Ret blob ∧ len blob = BlobLen.

(** The two writes of the result. *)
Definition is_output (e : event) : bool :=
  match e with
  | EvSetLastBlockHash _ | EvSetSendRoot _ => true
  | _ => false
  end.

(** A computation that writes no result: the committed hash and the send
    root are left as they were and no write is added to the trace. *)
Definition quiet {A} (m : M A) : Prop :=
  ∀ w r w', m w = (r, w') →
    lastBlockHash w' = lastBlockHash w ∧
    sendRoot w' = sendRoot w ∧
    ∃ evs, trace w' = trace w ++ evs ∧ Forall (λ e, is_output e = false) evs.

(** The providers [readMessage] builds for given chain parameters. *)
Definition providers_for (p : params_ArbitrumChainParams) : list DataAvailabilityProvider :=
  (if DataAvailabilityCommittee p then [DAProviderDAS] else []) ++
  (if CelestiaDA p then [DAProviderCelestia] else []) ++
  [DAProviderBlobReader].

(** The message count after the optional clamp to the validated count. *)
Definition clamped (wait : bool) (s : SyncMonitor) (msg : Z) : option Z :=
  if wait then
    ts ← txStreamer s;
    v ← validator ts;
    Some (Z.min msg (GetValidated v))
  else Some msg.

End Spec.

(** * Inputs of the examples *)

Module Samples.
Import Replay SyncMonitor.

(** A pointer used in the examples: start 1, two shares. *)
Definition pointer_1_2 : BlobPointer :=
  {| BlockHeight := 1; Start := 1; SharesLength := 2; TxCommitment := 0; DataRoot := 7 |}.

(** An oracle for the examples: the data root opens to eight leaves, every
    row root to an empty row. *)
Definition no_preimage : PreimageType → Hash → res bytes :=
  fun _ _ => Err (External "unknown preimage").
Definition eight_leaves : (Hash → res bytes) → Hash → res (list bytes) :=
  fun _ _ => Ret (replicate 8 []).
Definition empty_rows : (Hash → res bytes) → bytes → res (list bytes) :=
  fun _ _ => Ret [].

(** A square of width 4 for the examples: the data root opens to four row
    roots and four column roots, each one byte; row [i] holds the four
    shares tagged [16*i + j], each with sequence length 2 in its header
    and its tag as last byte. *)
Definition tagged_share (tag : Byte.byte) : bytes :=
  replicate 59 Byte.x00 ++ [Byte.x00; Byte.x00; Byte.x00; Byte.x02] ++ [tag].
Definition square_leaves : (Hash → res bytes) → Hash → res (list bytes) :=
  fun _ _ =>
    Ret [[Byte.x00]; [Byte.x01]; [Byte.x02]; [Byte.x03];
         [Byte.x04]; [Byte.x05]; [Byte.x06]; [Byte.x07]].
Definition square_rows : (Hash → res bytes) → bytes → res (list bytes) :=
  fun _ root =>
    match root with
    | [Byte.x00] => Ret (tagged_share <$> [Byte.x00; Byte.x01; Byte.x02; Byte.x03])
    | [Byte.x01] => Ret (tagged_share <$> [Byte.x10; Byte.x11; Byte.x12; Byte.x13])
    | [Byte.x02] => Ret (tagged_share <$> [Byte.x20; Byte.x21; Byte.x22; Byte.x23])
    | [Byte.x03] => Ret (tagged_share <$> [Byte.x30; Byte.x31; Byte.x32; Byte.x33])
    | _ => Err (External "unknown row root")
    end.
Definition pointer_5_2 : BlobPointer :=
  {| BlockHeight := 1; Start := 5; SharesLength := 2; TxCommitment := 0; DataRoot := 7 |}.
Definition pointer_0_4 : BlobPointer :=
  {| BlockHeight := 1; Start := 0; SharesLength := 4; TxCommitment := 0; DataRoot := 7 |}.

(** Shares for the examples, with [NamespaceSize = 29]: a first share whose
    sequence length is 2 and whose payload is three bytes, and a second
    share with a one-byte payload. *)
Definition first_share : bytes :=
  replicate 59 Byte.x00 ++ [Byte.x00; Byte.x00; Byte.x00; Byte.x02]
    ++ [Byte.x61; Byte.x62; Byte.x63].
Definition second_share : bytes := replicate 59 Byte.x00 ++ [Byte.x64].

(** An oracle that knows one versioned hash, 1, whose preimage is a blob of
    131072 bytes [0x2a]; hash 2 has a preimage one byte short. *)
Definition blob_2a : bytes := replicate (Z.to_nat BlobLen) Byte.x2a.
Definition short_preimage : bytes := replicate (Z.to_nat (BlobLen - 1)) Byte.x2a.
Definition blob_oracle (ty : PreimageType) (h : Hash) : res bytes :=
  match ty with
  | EthVersionedHashPreimageType =>
      if h =? 1 then Ret blob_2a
      else if h =? 2 then Ret short_preimage
      else Err (External "unknown preimage")
  | _ => Err (External "unknown preimage")
  end.

(** A host for a genesis replay: the state database and the messages carry
    nothing, the init message brings its chain configuration, and the
    genesis block has the given format version. *)
Definition genesis_host (version : Z) (slot : bslice) : Host :=
  {| Header := Z;
     Block := Z;
     StateDB := unit;
     ArbosState := unit;
     L1IncomingMessage := unit;
     Header_Root := fun _ => 0;
     Header_Nonce := fun _ => 0;
     Block_Hash := fun _ => 99;
     Block_Header := fun b => b;
     DeserializeHeaderExtraInformation :=
       fun h => {| SendRoot := 77; ArbOSFormatVersion := h |};
     ResolvePreimage := fun _ _ => Err (External "unknown preimage");
     ReadInboxMessage := fun _ => slot;
     rlp_DecodeBytes := fun _ => Err (External "rlp");
     NewDeterministic := fun _ => Ret ();
     OpenSystemArbosState := fun _ => Err (External "no arbos state");
     ArbosState_ChainId := fun _ => Ret 412346;
     ArbosState_GenesisBlockNum := fun _ => Ret 0;
     ArbosState_ChainConfig := fun _ => Ret [];
     json_Unmarshal := fun _ => Err (External "json");
     GetChainConfig := fun _ _ => Err (External "unknown chain");
     ParseInitMessage := fun _ =>
       Ret {| ChainId := 412346;
              ChainConfig :=
                Some {| ChainID := 412346;
                        ArbitrumChainParams := zero_ArbitrumChainParams |} |};
     InitializeArbosState := fun s _ _ => Ret s;
     IntermediateRoot := fun _ => 5;
     MakeGenesisBlock := fun _ _ _ _ _ => version;
     ProduceBlock := fun _ _ _ _ _ => Err (External "no block");
     Pop := fun m c =>
       (Ret {| Message := (); DelayedMessagesRead := delayedMessagesRead m |},
        {| inboxPosition := inboxPosition c;
           positionWithinMessage := positionWithinMessage c + 1 |}) |}.

(** A slot of three bytes in an array of eight. *)
Definition short_slot : bslice :=
  {| backing := [Byte.x01; Byte.x02; Byte.x03; Byte.x00; Byte.x00; Byte.x00;
                 Byte.x00; Byte.x00];
     slen := 3 |}.

(** The tape before a genesis replay, with the given offset in the batch. *)
Definition genesis_world (pos : Z) : World :=
  {| cursor := {| inboxPosition := 0; positionWithinMessage := pos |};
     lastBlockHash := 0; sendRoot := 0; trace := [] |}.

(** The tape after the genesis block was produced from [genesis_world 0]. *)
Definition genesis_produced : World :=
  {| cursor := {| inboxPosition := 0; positionWithinMessage := 1 |};
     lastBlockHash := 0; sendRoot := 0;
     trace := [EvStubInit; EvGetLastBlockHash; EvGetPositionWithinMessage 0;
               EvNewDAProvider DAProviderBlobReader;
               EvNewInboxMultiplexer
                 {| delayedMessagesRead := 0;
                    daProviders := [DAProviderBlobReader];
                    keysetValidationMode := KeysetPanicIfInvalid |};
               EvPop] |}.

Definition both_flags : params_ArbitrumChainParams :=
  {| DataAvailabilityCommittee := true; CelestiaDA := true; GenesisBlockNum := 0 |}.
Definition celestia_flag : params_ArbitrumChainParams :=
  {| DataAvailabilityCommittee := false; CelestiaDA := true; GenesisBlockNum := 0 |}.

(** A monitor whose inbox reader reports no safe and no finalized message
    yet, and whose execution client numbers blocks like messages. *)
Definition idle_reader : InboxReader :=
  {| GetLastSeenBatchCount := 0;
     GetLastReadBlockAndBatchCount := (0, 0);
     Tracker_GetBatchMetadata := fun _ => Err "no batch";
     l1Reader := None;
     GetSafeMsgCount := Ret 0;
     GetFinalizedMsgCount := Ret 0 |}.
Definition identity_exec : FullExecutionClient :=
  {| HeadMessageNumber := Ret 0; MessageIndexToBlockNumber := fun i => i |}.
Definition idle_streamer : TransactionStreamer :=
  {| broadcasterQueuedMessagesPos := 0; GetMessageCount := Ret 1; validator := None |}.
Definition idle_monitor : SyncMonitor :=
  Initialize (NewSyncMonitor (Some DefaultSyncMonitorConfig))
             (Some idle_reader) (Some idle_streamer) None (Some identity_exec).
(** A monitor in sync: no inbox reader, one message, one block. *)
Definition synced_monitor : SyncMonitor :=
  Initialize (NewSyncMonitor (Some DefaultSyncMonitorConfig))
             None (Some idle_streamer) None (Some identity_exec).

End Samples.

(** * Vocabulary of the further statements *)

Module Terms.
Import Replay SyncMonitor Spec.

(** ** The Celestia resolver *)

(** The shares a range covers in the rows it spans, [rows] being the rows
    from the start row to the end row: the first row from the start index,
    the rows between in full, the last row up to the end index, each row
    cut to its ODS half. *)
Fixpoint covered_tail (odsSize : Z) (r : ShareRange) (rows : list (list bytes))
  : list bytes :=
  match rows with
  | [] => []
  | [last] => take (Z.to_nat (endIndex r + 1)) (take (Z.to_nat odsSize) last)
  | row :: rest => take (Z.to_nat odsSize) row ++ covered_tail odsSize r rest
  end.
Definition covered_shares (odsSize : Z) (r : ShareRange) (rows : list (list bytes))
  : list bytes :=
  match rows with
  | [] => []
  | first :: rest =>
      drop (Z.to_nat (startIndex r)) (take (Z.to_nat odsSize) first)
        ++ covered_tail odsSize r rest
  end.

(** A row root that opens to a row of at least [odsSize] shares. *)
Definition opens_to_row (ResolveTypedPreimage : PreimageType → Hash → res bytes)
    (NmtContent : (Hash → res bytes) → bytes → res (list bytes))
    (odsSize : Z) (root : bytes) (row : list bytes) : Prop :=
  NmtContent (ResolveTypedPreimage Sha2_256PreimageType) root = Ret row ∧
  odsSize ≤ len row.

(** ** The replay *)

(** The preimage of [hash] under keccak decodes to the header [h]. *)
Definition resolves_header (H : Host) (hash : Hash) (h : Header H) : Prop :=
  ∃ enc, ResolvePreimage H Keccak256PreimageType hash = Ret enc ∧
         rlp_DecodeBytes H enc = Ret h.

(** The header [main] starts from: none when the committed hash is zero. *)
Definition last_header (H : Host) (w : World) (hdr : option (Header H)) : Prop :=
  match hdr with
  | None => lastBlockHash w = 0
  | Some h => lastBlockHash w ≠ 0 ∧ resolves_header H (lastBlockHash w) h
  end.

(** The multiplexer [readMessage] builds on tape [w]. *)
Definition multiplexer_for (H : Host) (hdr : option (Header H))
    (p : params_ArbitrumChainParams) (w : World) : InboxMultiplexer :=
  {| delayedMessagesRead :=
       match hdr with Some h => Header_Nonce H h | None => 0 end;
     daProviders := providers_for p;
     keysetValidationMode :=
       if 0 <? positionWithinMessage (cursor w)
       then KeysetDontValidate else KeysetPanicIfInvalid |}.

(** The state root [main] starts from: zero when there is no last header. *)
Definition last_state_root (H : Host) (hdr : option (Header H)) : Hash :=
  match hdr with Some h => Header_Root H h | None => 0 end.

(** The tape when [main] is about to load the chain configuration or to
    call [readMessage]: the backend has been set up, the committed hash
    read and, when it is not zero, the preimage of the header behind it
    resolved; cursor, committed hash and send root are those of the
    start. *)
Definition before_pop (H : Host) (hdr : option (Header H)) (w : World) : World :=
  {| cursor := cursor w;
     lastBlockHash := lastBlockHash w;
     sendRoot := sendRoot w;
     trace := trace w
                ++ [EvStubInit; EvGetLastBlockHash]
                ++ match hdr with
                   | Some _ =>
                       [EvResolveTypedPreimage Keccak256PreimageType (lastBlockHash w)]
                   | None => []
                   end |}.

(** The tape after [readMessage], called on [before_pop], has popped, the
    pop leaving the cursor at [c]. *)
Definition after_pop (H : Host) (hdr : option (Header H))
    (p : params_ArbitrumChainParams) (w : World) (c : Cursor) : World :=
  {| cursor := c;
     lastBlockHash := lastBlockHash w;
     sendRoot := sendRoot w;
     trace := trace (before_pop H hdr w)
                ++ [EvGetPositionWithinMessage (positionWithinMessage (cursor w))]
                ++ map EvNewDAProvider (providers_for p)
                ++ [EvNewInboxMultiplexer (multiplexer_for H hdr p w); EvPop] |}.

(** The chain configuration [main] uses on top of an initialised chain:
    the one stored in the ArbOS state when it is not empty, which must
    agree with the state on the chain id and the genesis block number,
    otherwise the one known for the chain id. *)
Definition loads_config (H : Host) (chainId genesisBlockNum : Z) (json : bytes)
    (chainConfig : params_ChainConfig) : Prop :=
  if 0 <? len json
  then json_Unmarshal H json = Ret chainConfig ∧
       ChainID chainConfig = chainId ∧
       GenesisBlockNum (ArbitrumChainParams chainConfig) = genesisBlockNum
  else GetChainConfig H chainId genesisBlockNum = Ret chainConfig.

(** The ArbOS state behind the last header opens, and holds the chain id
    [chainId], the genesis block number [genesisBlockNum] and the chain
    configuration [json]. *)
Definition arbos_state (H : Host) (h : Header H) (db : StateDB H)
    (chainId genesisBlockNum : Z) (json : bytes) : Prop :=
  Header_Root H h ≠ 0 ∧
  NewDeterministic H (Header_Root H h) = Ret db ∧
  ∃ st, OpenSystemArbosState H db = Ret st ∧
        ArbosState_ChainId H st = Ret chainId ∧
        ArbosState_GenesisBlockNum H st = Ret genesisBlockNum ∧
        ArbosState_ChainConfig H st = Ret json.

(** ** The sync monitor *)

(** The monitor has nothing to report: the feed is drained, the blocks
    built are within [BlockBuildLag] of the messages received, the inbox
    reader (when there is one) has processed every batch it has seen and
    the blocks are within [BlockBuildSequencerInboxLag] of them, and the
    coordinator (when there is one) is at most [CoordinatorMsgLag]
    messages ahead. *)
Definition in_sync (s : SyncMonitor) : Prop :=
  initialized s = true ∧
  ∃ ts e cfg built msgCount,
    txStreamer s = Some ts ∧ exec s = Some e ∧ config s = Some cfg ∧
    broadcasterQueuedMessagesPos ts = 0 ∧
    HeadMessageNumber e = Ret built ∧
    GetMessageCount ts = Ret msgCount ∧
    msgCount ≤ wrap64 (wrap64 (built + 1) + BlockBuildLag cfg) ∧
    (∀ ir, inboxReader s = Some ir →
       GetLastSeenBatchCount ir ≠ 0 ∧
       GetLastSeenBatchCount ir ≤ snd (GetLastReadBlockAndBatchCount ir) ∧
       ∃ processedMetadata,
         Tracker_GetBatchMetadata ir
           (wrap64 (snd (GetLastReadBlockAndBatchCount ir) - 1)) = Ret processedMetadata ∧
         MessageCount processedMetadata
           ≤ wrap64 (wrap64 (built + 1) + BlockBuildSequencerInboxLag cfg)) ∧
    (∀ c, coordinator s = Some c →
       ∃ coordinatorMessageCount,
         GetRemoteMsgCount c = Ret coordinatorMessageCount ∧
         coordinatorMessageCount ≤ wrap64 (msgCount + CoordinatorMsgLag cfg)).

(** The block numbering never goes back on message indices. *)
Definition monotone_blocks (e : FullExecutionClient) : Prop :=
  ∀ i j, 0 ≤ i → i ≤ j → j < 2 ^ 64 →
    MessageIndexToBlockNumber e i ≤ MessageIndexToBlockNumber e j.

(** The validated count, where the streamer has a validator. *)
Definition validated (s : SyncMonitor) : option Z :=
  ts ← txStreamer s;
  v ← validator ts;
  Some (GetValidated v).

(** The key under which the progress map tells the position of the feed. *)
Definition feed_key : string := "broadcasterQueuedMessagesPos".

End Terms.

(** * Inputs of the further examples *)

Module Fixtures.
Import Replay SyncMonitor Spec Samples Terms.

(** ** The Celestia resolver *)

(** Pointers into the square of width 4 of [square_leaves]: one without
    shares, one inside row 1, one in a row past the square. *)
Definition pointer_1_0 : BlobPointer :=
  {| BlockHeight := 1; Start := 1; SharesLength := 0; TxCommitment := 0; DataRoot := 7 |}.
Definition pointer_4_2 : BlobPointer :=
  {| BlockHeight := 1; Start := 4; SharesLength := 2; TxCommitment := 0; DataRoot := 7 |}.
Definition pointer_16_1 : BlobPointer :=
  {| BlockHeight := 1; Start := 16; SharesLength := 1; TxCommitment := 0; DataRoot := 7 |}.

(** Data roots that open to one leaf and to two leaves. *)
Definition one_leaf : (Hash → res bytes) → Hash → res (list bytes) :=
  fun _ _ => Ret [[Byte.x00]].
Definition two_leaves : (Hash → res bytes) → Hash → res (list bytes) :=
  fun _ _ => Ret [[Byte.x00]; [Byte.x01]].

(** The leaves behind [square_leaves] and the first two rows of
    [square_rows]. *)
Definition leaves_of_square : list bytes :=
  [[Byte.x00]; [Byte.x01]; [Byte.x02]; [Byte.x03];
   [Byte.x04]; [Byte.x05]; [Byte.x06]; [Byte.x07]].
Definition row_0 : list bytes :=
  tagged_share <$> [Byte.x00; Byte.x01; Byte.x02; Byte.x03].
Definition row_1 : list bytes :=
  tagged_share <$> [Byte.x10; Byte.x11; Byte.x12; Byte.x13].

(** The range of [pointer_4_2], and the square [Read] reports for it. *)
Definition range_4_2 : ShareRange :=
  {| startRow := 1; startIndex := 0; endRow := 1; endIndex := 1 |}.
Definition square_4_2 : SquareData :=
  {| RowRoots := [[Byte.x00]; [Byte.x01]; [Byte.x02]; [Byte.x03]];
     ColumnRoots := [[Byte.x04]; [Byte.x05]; [Byte.x06]; [Byte.x07]];
     Rows := [row_1];
     SquareSize := 4;
     StartRow := 1;
     EndRow := 1 |}.

(** A range from the second share of row 0 to the first share of row 1. *)
Definition range_0_1 : ShareRange :=
  {| startRow := 0; startIndex := 1; endRow := 1; endIndex := 0 |}.

(** ** The replay *)
(** A host for a replay on top of block 42: its header has state root 5
    and nonce 3, the ArbOS state holds chain id 412346 and a chain
    configuration that parses to the given chain id with the given chain
    parameters, and the block produced is 8. *)
Definition replay_host_with (p : params_ArbitrumChainParams) (configChainId : Z) : Host :=
  {| Header := Z * Z;
     Block := Z;
     StateDB := unit;
     ArbosState := unit;
     L1IncomingMessage := unit;
     Header_Root := fst;
     Header_Nonce := snd;
     Block_Hash := fun _ => 99;
     Block_Header := fun b => (6, 4);
     DeserializeHeaderExtraInformation :=
       fun h => {| SendRoot := 77; ArbOSFormatVersion := 11 |};
     ResolvePreimage := fun ty h =>
       match ty with
       | Keccak256PreimageType =>
           if h =? 42 then Ret [Byte.x01] else Err (External "unknown preimage")
       | _ => Err (External "unknown preimage")
       end;
     ReadInboxMessage := fun _ => {| backing := []; slen := 0 |};
     rlp_DecodeBytes := fun _ => Ret (5, 3);
     NewDeterministic := fun _ => Ret ();
     OpenSystemArbosState := fun _ => Ret ();
     ArbosState_ChainId := fun _ => Ret 412346;
     ArbosState_GenesisBlockNum := fun _ => Ret 0;
     ArbosState_ChainConfig := fun _ => Ret [Byte.x7b; Byte.x7d];
     json_Unmarshal := fun _ =>
       Ret {| ChainID := configChainId; ArbitrumChainParams := p |};
     GetChainConfig := fun _ _ => Err (External "unknown chain");
     ParseInitMessage := fun _ => Err (External "not an init message");
     InitializeArbosState := fun s _ _ => Ret s;
     IntermediateRoot := fun _ => 5;
     MakeGenesisBlock := fun _ _ _ _ _ => 0;
     ProduceBlock := fun _ _ _ _ _ => Ret 8;
     Pop := fun m c =>
       (Ret {| Message := (); DelayedMessagesRead := delayedMessagesRead m |},
        {| inboxPosition := inboxPosition c + 1; positionWithinMessage := 0 |}) |}.

(** The same with the Celestia flag set in the stored configuration. *)
Definition replay_host (configChainId : Z) : Host :=
  replay_host_with celestia_flag configChainId.

(** The tape before that replay. *)
Definition replay_world : World :=
  {| cursor := {| inboxPosition := 9; positionWithinMessage := 0 |};
     lastBlockHash := 42; sendRoot := 0; trace := [] |}.

(** The header behind hash 42, and the chain configuration stored with it. *)
Definition header_42 (configChainId : Z) : Header (replay_host configChainId) := (5, 3).
Definition stored_config (configChainId : Z) : params_ChainConfig :=
  {| ChainID := configChainId;
     ArbitrumChainParams :=
       {| DataAvailabilityCommittee := false; CelestiaDA := true;
          GenesisBlockNum := 0 |} |}.

(** The message popped in that replay and the cursor after it. *)
Definition popped (configChainId : Z)
  : MessageWithMetadata (L1IncomingMessage (replay_host configChainId)) :=
  {| Message := (); DelayedMessagesRead := 3 |}.
Definition cursor_10 : Cursor := {| inboxPosition := 10; positionWithinMessage := 0 |}.

(** The tape at the end of the replay of [replay_host 412346]. *)
Definition replay_done : World :=
  {| cursor := cursor_10;
     lastBlockHash := 99;
     sendRoot := 77;
     trace := trace (after_pop (replay_host 412346) (Some (header_42 412346))
                       celestia_flag replay_world cursor_10)
                ++ [EvSetLastBlockHash 99; EvSetSendRoot 77; EvStubFinal] |}.

(** The init message of [genesis_host], the message that carries it and
    the cursor after it. *)
Definition init_message : ParsedInitMessage :=
  {| ChainId := 412346;
     ChainConfig :=
       Some {| ChainID := 412346; ArbitrumChainParams := zero_ArbitrumChainParams |} |}.
Definition genesis_config : params_ChainConfig :=
  {| ChainID := 412346; ArbitrumChainParams := zero_ArbitrumChainParams |}.
Definition genesis_popped
  : MessageWithMetadata (L1IncomingMessage (genesis_host 11 short_slot)) :=
  {| Message := (); DelayedMessagesRead := 0 |}.
Definition cursor_0_1 : Cursor := {| inboxPosition := 0; positionWithinMessage := 1 |}.

(** A host for a genesis replay whose init message brings a chain
    configuration with both flags set. *)
Definition conflicting_genesis_host : Host :=
  {| Header := Z;
     Block := Z;
     StateDB := unit;
     ArbosState := unit;
     L1IncomingMessage := unit;
     Header_Root := fun _ => 0;
     Header_Nonce := fun _ => 0;
     Block_Hash := fun _ => 99;
     Block_Header := fun b => b;
     DeserializeHeaderExtraInformation :=
       fun h => {| SendRoot := 77; ArbOSFormatVersion := h |};
     ResolvePreimage := fun _ _ => Err (External "unknown preimage");
     ReadInboxMessage := fun _ => short_slot;
     rlp_DecodeBytes := fun _ => Err (External "rlp");
     NewDeterministic := fun _ => Ret ();
     OpenSystemArbosState := fun _ => Err (External "no arbos state");
     ArbosState_ChainId := fun _ => Ret 412346;
     ArbosState_GenesisBlockNum := fun _ => Ret 0;
     ArbosState_ChainConfig := fun _ => Ret [];
     json_Unmarshal := fun _ => Err (External "json");
     GetChainConfig := fun _ _ => Err (External "unknown chain");
     ParseInitMessage := fun _ =>
       Ret {| ChainId := 412346;
              ChainConfig :=
                Some {| ChainID := 412346; ArbitrumChainParams := both_flags |} |};
     InitializeArbosState := fun s _ _ => Ret s;
     IntermediateRoot := fun _ => 5;
     MakeGenesisBlock := fun _ _ _ _ _ => 1;
     ProduceBlock := fun _ _ _ _ _ => Err (External "no block");
     Pop := fun m c =>
       (Ret {| Message := (); DelayedMessagesRead := delayedMessagesRead m |},
        {| inboxPosition := inboxPosition c;
           positionWithinMessage := positionWithinMessage c + 1 |}) |}.

(** ** The sync monitor *)

(** A reader that has seen and processed two batches holding three
    messages, five of them safe and two finalized by the parent chain. *)
Definition busy_reader : InboxReader :=
  {| GetLastSeenBatchCount := 2;
     GetLastReadBlockAndBatchCount := (7, 2);
     Tracker_GetBatchMetadata := fun _ => Ret {| MessageCount := 3 |};
     l1Reader := Some {| LastHeaderWithError :=
                           (Some {| Number := 7; HeaderHash := 9 |}, None) |};
     GetSafeMsgCount := Ret 5;
     GetFinalizedMsgCount := Ret 2 |}.
Definition busy_exec : FullExecutionClient :=
  {| HeadMessageNumber := Ret 4; MessageIndexToBlockNumber := fun i => i + 22 |}.
Definition busy_streamer (queued : Z) : TransactionStreamer :=
  {| broadcasterQueuedMessagesPos := queued;
     GetMessageCount := Ret 5;
     validator := Some {| GetValidated := 4 |} |}.
Definition waiting_config : SyncMonitorConfig :=
  {| BlockBuildLag := 20; BlockBuildSequencerInboxLag := 0; CoordinatorMsgLag := 15;
     SafeBlockWaitForBlockValidator := true;
     FinalizedBlockWaitForBlockValidator := true |}.
Definition near_coordinator : SeqCoordinator := {| GetRemoteMsgCount := Ret 6 |}.
Definition busy_monitor (queued : Z) : SyncMonitor :=
  Initialize (NewSyncMonitor (Some waiting_config))
             (Some busy_reader) (Some (busy_streamer queued))
             (Some near_coordinator) (Some busy_exec).

(** A reader whose safe count cannot be read. *)
Definition failing_reader : InboxReader :=
  {| GetLastSeenBatchCount := 0;
     GetLastReadBlockAndBatchCount := (0, 0);
     Tracker_GetBatchMetadata := fun _ => Err "no batch";
     l1Reader := None;
     GetSafeMsgCount := Err "no safe block";
     GetFinalizedMsgCount := Err "no finalized block" |}.
Definition failing_monitor : SyncMonitor :=
  Initialize (NewSyncMonitor (Some waiting_config))
             (Some failing_reader) (Some (busy_streamer 0)) None (Some busy_exec).

End Fixtures.

(** * Properties *)

(** ** Arithmetic and slices *)

Module GoFacts.

Ltac unbind := unfold mbind, outcome_bind, mret, outcome_ret, Go.bind.

Lemma wrap64_small (z : Z) : 0 ≤ z < 2 ^ 64 → wrap64 z = z.
Proof. intros H. unfold wrap64. by apply Z.mod_small. Qed.

Lemma wrap64_minus_one : wrap64 (0 - 1) = 2 ^ 64 - 1.
Proof. reflexivity. Qed.

Lemma len_app {A} (l k : list A) : len (l ++ k) = len l + len k.
Proof. unfold len. rewrite length_app. lia. Qed.

Lemma len_nonneg {A} (l : list A) : 0 ≤ len l.
Proof. unfold len. lia. Qed.

Lemma len_drop {A} (l : list A) (n : Z) :
  0 ≤ n ≤ len l → len (drop (Z.to_nat n) l) = len l - n.
Proof. unfold len. intros H. rewrite length_drop. lia. Qed.

Lemma udiv_nonzero {E} (x y : Z) : y ≠ 0 → udiv (E:=E) x y = Ret (x / y).
Proof. intros H. unfold udiv. by destruct (Z.eqb_spec y 0). Qed.

Lemma umod_nonzero {E} (x y : Z) : y ≠ 0 → umod (E:=E) x y = Ret (x mod y).
Proof. intros H. unfold umod. by destruct (Z.eqb_spec y 0). Qed.

Lemma slice_from_ok {E A} (s : list A) (lo : Z) :
  0 ≤ lo ≤ len s → slice_from (E:=E) s lo = Ret (drop (Z.to_nat lo) s).
Proof.
  intros H. unfold slice_from.
  destruct (Z.ltb_spec lo 0); [lia|].
  destruct (Z.ltb_spec (len s) lo); [lia|]. reflexivity.
Qed.

Lemma slice_from_short {E A} (s : list A) (lo : Z) :
  len s < lo → slice_from (E:=E) s lo = Panic SliceBoundsOutOfRange.
Proof.
  intros H. unfold slice_from.
  destruct (lo <? 0); [reflexivity|].
  destruct (Z.ltb_spec (len s) lo); [reflexivity|lia].
Qed.

Lemma lor_lt_pow2 (a b n : Z) :
  0 ≤ n → 0 ≤ a < 2 ^ n → 0 ≤ b < 2 ^ n → Z.lor a b < 2 ^ n.
Proof.
  intros Hn Ha Hb.
  destruct (Z.eq_dec n 0) as [->|Hn0].
  { change (2 ^ 0) with 1 in *.
    assert (a = 0) as -> by lia. assert (b = 0) as -> by lia. done. }
  assert (Hl : ∀ x, 0 ≤ x < 2 ^ n → Z.log2 x < n).
  { intros x Hx. destruct (Z.eq_dec x 0) as [->|]; [change (Z.log2 0) with 0; lia|].
    apply Z.log2_lt_pow2; lia. }
  assert (H0 : 0 ≤ Z.lor a b) by (apply Z.lor_nonneg; lia).
  destruct (Z.eq_dec (Z.lor a b) 0) as [->|Hne]; [apply Z.pow_pos_nonneg; lia|].
  apply Z.log2_lt_pow2; [lia|].
  rewrite Z.log2_lor by lia.
  pose proof (Hl a Ha). pose proof (Hl b Hb). lia.
Qed.

Lemma byte_val_bound (b : byte) : 0 ≤ byte_val b < 2 ^ 8.
Proof. unfold byte_val. pose proof (Byte.to_N_bounded b). lia. Qed.

Lemma be32_bound (b0 b1 b2 b3 : byte) : 0 ≤ be32 b0 b1 b2 b3 < 2 ^ 32.
Proof.
  pose proof (byte_val_bound b0). pose proof (byte_val_bound b1).
  pose proof (byte_val_bound b2). pose proof (byte_val_bound b3).
  unfold be32. rewrite !Z.shiftl_mul_pow2 by lia.
  assert (Hlor : ∀ a b, 0 ≤ a < 2 ^ 32 → 0 ≤ b < 2 ^ 32 → 0 ≤ Z.lor a b < 2 ^ 32).
  { intros a b Ha Hb. split; [apply Z.lor_nonneg; lia|apply lor_lt_pow2; lia]. }
  repeat apply Hlor; lia.
Qed.

End GoFacts.

(** ** The Celestia resolver *)

Module CelestiaFacts.
Import Replay Spec Samples GoFacts.

Lemma Read_range_4_2 (bp : BlobPointer) :
  Start bp = 1 → SharesLength bp = 2 →
  Read_range 4 2 bp = Err (ContentEndIndex 2 2).
Proof. intros Hs Hl. unfold Read_range. rewrite Hs, Hl. reflexivity. Qed.

(** What [Read_range] does with a pointer of [firstRowShares + 1] shares in
    a square of even width: the end index is taken modulo the square size
    after the end row was multiplied by the ODS size, and lands in the
    parity half when the start row is even. *)
Lemma Read_range_one_past_first_row (squareSize odsSize : Z) (bp : BlobPointer) :
  2 ≤ odsSize < 2 ^ 62 →
  squareSize = 2 * odsSize →
  0 ≤ Start bp < 2 ^ 64 →
  Start bp mod squareSize ≤ odsSize →
  SharesLength bp = odsSize - Start bp mod squareSize + 1 →
  Read_range squareSize odsSize bp =
    if Z.even (Start bp / squareSize)
    then Err (ContentEndIndex odsSize odsSize)
    else Ret {| startRow := Start bp / squareSize;
                startIndex := Start bp mod squareSize;
                endRow := Start bp / squareSize + 1;
                endIndex := 0 |}.
Proof.
  intros Hods Hsq HS Hidx HL.
  assert (Hsq0 : squareSize ≠ 0) by lia.
  assert (Hr : 0 ≤ Start bp mod squareSize < squareSize)
    by (apply Z.mod_pos_bound; lia).
  assert (Hq : 0 ≤ Start bp / squareSize ∧ (Start bp / squareSize) * squareSize ≤ Start bp).
  { split; [apply Z.div_pos; lia|].
    rewrite Z.mul_comm. apply Z.mul_div_le. lia. }
  set (q := Start bp / squareSize) in *. set (r := Start bp mod squareSize) in *.
  unfold Read_range.
  rewrite !udiv_nonzero, !umod_nonzero by lia. unbind. fold q r.
  destruct (Z.ltb_spec odsSize r) as [?|_]; [lia|].
  rewrite (wrap64_small (odsSize - r)) by lia.
  rewrite HL.
  destruct (Z.eqb_spec (odsSize - r + 1) 0) as [?|_]; [lia|].
  destruct (Z.leb_spec (odsSize - r + 1) (odsSize - r)) as [?|_]; [lia|].
  destruct (Z.ltb_spec (odsSize - r + 1) (odsSize - r)) as [?|_]; [lia|].
  replace (odsSize - r + 1 - (odsSize - r)) with 1 by lia.
  rewrite (wrap64_small 1) by lia.
  rewrite !udiv_nonzero, !umod_nonzero by lia.
  rewrite (Z.div_small 1 odsSize), (Z.mod_small 1 odsSize) by lia.
  change (0 <? 1) with true. cbv iota. change (1 <? 1) with false. cbv iota.
  rewrite Z.add_0_r, (wrap64_small q) by nia.
  rewrite (wrap64_small (q + 1)) by nia.
  rewrite (Z.mod_small (odsSize - r + 1) squareSize) by lia.
  destruct (Z.ltb_spec 0 (odsSize - r + 1)) as [_|?]; [|lia].
  change (1 - 1) with 0. rewrite (wrap64_small 0) by lia.
  rewrite (wrap64_small ((q + 1) * odsSize)) by nia.
  rewrite Z.add_0_r, (wrap64_small ((q + 1) * odsSize)) by nia.
  rewrite umod_nonzero by done.
  assert (Hm : ((q + 1) * odsSize) mod squareSize = odsSize * ((q + 1) mod 2)).
  { rewrite Hsq, (Z.mul_comm (q + 1)), (Z.mul_comm 2).
    apply Z.mul_mod_distr_l; lia. }
  rewrite Hm.
  destruct (Z.even q) eqn:Hev.
  - assert (Hq1 : (q + 1) mod 2 = 1).
    { apply Z.even_spec in Hev. destruct Hev as [k ->].
      replace (2 * k + 1) with (1 + k * 2) by lia. by rewrite Z.mod_add. }
    rewrite Hq1, Z.mul_1_r.
    rewrite (wrap64_small (odsSize + 1)) by lia.
    destruct (Z.ltb_spec odsSize (odsSize + 1)) as [_|?]; [|lia]. done.
  - assert (Hq1 : (q + 1) mod 2 = 0).
    { rewrite <- Z.negb_odd in Hev. apply negb_false_iff, Z.odd_spec in Hev.
      destruct Hev as [k ->].
      replace (2 * k + 1 + 1) with (0 + (k + 1) * 2) by lia. by rewrite Z.mod_add. }
    rewrite Hq1, Z.mul_0_r.
    change (wrap64 (0 + 1)) with 1.
    destruct (Z.ltb_spec odsSize 1) as [?|_]; [lia|]. done.
Qed.

(** The same pointer one row down (start 5 in the square of the examples):
    the range is accepted, and the loop takes the share at index 1 of row 1
    and the share at index 0 of row 2. *)
Example Read_range_from_odd_row :
  Read_range 4 2 pointer_5_2
  = Ret {| startRow := 1; startIndex := 1; endRow := 2; endIndex := 0 |}.
Proof. reflexivity. Qed.

Example Read_rows_from_odd_row :
  Read_rows no_preimage square_rows 2
    {| startRow := 1; startIndex := 1; endRow := 2; endIndex := 0 |}
    [[Byte.x01]; [Byte.x02]; [Byte.x03]] 1 [] []
  = Ret ([tagged_share <$> [Byte.x10; Byte.x11; Byte.x12; Byte.x13];
          tagged_share <$> [Byte.x20; Byte.x21; Byte.x22; Byte.x23]],
         [tagged_share Byte.x11; tagged_share Byte.x20]).
Proof. vm_compute. reflexivity. Qed.

Example Read_from_odd_row :
  ('(data, _) ← Read no_preimage 29 square_leaves square_rows pointer_5_2; Ret data)
  = Ret [Byte.x11; Byte.x00].
Proof. vm_compute. reflexivity. Qed.

(** Two full rows from the start of the square are read as well. *)
Example Read_two_full_rows :
  Read_range 4 2 pointer_0_4
  = Ret {| startRow := 0; startIndex := 0; endRow := 1; endIndex := 1 |}.
Proof. reflexivity. Qed.

(** C1 (as the code behaves): for a data root that opens to eight leaves
    (square size 4, ODS size 2) and a pointer with start 1 and two shares,
    [Read] derives the end index 2, not 0, and returns the error of the
    check [endIndex+1 > odsSize]: no share is returned. *)
Theorem Read_pointer_spanning_two_rows
    (ResolveTypedPreimage : PreimageType → Hash → res bytes) (NamespaceSize : Z)
    (MerkleTreeContent : (Hash → res bytes) → Hash → res (list bytes))
    (NmtContent : (Hash → res bytes) → bytes → res (list bytes))
    (bp : BlobPointer) (leaves : list bytes) :
  MerkleTreeContent (ResolveTypedPreimage Sha2_256PreimageType) (DataRoot bp) = Ret leaves →
  len leaves = 8 →
  Start bp = 1 →
  SharesLength bp = 2 →
  Read_range 4 2 bp = Err (ContentEndIndex 2 2) ∧
  Read ResolveTypedPreimage NamespaceSize MerkleTreeContent NmtContent bp
  = Err (ContentEndIndex 2 2).
Proof.
  intros Hleaves Hlen Hs Hl. split; [by apply Read_range_4_2|].
  unfold Read. rewrite Hleaves. unbind.
  rewrite Hlen. change (8 / 2) with 4. change (4 / 2) with 2.
  by rewrite Read_range_4_2.
Qed.

Lemma Read_pointer_spanning_two_rows_witness :
  Read_range 4 2 pointer_1_2 = Err (ContentEndIndex 2 2) ∧
  Read no_preimage 29 eight_leaves empty_rows pointer_1_2 = Err (ContentEndIndex 2 2).
Proof.
  apply (Read_pointer_spanning_two_rows no_preimage 29 eight_leaves empty_rows
           pointer_1_2 (replicate 8 [])); reflexivity.
Defined.

Lemma sequence_length_bound (NamespaceSize : Z) (share0 : bytes) :
  0 ≤ sequence_length NamespaceSize share0 < 2 ^ 32.
Proof.
  unfold sequence_length.
  destruct (drop _ share0) as [|b0 [|b1 [|b2 [|b3 ?]]]]; try lia.
  apply be32_bound.
Qed.

Section Deframe.

Variable NamespaceSize : Z.
Hypothesis NamespaceSize_nonneg : 0 ≤ NamespaceSize.

Lemma Read_strip_next (shares : list bytes) : ∀ (i : Z) (data : bytes),
  0 < i →
  Forall (carries_next_header NamespaceSize) shares →
  Read_strip NamespaceSize shares i data
  = Ret (data ++ concat (map (strip_next NamespaceSize) shares)).
Proof.
  induction shares as [|s rest IH]; intros i data Hi Hall; simpl.
  - by rewrite app_nil_r.
  - inversion Hall as [|? ? Hs Hrest]; subst. unfold carries_next_header in Hs.
    rewrite slice_from_ok by lia. unbind.
    destruct (Z.eqb_spec i 0); [lia|].
    rewrite slice_from_ok by (rewrite (len_drop s 29) by lia; lia).
    rewrite IH by (done || lia).
    by rewrite <- app_assoc.
Qed.

Lemma Read_strip_short (pre : list bytes) (short : bytes) (post : list bytes) :
  ∀ (i : Z) (data : bytes),
  0 < i →
  Forall (carries_next_header NamespaceSize) pre →
  len short < 29 + (NamespaceSize + 1) →
  Read_strip NamespaceSize (pre ++ short :: post) i data
  = Panic SliceBoundsOutOfRange.
Proof.
  induction pre as [|s rest IH]; intros i data Hi Hall Hshort; simpl.
  - destruct (Z.ltb_spec (len short) 29) as [Hlt|Hge].
    + by rewrite slice_from_short.
    + rewrite slice_from_ok by lia. unbind.
      destruct (Z.eqb_spec i 0); [lia|].
      by rewrite slice_from_short by (rewrite (len_drop short 29) by lia; lia).
  - inversion Hall as [|? ? Hs Hrest]; subst. unfold carries_next_header in Hs.
    rewrite slice_from_ok by lia. unbind.
    destruct (Z.eqb_spec i 0); [lia|].
    rewrite slice_from_ok by (rewrite (len_drop s 29) by lia; lia).
    apply IH; (done || lia).
Qed.

Lemma Read_strip_first (share0 : bytes) (rest : list bytes) :
  carries_first_header NamespaceSize share0 →
  Read_strip NamespaceSize (share0 :: rest) 0 []
  = Read_strip NamespaceSize rest 1 (strip_first NamespaceSize share0).
Proof.
  intros [H1 H2]. simpl.
  rewrite slice_from_ok by lia. unbind.
  by rewrite slice_from_ok by (rewrite (len_drop share0 29) by lia; lia).
Qed.

Lemma Read_sequence_length (share0 : bytes) :
  NamespaceSize * 2 + 5 ≤ len share0 →
  BigEndian_Uint32 (E:=error)
    (slice share0 (NamespaceSize * 2 + 1) (NamespaceSize * 2 + 5))
  = Ret (sequence_length NamespaceSize share0).
Proof.
  intros Hlen. unfold slice, sequence_length.
  replace (Z.to_nat (NamespaceSize * 2 + 5))
    with (Z.to_nat (NamespaceSize * 2 + 1) + 4)%nat by lia.
  rewrite <- take_drop_commute.
  assert (Hl : len (drop (Z.to_nat (NamespaceSize * 2 + 1)) share0)
               = len share0 - (NamespaceSize * 2 + 1)) by (apply len_drop; lia).
  destruct (drop _ share0) as [|b0 [|b1 [|b2 [|b3 ?]]]];
    unfold len in *; simpl in Hl; try lia.
  reflexivity.
Qed.

(** The deframing step on shares that carry their headers, in one equation. *)
Lemma Read_deframe_run (share0 : bytes) (rest : list bytes) :
  carries_first_header NamespaceSize share0 →
  Forall (carries_next_header NamespaceSize) rest →
  Read_deframe NamespaceSize (share0 :: rest) =
    let data := payload NamespaceSize (share0 :: rest) in
    let n := sequence_length NamespaceSize share0 in
    if wrap32 (len data) <? n
    then Err (SequenceLengthData n (len data))
    else Ret (slice_to data n).
Proof.
  intros Hfirst Hrest. unfold Read_deframe. pose proof Hfirst as [H1 H2].
  destruct (Z.ltb_spec (len share0) (NamespaceSize * 2 + 1)); [lia|].
  destruct (Z.ltb_spec (len share0) (NamespaceSize * 2 + 5)); [lia|].
  cbv [orb]. rewrite Read_sequence_length by done. unbind.
  rewrite Read_strip_first by done.
  rewrite Read_strip_next by (done || lia). reflexivity.
Qed.

End Deframe.

(** C4: on shares that carry their headers, the deframing step returns the
    prefix of length [sequence_length] of the concatenated stripped shares:
    an error when the sequence length exceeds the concatenated length, the
    whole concatenation when the two are equal. *)
Theorem Read_deframe_payload (NamespaceSize : Z) (share0 : bytes) (rest : list bytes) :
  0 ≤ NamespaceSize →
  carries_first_header NamespaceSize share0 →
  Forall (carries_next_header NamespaceSize) rest →
  let shares := share0 :: rest in
  let data := payload NamespaceSize shares in
  let n := sequence_length NamespaceSize share0 in
  (len data < n →
     Read_deframe NamespaceSize shares = Err (SequenceLengthData n (len data))) ∧
  (n = len data → Read_deframe NamespaceSize shares = Ret data) ∧
  (n ≤ len data < 2 ^ 32 →
     Read_deframe NamespaceSize shares = Ret (take (Z.to_nat n) data)) ∧
  (∀ blob, Read_deframe NamespaceSize shares = Ret blob →
     blob = take (Z.to_nat n) data ∧ len blob = n).
Proof.
  intros HNS Hfirst Hrest shares data n.
  pose proof (Read_deframe_run NamespaceSize HNS share0 rest Hfirst Hrest) as Hrun.
  cbv zeta in Hrun. fold shares data n in Hrun. unfold slice_to in Hrun.
  assert (Hn : 0 ≤ n < 2 ^ 32) by apply sequence_length_bound.
  assert (Hw : 0 ≤ wrap32 (len data) ≤ len data).
  { unfold wrap32. pose proof (len_nonneg data).
    split; [apply Z.mod_pos_bound; lia|apply Z.mod_le; lia]. }
  assert (Hs : len data < 2 ^ 32 → wrap32 (len data) = len data).
  { intros Hlt. unfold wrap32. apply Z.mod_small. pose proof (len_nonneg data). lia. }
  clearbody n data shares. rewrite Hrun. split; [|split; [|split]].
  - intros Hlt. destruct (Z.ltb_spec (wrap32 (len data)) n); [done|exfalso; lia].
  - intros Heq. rewrite Hs by lia.
    destruct (Z.ltb_spec (len data) n); [exfalso; lia|].
    f_equal. apply take_ge. unfold len in Heq. lia.
  - intros Hle. rewrite Hs by lia.
    destruct (Z.ltb_spec (len data) n); [exfalso; lia|done].
  - intros blob Hblob.
    destruct (Z.ltb_spec (wrap32 (len data)) n); [done|].
    injection Hblob as <-. split; [done|].
    unfold len in *. rewrite length_take. lia.
Qed.

Lemma Read_deframe_payload_witness :
  Read_deframe 29 [first_share; second_share] = Ret [Byte.x61; Byte.x62].
Proof.
  assert (Hf : carries_first_header 29 first_share) by (split; vm_compute; discriminate).
  assert (Hr : Forall (carries_next_header 29) [second_share])
    by (repeat constructor; vm_compute; discriminate).
  apply (Read_deframe_payload 29 first_share [second_share] ltac:(lia) Hf Hr).
  vm_compute. split; [discriminate|reflexivity].
Defined.

(** C5 (as the code behaves): when a share after the first is shorter than
    the [29 + NamespaceSize + 1] bytes removed from it, the deframing step
    does not return an error: a slice expression panics. *)
Theorem Read_deframe_short_share (NamespaceSize : Z)
    (share0 : bytes) (pre : list bytes) (short : bytes) (post : list bytes) :
  0 ≤ NamespaceSize →
  carries_first_header NamespaceSize share0 →
  Forall (carries_next_header NamespaceSize) pre →
  len short < 29 + (NamespaceSize + 1) →
  Read_deframe NamespaceSize (share0 :: pre ++ short :: post)
  = Panic SliceBoundsOutOfRange.
Proof.
  intros HNS Hfirst Hpre Hshort. unfold Read_deframe. pose proof Hfirst as [H1 H2].
  destruct (Z.ltb_spec (len share0) (NamespaceSize * 2 + 1)); [lia|].
  destruct (Z.ltb_spec (len share0) (NamespaceSize * 2 + 5)); [lia|].
  cbv [orb]. rewrite Read_sequence_length by done. unbind.
  rewrite Read_strip_first by done.
  by rewrite Read_strip_short by (done || lia).
Qed.

Lemma Read_deframe_short_share_witness :
  Read_deframe 29 [first_share; second_share; []] = Panic SliceBoundsOutOfRange.
Proof.
  apply (Read_deframe_short_share 29 first_share [second_share] [] []).
  - lia.
  - split; vm_compute; discriminate.
  - repeat constructor; vm_compute; discriminate.
  - vm_compute. reflexivity.
Defined.

End CelestiaFacts.

(** ** The blob reader *)

Module BlobFacts.
Import Replay Spec Samples GoFacts.

Lemma copy_zero_blob (preimage : bytes) :
  len preimage = BlobLen → copy zero_blob preimage = preimage.
Proof.
  intros Hlen. unfold copy, zero_blob. rewrite length_replicate.
  assert (Hl : length preimage = Z.to_nat BlobLen) by (unfold len in Hlen; lia).
  rewrite Hl, Nat.min_id, <- Hl, take_ge by lia.
  rewrite drop_ge by (rewrite length_replicate; lia).
  apply app_nil_r.
Qed.

Section GetBlobs.
Variable ResolveTypedPreimage : PreimageType → Hash → res bytes.

Lemma GetBlobs_loop_ok (hs : list Hash) : ∀ (blobs acc : list bytes),
  Forall2 (resolves_to_blob ResolveTypedPreimage) hs blobs →
  GetBlobs_loop ResolveTypedPreimage hs acc = Ret (acc ++ blobs).
Proof.
  induction hs as [|h hs IH]; intros blobs acc Hall; inversion Hall; subst; simpl.
  - by rewrite app_nil_r.
  - destruct H1 as [Hres Hlen]. rewrite Hres. unbind.
    destruct (Z.eqb_spec (len y) BlobLen); [|done]. cbv [negb].
    rewrite copy_zero_blob by done.
    rewrite (IH l' (acc ++ [y])) by done. by rewrite <- app_assoc.
Qed.

Lemma GetBlobs_loop_inv (hs : list Hash) : ∀ (acc out : list bytes),
  GetBlobs_loop ResolveTypedPreimage hs acc = Ret out →
  ∃ blobs, out = acc ++ blobs ∧ Forall2 (resolves_to_blob ResolveTypedPreimage) hs blobs.
Proof.
  induction hs as [|h hs IH]; intros acc out Hrun; simpl in Hrun.
  - exists []. rewrite app_nil_r. split; [congruence|constructor].
  - destruct (ResolveTypedPreimage EthVersionedHashPreimageType h) as [p|e|q] eqn:Hres;
      unfold mbind, outcome_bind, Go.bind in Hrun; try discriminate.
    destruct (Z.eqb_spec (len p) BlobLen) as [Hlen|]; [|discriminate]. cbv [negb] in Hrun.
    rewrite copy_zero_blob in Hrun by done.
    destruct (IH _ _ Hrun) as (blobs & -> & Hall).
    exists (p :: blobs). rewrite <- app_assoc. split; [done|].
    constructor; [by split|done].
Qed.

Lemma GetBlobs_loop_bad_length (pre : list Hash) (h : Hash) (post : list Hash) :
  ∀ (blobs acc : list bytes) (p : bytes),
  Forall2 (resolves_to_blob ResolveTypedPreimage) pre blobs →
  ResolveTypedPreimage EthVersionedHashPreimageType h = Ret p →
  len p ≠ BlobLen →
  GetBlobs_loop ResolveTypedPreimage (pre ++ h :: post) acc
  = Err (BlobLength h (len p) BlobLen).
Proof.
  induction pre as [|h0 pre IH]; intros blobs acc p Hall Hres Hlen;
    inversion Hall; subst; simpl.
  - rewrite Hres. unbind. by destruct (Z.eqb_spec (len p) BlobLen).
  - destruct H1 as [Hres0 Hlen0]. rewrite Hres0. unbind.
    destruct (Z.eqb_spec (len y) BlobLen); [|done]. cbv [negb].
    by apply (IH l').
Qed.

End GetBlobs.

(** C6: [GetBlobs] returns the list of blobs exactly when every hash
    resolves, under the versioned-hash kind, to a preimage of 131072 bytes:
    the blobs are those preimages, one per hash and in the order of the
    hashes; at the first preimage of another length it returns the
    blob-length error and no list. *)
Theorem GetBlobs_blobs_or_length_error
    (ResolveTypedPreimage : PreimageType → Hash → res bytes)
    (batchBlockHash : Hash) (versionedHashes : list Hash) :
  BlobLen = 131072 ∧
  (∀ blobs,
     GetBlobs ResolveTypedPreimage batchBlockHash versionedHashes = Ret blobs ↔
     Forall2 (resolves_to_blob ResolveTypedPreimage) versionedHashes blobs) ∧
  (∀ blobs,
     Forall2 (resolves_to_blob ResolveTypedPreimage) versionedHashes blobs →
     length blobs = length versionedHashes ∧ Forall (λ b, len b = 131072) blobs) ∧
  (∀ pre h post blobs p,
     versionedHashes = pre ++ h :: post →
     Forall2 (resolves_to_blob ResolveTypedPreimage) pre blobs →
     ResolveTypedPreimage EthVersionedHashPreimageType h = Ret p →
     len p ≠ 131072 →
     GetBlobs ResolveTypedPreimage batchBlockHash versionedHashes
     = Err (BlobLength h (len p) 131072)).
Proof.
  split; [reflexivity|]. split; [|split].
  - intros blobs. unfold GetBlobs. split.
    + intros Hrun. apply GetBlobs_loop_inv in Hrun as (bs & -> & Hall). done.
    + intros Hall. by rewrite (GetBlobs_loop_ok _ _ blobs).
  - intros blobs Hall. split.
    + symmetry. by eapply Forall2_length.
    + clear -Hall. induction Hall as [|h b hs bs [_ Hb] _ IH]; constructor; done.
  - intros pre h post blobs p -> Hall Hres Hlen. unfold GetBlobs.
    by apply (GetBlobs_loop_bad_length _ _ _ _ blobs).
Qed.

Lemma length_blob_2a : len blob_2a = BlobLen.
Proof. unfold len, blob_2a. rewrite length_replicate. reflexivity. Qed.

Lemma length_short_preimage : len short_preimage = 131071.
Proof. unfold len, short_preimage. rewrite length_replicate. reflexivity. Qed.

Lemma GetBlobs_blobs_or_length_error_witness :
  GetBlobs blob_oracle 0 [1; 1] = Ret [blob_2a; blob_2a] ∧
  GetBlobs blob_oracle 0 [1; 2; 1] = Err (BlobLength 2 131071 131072).
Proof.
  pose proof length_blob_2a as Hl. pose proof length_short_preimage as Hs.
  split.
  - apply (GetBlobs_blobs_or_length_error blob_oracle 0 [1; 1]).
    repeat constructor; done.
  - rewrite <- Hs.
    apply (proj2 (proj2 (proj2 (GetBlobs_blobs_or_length_error blob_oracle 0 [1; 2; 1])))
             [1] 2 [1] [blob_2a] short_preimage).
    + reflexivity.
    + repeat constructor; done.
    + reflexivity.
    + rewrite Hs. lia.
Defined.

End BlobFacts.

(** ** The inbox backend, [readMessage] and [main] *)

Module DriverFacts.
Import Replay Spec Terms Samples Fixtures GoFacts.

Lemma M_bind_run {A B} (m : M A) (k : A → M B) (w : World) :
  (m ≫= k) w =
  match m w with
  | (Ret a, w') => k a w'
  | (Err e, w') => (Err e, w')
  | (Panic p, w') => (Panic p, w')
  end.
Proof. reflexivity. Qed.

Lemma must_lift_run {A} (msg : string) (r : res A) (w : World) :
  must msg (lift r) w =
  (match r with
   | Ret a => Ret a
   | Err _ => Panic (Explicit msg)
   | Panic p => Panic p
   end, w).
Proof. unfold must, lift. by destruct r. Qed.

(** [getBlockHeaderByHash]: one resolution under keccak, then the decoding. *)
Lemma getBlockHeaderByHash_run (H : Host) (hash : Hash) (w : World) :
  getBlockHeaderByHash H hash w =
  (match ResolvePreimage H Keccak256PreimageType hash with
   | Ret enc =>
       match rlp_DecodeBytes H enc with
       | Ret h => Ret h
       | Err _ => Panic (Explicit "Error parsing resolved block header")
       | Panic p => Panic p
       end
   | Err _ => Panic (Explicit "Error resolving preimage")
   | Panic p => Panic p
   end,
   record (EvResolveTypedPreimage Keccak256PreimageType hash) w).
Proof.
  unfold getBlockHeaderByHash, wavmio_ResolveTypedPreimage, must.
  rewrite M_bind_run.
  destruct (ResolvePreimage H Keccak256PreimageType hash) as [enc|?|?]; [|done..].
  unfold lift. by destruct (rlp_DecodeBytes H enc).
Qed.

(** [readMessage] when at most one of the two flags is set: one read of the
    offset in the batch, the providers, the multiplexer, one pop. *)
Lemma readMessage_run (H : Host) (lastBlockHeader : option (Header H))
    (p : params_ArbitrumChainParams) (w : World) :
  DataAvailabilityCommittee p && CelestiaDA p = false →
  readMessage H lastBlockHeader p w =
    let pos := positionWithinMessage (cursor w) in
    let mux :=
      {| delayedMessagesRead :=
           match lastBlockHeader with Some h => Header_Nonce H h | None => 0 end;
         daProviders := providers_for p;
         keysetValidationMode :=
           if 0 <? pos then KeysetDontValidate else KeysetPanicIfInvalid |} in
    (match (Pop H mux (cursor w)).1 with
     | Ret message => Ret message
     | Err _ => Panic (Explicit "Error reading from inbox multiplexer")
     | Panic q => Panic q
     end,
     {| cursor := (Pop H mux (cursor w)).2;
        lastBlockHash := lastBlockHash w;
        sendRoot := sendRoot w;
        trace := trace w ++ [EvGetPositionWithinMessage pos]
                   ++ map EvNewDAProvider (providers_for p)
                   ++ [EvNewInboxMultiplexer mux; EvPop] |}).
Proof.
  intros Hflags. unfold readMessage. rewrite Hflags.
  destruct p as [dac cel g]. simpl in Hflags.
  destruct dac, cel; try discriminate;
    cbv beta iota zeta delta
      [mbind M_bind mret M_ret GetPositionWithinMessage NewDAProvider
       NewInboxMultiplexer emit record wavmio_GetPositionWithinMessage must
       InboxMultiplexer_Pop providers_for DataAvailabilityCommittee CelestiaDA
       cursor lastBlockHash sendRoot trace];
    simpl;
    match goal with |- context [Pop H ?m ?c] => destruct (Pop H m c) as [[?|?|?] ?] end;
    cbn; rewrite <- ?app_assoc; reflexivity.
Qed.

Lemma readMessage_conflict (H : Host) (lastBlockHeader : option (Header H))
    (p : params_ArbitrumChainParams) (w : World) :
  DataAvailabilityCommittee p && CelestiaDA p = true →
  readMessage H lastBlockHeader p w
  = (Panic (Explicit "Error Multiple DA providers enabled"), w).
Proof. intros Hflags. unfold readMessage. by rewrite Hflags. Qed.


(** *** Computations that write no result *)

Lemma quiet_ret {A} (a : A) : quiet (mret a).
Proof.
  intros w r w' Hrun. injection Hrun as <- <-.
  repeat split. exists []. by rewrite app_nil_r.
Qed.

Lemma quiet_bind {A B} (m : M A) (k : A → M B) :
  quiet m → (∀ a, quiet (k a)) → quiet (m ≫= k).
Proof.
  intros Hm Hk w r w' Hrun. rewrite M_bind_run in Hrun.
  destruct (m w) as [[a|e|q] w1] eqn:Hmw;
    destruct (Hm _ _ _ Hmw) as (Hh & Hs & evs & Ht & Hq).
  - destruct (Hk a _ _ _ Hrun) as (Hh' & Hs' & evs' & Ht' & Hq').
    split; [congruence|]. split; [congruence|].
    exists (evs ++ evs'). rewrite Ht', Ht, app_assoc. split; [done|].
    by apply Forall_app.
  - injection Hrun as <- <-. eauto.
  - injection Hrun as <- <-. eauto.
Qed.

Lemma quiet_lift {A} (r : res A) : quiet (lift r).
Proof.
  intros w r' w' Hrun. injection Hrun as <- <-.
  repeat split. exists []. by rewrite app_nil_r.
Qed.

Lemma quiet_panic_with {A} (msg : string) : quiet (panic_with (A:=A) msg).
Proof.
  intros w r' w' Hrun. injection Hrun as <- <-.
  repeat split. exists []. by rewrite app_nil_r.
Qed.

Lemma quiet_must {A} (msg : string) (m : M A) : quiet m → quiet (must msg m).
Proof.
  intros Hm w r w' Hrun. unfold must in Hrun.
  destruct (m w) as [[a|e|q] w1] eqn:Hmw; injection Hrun as <- <-; eauto.
Qed.

Lemma quiet_record (e : event) (w : World) :
  is_output e = false →
  lastBlockHash (record e w) = lastBlockHash w ∧
  sendRoot (record e w) = sendRoot w ∧
  ∃ evs, trace (record e w) = trace w ++ evs ∧ Forall (λ e, is_output e = false) evs.
Proof. intros He. repeat split. exists [e]. split; [done|]. by constructor. Qed.

Lemma quiet_emit (e : event) : is_output e = false → quiet (emit e).
Proof. intros He w r w' Hrun. injection Hrun as <- <-. by apply quiet_record. Qed.

Lemma quiet_GetLastBlockHash : quiet wavmio_GetLastBlockHash.
Proof. intros w r w' Hrun. injection Hrun as <- <-. by apply quiet_record. Qed.

Lemma quiet_GetPositionWithinMessage : quiet wavmio_GetPositionWithinMessage.
Proof. intros w r w' Hrun. injection Hrun as <- <-. by apply quiet_record. Qed.

Lemma quiet_ResolveTypedPreimage (H : Host) (ty : PreimageType) (hash : Hash) :
  quiet (wavmio_ResolveTypedPreimage H ty hash).
Proof. intros w r w' Hrun. injection Hrun as <- <-. by apply quiet_record. Qed.

Lemma quiet_Pop (H : Host) (m : InboxMultiplexer) : quiet (InboxMultiplexer_Pop H m).
Proof.
  intros w r w' Hrun. unfold InboxMultiplexer_Pop in Hrun.
  destruct (Pop H m (cursor w)) as [r0 c]. injection Hrun as <- <-.
  repeat split. exists [EvPop]. split; [done|]. by constructor.
Qed.

Create HintDb quiet.

#[local] Hint Resolve quiet_ret quiet_lift quiet_panic_with quiet_must
  quiet_GetLastBlockHash quiet_GetPositionWithinMessage quiet_ResolveTypedPreimage
  quiet_Pop : quiet.

Ltac quiet_step :=
  match goal with
  | |- quiet (_ ≫= _) => apply quiet_bind; [|intros ?]
  | |- quiet (emit _) => by apply quiet_emit
  | |- quiet (if ?b then _ else _) => destruct b
  | |- quiet (match ?o with _ => _ end) => destruct o
  | |- quiet _ => by auto with quiet
  end.

Lemma quiet_readMessage (H : Host) (lastBlockHeader : option (Header H))
    (p : params_ArbitrumChainParams) :
  quiet (readMessage H lastBlockHeader p).
Proof.
  unfold readMessage, GetPositionWithinMessage, NewInboxMultiplexer, NewDAProvider.
  repeat quiet_step.
Qed.

Lemma quiet_main_produce (H : Host) : quiet (main_produce H).
Proof.
  unfold main_produce, getBlockHeaderByHash, wavmio_StubInit.
  repeat first [apply quiet_readMessage | quiet_step].
Qed.

Lemma main_finish_zero (H : Host) (newBlock : Block H) (w : World) :
  ArbOSFormatVersion (DeserializeHeaderExtraInformation H (Block_Header H newBlock)) = 0 →
  main_finish H newBlock w
  = (Panic (Explicit "Error deserializing header extra info"), w).
Proof. intros Hv. unfold main_finish. by rewrite Hv. Qed.

Lemma main_finish_nonzero (H : Host) (newBlock : Block H) (w : World) :
  let extraInfo := DeserializeHeaderExtraInformation H (Block_Header H newBlock) in
  ArbOSFormatVersion extraInfo ≠ 0 →
  main_finish H newBlock w
  = (Ret (),
     {| cursor := cursor w;
        lastBlockHash := Block_Hash H newBlock;
        sendRoot := SendRoot extraInfo;
        trace := trace w ++ [EvSetLastBlockHash (Block_Hash H newBlock);
                             EvSetSendRoot (SendRoot extraInfo);
                             EvStubFinal] |}).
Proof.
  intros extraInfo Hv. unfold main_finish. fold extraInfo.
  destruct (Z.eqb_spec (ArbOSFormatVersion extraInfo) 0); [done|].
  cbv beta iota zeta delta
    [mbind M_bind wavmio_SetLastBlockHash wavmio_SetSendRoot wavmio_StubFinal
     emit record cursor lastBlockHash sendRoot trace].
  by rewrite <- !app_assoc.
Qed.

(** C7: once a block is produced, a header whose format version is 0 makes
    the replay panic with nothing written: the committed hash, the send
    root and the writes in the trace are those of the start; with any
    other version the replay returns after writing the hash of the new
    block and its send root. *)
Theorem main_format_version_check (H : Host) (w w1 : World) (newBlock : Block H) :
  main_produce H w = (Ret newBlock, w1) →
  let extraInfo := DeserializeHeaderExtraInformation H (Block_Header H newBlock) in
  (ArbOSFormatVersion extraInfo = 0 →
     main H w = (Panic (Explicit "Error deserializing header extra info"), w1) ∧
     lastBlockHash w1 = lastBlockHash w ∧
     sendRoot w1 = sendRoot w ∧
     filter (λ e, is_output e = true) (trace w1)
     = filter (λ e, is_output e = true) (trace w)) ∧
  (ArbOSFormatVersion extraInfo ≠ 0 →
     main H w =
       (Ret (),
        {| cursor := cursor w1;
           lastBlockHash := Block_Hash H newBlock;
           sendRoot := SendRoot extraInfo;
           trace := trace w1 ++ [EvSetLastBlockHash (Block_Hash H newBlock);
                                 EvSetSendRoot (SendRoot extraInfo);
                                 EvStubFinal] |})).
Proof.
  intros Hprod extraInfo.
  assert (Hmain : main H w = main_finish H newBlock w1).
  { unfold main. by rewrite M_bind_run, Hprod. }
  split.
  - intros Hv. rewrite Hmain, main_finish_zero by done.
    destruct (quiet_main_produce H _ _ _ Hprod) as (Hh & Hs & evs & Ht & Hq).
    repeat split; [done..|].
    rewrite Ht, filter_app.
    assert (Hnil : filter (λ e, is_output e = true) evs = []).
    { clear -Hq. induction Hq as [|e evs He _ IH]; [done|].
      rewrite filter_cons_False by congruence. done. }
    by rewrite Hnil, app_nil_r.
  - intros Hv. rewrite Hmain. by apply main_finish_nonzero.
Qed.

Lemma main_format_version_check_witness :
  main (genesis_host 0 short_slot) (genesis_world 0)
  = (Panic (Explicit "Error deserializing header extra info"), genesis_produced) ∧
  main (genesis_host 1 short_slot) (genesis_world 0)
  = (Ret (),
     {| cursor := cursor genesis_produced;
        lastBlockHash := 99;
        sendRoot := 77;
        trace := trace genesis_produced
                   ++ [EvSetLastBlockHash 99; EvSetSendRoot 77; EvStubFinal] |}).
Proof.
  split.
  - apply (proj1 (main_format_version_check (genesis_host 0 short_slot)
                    (genesis_world 0) genesis_produced 0 eq_refl)).
    reflexivity.
  - apply (proj2 (main_format_version_check (genesis_host 1 short_slot)
                    (genesis_world 0) genesis_produced 1 eq_refl)).
    vm_compute. discriminate.
Defined.

(** C3: when at most one flag is set, [readMessage] reads the offset in the
    batch once, then builds the providers and one multiplexer, then pops;
    the mode given to the multiplexer is [KeysetDontValidate] when the
    offset is positive and [KeysetPanicIfInvalid] when it is 0. *)
Theorem readMessage_keyset_mode (H : Host) (lastBlockHeader : option (Header H))
    (p : params_ArbitrumChainParams) (w : World) :
  DataAvailabilityCommittee p && CelestiaDA p = false →
  let pos := positionWithinMessage (cursor w) in
  ∃ mux evs,
    (0 < pos → keysetValidationMode mux = KeysetDontValidate) ∧
    (pos = 0 → keysetValidationMode mux = KeysetPanicIfInvalid) ∧
    Forall (λ e, ∃ d, e = EvNewDAProvider d) evs ∧
    trace (readMessage H lastBlockHeader p w).2
    = trace w ++ [EvGetPositionWithinMessage pos] ++ evs
        ++ [EvNewInboxMultiplexer mux; EvPop].
Proof.
  intros Hflags pos. rewrite readMessage_run by done. cbv zeta. fold pos.
  eexists _, (map EvNewDAProvider (providers_for p)).
  split; [|split; [|split; [|reflexivity]]]; simpl.
  - intros Hpos. by destruct (Z.ltb_spec 0 pos); [|lia].
  - by intros ->.
  - apply Forall_map, Forall_forall. intros d _. by exists d.
Qed.

Lemma readMessage_keyset_mode_witness :
  ∃ mux evs,
    (0 < 3 → keysetValidationMode mux = KeysetDontValidate) ∧
    (3 = 0 → keysetValidationMode mux = KeysetPanicIfInvalid) ∧
    Forall (λ e, ∃ d, e = EvNewDAProvider d) evs ∧
    trace (readMessage (genesis_host 1 short_slot) None celestia_flag (genesis_world 3)).2
    = [] ++ [EvGetPositionWithinMessage 3] ++ evs ++ [EvNewInboxMultiplexer mux; EvPop].
Proof.
  exact (readMessage_keyset_mode (genesis_host 1 short_slot) None celestia_flag
           (genesis_world 3) eq_refl).
Defined.

(** [readMessage] as [main] calls it: on the tape of [before_pop]. *)
Lemma readMessage_before_pop (H : Host) (hdr : option (Header H))
    (p : params_ArbitrumChainParams) (w : World) :
  DataAvailabilityCommittee p && CelestiaDA p = false →
  readMessage H hdr p (before_pop H hdr w) =
    let '(r, c) := Pop H (multiplexer_for H hdr p w) (cursor w) in
    (match r with
     | Ret message => Ret message
     | Err _ => Panic (Explicit "Error reading from inbox multiplexer")
     | Panic q => Panic q
     end, after_pop H hdr p w c).
Proof.
  intros Hflags. rewrite readMessage_run by done. cbv zeta.
  change (cursor (before_pop H hdr w)) with (cursor w).
  fold (multiplexer_for H hdr p w).
  by destruct (Pop H (multiplexer_for H hdr p w) (cursor w)) as [r c].
Qed.

(** The start of [main]: the backend is set up, the committed hash read
    and the header behind it resolved. *)
Lemma main_header_run (H : Host) (w : World) (hdr : option (Header H)) :
  last_header H w hdr →
  (if lastBlockHash w =? 0 then mret None
   else getBlockHeaderByHash H (lastBlockHash w) ≫= λ h, mret (Some h))
    (record EvGetLastBlockHash (record EvStubInit w))
  = (Ret hdr, before_pop H hdr w).
Proof.
  destruct hdr as [h|]; simpl.
  - intros (Hnz & enc & Henc & Hdec).
    destruct (Z.eqb_spec (lastBlockHash w) 0); [done|].
    rewrite M_bind_run, getBlockHeaderByHash_run, Henc, Hdec.
    unfold before_pop, mret, M_ret, record. simpl. by rewrite <- !app_assoc.
  - intros ->. unfold before_pop, mret, M_ret, record. simpl.
    by rewrite <- !app_assoc.
Qed.

(** The steps of [main] up to the last header. *)
Ltac run_header Hlast :=
  unfold main_produce; rewrite M_bind_run; unfold wavmio_StubInit, emit;
  cbv beta iota; rewrite M_bind_run; unfold wavmio_GetLastBlockHash;
  cbv beta iota;
  lazymatch goal with
  | |- context [lastBlockHash (record EvStubInit ?w)] =>
      change (lastBlockHash (record EvStubInit w)) with (lastBlockHash w)
  end;
  rewrite M_bind_run, (main_header_run _ _ _ Hlast);
  cbv beta iota.

(** A step [x, err := f(); if err != nil { panic }] whose call returns. *)
Ltac run_step :=
  rewrite M_bind_run, must_lift_run;
  match goal with
  | Hr : ?r = Ret _ |- context [match ?r with _ => _ end] => rewrite Hr
  end;
  cbv beta iota.

(** The steps of [main] from the last header to the chain configuration
    stored in the ArbOS state. *)
Ltac run_arbos_state Hstate :=
  let Hroot := fresh "Hroot" in
  let Hdb := fresh "Hdb" in
  let st := fresh "st" in
  let Hst := fresh "Hst" in
  let Hid := fresh "Hid" in
  let Hg := fresh "Hg" in
  let Hjson := fresh "Hjson" in
  destruct Hstate as (Hroot & Hdb & st & Hst & Hid & Hg & Hjson);
  run_step;
  lazymatch goal with
  | |- context [Header_Root ?H ?h =? 0] =>
      destruct (Z.eqb_spec (Header_Root H h) 0); [done|]
  end;
  cbv [negb]; cbv iota;
  do 4 run_step.

(** On top of an initialised chain [main] loads the chain configuration
    and hands its chain parameters to [readMessage]. *)
Lemma main_produce_loads_config (H : Host) (w : World) (h : Header H)
    (db : StateDB H) (chainId genesisBlockNum : Z) (json : bytes)
    (chainConfig : params_ChainConfig) :
  last_header H w (Some h) →
  arbos_state H h db chainId genesisBlockNum json →
  loads_config H chainId genesisBlockNum json chainConfig →
  main_produce H w
  = (readMessage H (Some h) (ArbitrumChainParams chainConfig)
       ≫= λ message,
            must "ProduceBlock"
              (lift (ProduceBlock H (Message message) (DelayedMessagesRead message)
                       (Some h) db chainConfig)))
      (before_pop H (Some h) w).
Proof.
  intros Hlast Hstate Hcfg. run_header Hlast. run_arbos_state Hstate.
  rewrite M_bind_run. unfold loads_config in Hcfg.
  destruct (0 <? len json).
  - destruct Hcfg as (Hjs & Hid' & Hg').
    run_step.
    destruct (Z.eqb_spec (ChainID chainConfig) chainId); [|done].
    destruct (Z.eqb_spec (GenesisBlockNum (ArbitrumChainParams chainConfig)) genesisBlockNum);
      [|done].
    reflexivity.
  - by rewrite must_lift_run, Hcfg.
Qed.

(** A call of [must] on a call of the host, in a run that returns. *)
Ltac inv_must Hrun :=
  rewrite M_bind_run in Hrun;
  lazymatch type of Hrun with
  | context [must _ (lift ?r) _] =>
      let Hr := fresh "Hr" in
      rewrite must_lift_run in Hrun;
      destruct r eqn:Hr; cbv beta iota in Hrun; [|discriminate..]
  end.

(** A replay that produces a block: the header it starts from, the chain
    parameters it gave to [readMessage], the message popped, and where the
    parameters come from. *)
Lemma main_produce_inv (H : Host) (w w1 : World) (newBlock : Block H) :
  main_produce H w = (Ret newBlock, w1) →
  ∃ hdr p message c,
    last_header H w hdr ∧
    DataAvailabilityCommittee p && CelestiaDA p = false ∧
    Pop H (multiplexer_for H hdr p w) (cursor w) = (Ret message, c) ∧
    w1 = after_pop H hdr p w c ∧
    ((last_state_root H hdr = 0 ∧ p = zero_ArbitrumChainParams) ∨
     (∃ h db chainId genesisBlockNum json chainConfig,
        hdr = Some h ∧
        arbos_state H h db chainId genesisBlockNum json ∧
        loads_config H chainId genesisBlockNum json chainConfig ∧
        p = ArbitrumChainParams chainConfig ∧
        ProduceBlock H (Message message) (DelayedMessagesRead message)
                     (Some h) db chainConfig = Ret newBlock)).
Proof.
  unfold main_produce. intros Hrun.
  rewrite M_bind_run in Hrun. unfold wavmio_StubInit, emit in Hrun.
  cbv beta iota in Hrun.
  rewrite M_bind_run in Hrun. unfold wavmio_GetLastBlockHash in Hrun.
  cbv beta iota in Hrun.
  change (lastBlockHash (record EvStubInit w)) with (lastBlockHash w) in Hrun.
  rewrite M_bind_run in Hrun.
  assert (Hhdr : ∃ hdr, last_header H w hdr).
  { destruct (Z.eqb_spec (lastBlockHash w) 0) as [Hz|Hnz]; [by exists None|].
    rewrite M_bind_run, getBlockHeaderByHash_run in Hrun.
    destruct (ResolvePreimage H Keccak256PreimageType (lastBlockHash w))
      as [enc|?|?] eqn:Henc; [|discriminate..].
    destruct (rlp_DecodeBytes H enc) as [h|?|?] eqn:Hdec; [|discriminate..].
    exists (Some h). split; [done|by exists enc]. }
  destruct Hhdr as (hdr & Hlast). rewrite (main_header_run _ _ _ Hlast) in Hrun.
  cbv beta iota in Hrun. fold (last_state_root H hdr) in Hrun.
  inv_must Hrun. rename a into db, Hr into Hdb.
  destruct (Z.eqb_spec (last_state_root H hdr) 0) as [Hroot|Hroot];
    cbv [negb] in Hrun; cbv iota in Hrun.
  - rewrite M_bind_run, readMessage_before_pop in Hrun by done.
    destruct (Pop H (multiplexer_for H hdr zero_ArbitrumChainParams w) (cursor w))
      as [[message|?|?] c] eqn:Hpop; cbv beta iota in Hrun; [|discriminate..].
    exists hdr, zero_ArbitrumChainParams, message, c.
    split; [done|]. split; [done|]. split; [done|]. split; [|by left].
    remember (after_pop H hdr zero_ArbitrumChainParams w c) as wa eqn:Hwa. clear Hwa.
    inv_must Hrun. rewrite M_bind_run in Hrun.
    destruct (ChainConfig a) as [config|].
    + unfold mret at 1, M_ret at 1 in Hrun. cbv beta iota in Hrun.
      inv_must Hrun. by injection Hrun as _ <-.
    + rewrite must_lift_run in Hrun.
      destruct (GetChainConfig H (ChainId a) 0); cbv beta iota in Hrun;
        [|discriminate..].
      inv_must Hrun. by injection Hrun as _ <-.
  - destruct hdr as [h|]; [|done]. unfold last_state_root in Hroot, Hdb.
    inv_must Hrun. rename a into st, Hr into Hst.
    inv_must Hrun. rename a into chainId, Hr into Hid.
    inv_must Hrun. rename a into genesisBlockNum, Hr into Hg.
    inv_must Hrun. rename a into json, Hr into Hjson.
    rewrite M_bind_run in Hrun.
    assert (Hcfg : ∃ chainConfig,
      loads_config H chainId genesisBlockNum json chainConfig ∧
      (readMessage H (Some h) (ArbitrumChainParams chainConfig)
         ≫= λ message,
              must "ProduceBlock"
                (lift (ProduceBlock H (Message message) (DelayedMessagesRead message)
                         (Some h) db chainConfig)))
        (before_pop H (Some h) w)
      = (Ret newBlock, w1)).
    { unfold loads_config. destruct (0 <? len json).
      - inv_must Hrun. rename a into chainConfig.
        destruct (Z.eqb_spec (ChainID chainConfig) chainId);
          cbv [negb] in Hrun; cbv iota in Hrun; [|discriminate].
        destruct (Z.eqb_spec (GenesisBlockNum (ArbitrumChainParams chainConfig))
                             genesisBlockNum);
          cbv [negb] in Hrun; cbv iota in Hrun; [|discriminate].
        by exists chainConfig.
      - rewrite must_lift_run in Hrun.
        destruct (GetChainConfig H chainId genesisBlockNum) as [chainConfig|?|?];
          cbv beta iota in Hrun; [|discriminate..].
        by exists chainConfig. }
    clear Hrun. destruct Hcfg as (chainConfig & Hcfg & Hrun).
    rewrite M_bind_run in Hrun.
    destruct (DataAvailabilityCommittee (ArbitrumChainParams chainConfig)
              && CelestiaDA (ArbitrumChainParams chainConfig)) eqn:Hflags.
    { rewrite readMessage_conflict in Hrun by done. discriminate. }
    rewrite readMessage_before_pop in Hrun by done.
    destruct (Pop H (multiplexer_for H (Some h) (ArbitrumChainParams chainConfig) w)
                (cursor w)) as [[message|?|?] c] eqn:Hpop;
      cbv beta iota in Hrun; [|discriminate..].
    rewrite must_lift_run in Hrun.
    destruct (ProduceBlock H (Message message) (DelayedMessagesRead message)
                (Some h) db chainConfig) as [b|?|?] eqn:Hblock; [|discriminate..].
    injection Hrun as <- <-.
    exists (Some h), (ArbitrumChainParams chainConfig), message, c.
    split; [done|]. split; [done|]. split; [done|]. split; [done|]. right.
    exists h, db, chainId, genesisBlockNum, json, chainConfig.
    split; [done|]. split; [|done].
    split; [done|]. split; [done|]. by exists st.
Qed.

(** C2 (amended): [readMessage] panics, with the tape untouched and no
    provider built, when both flags are set in the chain parameters it is
    given; whenever it returns, at most one of the two is set and the
    providers are those of the flags followed by the blob reader. A replay
    that runs to its end has called [readMessage] once, with parameters [p]
    in which at most one flag is set: on top of an initialised chain [p]
    are the chain parameters of the chain configuration the block is
    produced under (the one stored in the ArbOS state, or the one known
    for the chain id), at genesis the zero value, whatever configuration
    the init message brings. On top of an initialised chain whose
    configuration sets both flags the replay panics before the inbox is
    read. *)
Theorem replay_da_flags (H : Host) :
  (∀ lastBlockHeader p w,
     DataAvailabilityCommittee p && CelestiaDA p = true →
     readMessage H lastBlockHeader p w
     = (Panic (Explicit "Error Multiple DA providers enabled"), w)) ∧
  (∀ lastBlockHeader p w message w',
     readMessage H lastBlockHeader p w = (Ret message, w') →
     DataAvailabilityCommittee p && CelestiaDA p = false ∧
     ∃ mux,
       daProviders mux = providers_for p ∧
       trace w' = trace w ++ [EvGetPositionWithinMessage (positionWithinMessage (cursor w))]
                    ++ map EvNewDAProvider (providers_for p)
                    ++ [EvNewInboxMultiplexer mux; EvPop]) ∧
  (∀ w w',
     main H w = (Ret (), w') →
     ∃ hdr p message c newBlock,
       last_header H w hdr ∧
       DataAvailabilityCommittee p && CelestiaDA p = false ∧
       readMessage H hdr p (before_pop H hdr w) = (Ret message, after_pop H hdr p w c) ∧
       trace w' = trace (after_pop H hdr p w c)
                    ++ [EvSetLastBlockHash (Block_Hash H newBlock);
                        EvSetSendRoot
                          (SendRoot (DeserializeHeaderExtraInformation H
                                       (Block_Header H newBlock)));
                        EvStubFinal] ∧
       ((last_state_root H hdr = 0 ∧ p = zero_ArbitrumChainParams) ∨
        (∃ h db chainId genesisBlockNum json chainConfig,
           hdr = Some h ∧
           arbos_state H h db chainId genesisBlockNum json ∧
           loads_config H chainId genesisBlockNum json chainConfig ∧
           p = ArbitrumChainParams chainConfig ∧
           ProduceBlock H (Message message) (DelayedMessagesRead message)
                        (Some h) db chainConfig = Ret newBlock))) ∧
  (∀ w h db chainId genesisBlockNum json chainConfig,
     last_header H w (Some h) →
     arbos_state H h db chainId genesisBlockNum json →
     loads_config H chainId genesisBlockNum json chainConfig →
     DataAvailabilityCommittee (ArbitrumChainParams chainConfig)
       && CelestiaDA (ArbitrumChainParams chainConfig) = true →
     main H w
     = (Panic (Explicit "Error Multiple DA providers enabled"),
        before_pop H (Some h) w)).
Proof.
  assert (Hret : ∀ lastBlockHeader p w message w',
            readMessage H lastBlockHeader p w = (Ret message, w') →
            DataAvailabilityCommittee p && CelestiaDA p = false).
  { intros hdr p w message w' Hrun.
    destruct (DataAvailabilityCommittee p && CelestiaDA p) eqn:Hflags; [|done].
    rewrite readMessage_conflict in Hrun by done. discriminate. }
  split; [|split; [|split]].
  - intros hdr p w. apply readMessage_conflict.
  - intros hdr p w message w' Hrun. pose proof (Hret _ _ _ _ _ Hrun) as Hflags.
    split; [done|]. rewrite readMessage_run in Hrun by done. cbv zeta in Hrun.
    injection Hrun as _ <-. eexists. split; [|reflexivity]. reflexivity.
  - intros w w' Hmain. unfold main in Hmain. rewrite M_bind_run in Hmain.
    destruct (main_produce H w) as [[b|?|?] w1] eqn:Hprod; try discriminate.
    destruct (main_produce_inv H w w1 b Hprod)
      as (hdr & p & message & c & Hlast & Hflags & Hpop & -> & Hp).
    exists hdr, p, message, c, b.
    split; [done|]. split; [done|]. split.
    { rewrite readMessage_before_pop by done. by rewrite Hpop. }
    split; [|done].
    destruct (Z.eq_dec (ArbOSFormatVersion
                          (DeserializeHeaderExtraInformation H (Block_Header H b))) 0)
      as [Hv|Hv].
    + rewrite main_finish_zero in Hmain by done. discriminate.
    + rewrite main_finish_nonzero in Hmain by done. by injection Hmain as <-.
  - intros w h db chainId genesisBlockNum json chainConfig Hlast Hstate Hcfg Hflags.
    unfold main. rewrite M_bind_run.
    rewrite (main_produce_loads_config H w h db chainId genesisBlockNum json chainConfig)
      by done.
    by rewrite M_bind_run, readMessage_conflict.
Qed.

Lemma last_header_with (p : params_ArbitrumChainParams) (configChainId : Z) :
  last_header (replay_host_with p configChainId) replay_world (Some (5, 3)).
Proof. split; [done|]. exists [Byte.x01]. by split. Qed.

Lemma arbos_state_with (p : params_ArbitrumChainParams) (configChainId : Z) :
  arbos_state (replay_host_with p configChainId) (5, 3) ()
    412346 0 [Byte.x7b; Byte.x7d].
Proof. split; [done|]. split; [done|]. exists (). by repeat split. Qed.

Lemma replay_da_flags_witness :
  readMessage (genesis_host 1 short_slot) None both_flags (genesis_world 0)
  = (Panic (Explicit "Error Multiple DA providers enabled"), genesis_world 0) ∧
  (∃ hdr p message c newBlock,
     last_header (replay_host 412346) replay_world hdr ∧
     DataAvailabilityCommittee p && CelestiaDA p = false ∧
     readMessage (replay_host 412346) hdr p (before_pop (replay_host 412346) hdr replay_world)
     = (Ret message, after_pop (replay_host 412346) hdr p replay_world c) ∧
     trace replay_done
     = trace (after_pop (replay_host 412346) hdr p replay_world c)
         ++ [EvSetLastBlockHash (Block_Hash (replay_host 412346) newBlock);
             EvSetSendRoot
               (SendRoot (DeserializeHeaderExtraInformation (replay_host 412346)
                            (Block_Header (replay_host 412346) newBlock)));
             EvStubFinal] ∧
     ((last_state_root (replay_host 412346) hdr = 0 ∧ p = zero_ArbitrumChainParams) ∨
      (∃ h db chainId genesisBlockNum json chainConfig,
         hdr = Some h ∧
         arbos_state (replay_host 412346) h db chainId genesisBlockNum json ∧
         loads_config (replay_host 412346) chainId genesisBlockNum json chainConfig ∧
         p = ArbitrumChainParams chainConfig ∧
         ProduceBlock (replay_host 412346) (Message message) (DelayedMessagesRead message)
                      (Some h) db chainConfig = Ret newBlock))) ∧
  main (replay_host_with both_flags 412346) replay_world
  = (Panic (Explicit "Error Multiple DA providers enabled"),
     before_pop (replay_host_with both_flags 412346) (Some (5, 3)) replay_world).
Proof.
  split; [|split].
  - apply (proj1 (replay_da_flags (genesis_host 1 short_slot)) None both_flags
             (genesis_world 0)).
    reflexivity.
  - apply (proj1 (proj2 (proj2 (replay_da_flags (replay_host 412346))))
             replay_world replay_done).
    reflexivity.
  - apply (proj2 (proj2 (proj2 (replay_da_flags (replay_host_with both_flags 412346))))
             replay_world (5, 3) () 412346 0 [Byte.x7b; Byte.x7d]
             {| ChainID := 412346; ArbitrumChainParams := both_flags |}
             (last_header_with both_flags 412346) (arbos_state_with both_flags 412346)).
    + by vm_compute.
    + reflexivity.
Defined.

(** Replays that run to their end with other than exactly one flag: one on
    top of an initialised chain whose chain configuration sets neither
    flag; a genesis replay whose init message brings a chain configuration
    with both flags set, [readMessage] being given the zero chain
    parameters; and a genesis replay with a configuration without flags. *)
Lemma exactly_one_da_flag_fails :
  (loads_config (replay_host_with zero_ArbitrumChainParams 412346) 412346 0
     [Byte.x7b; Byte.x7d]
     {| ChainID := 412346; ArbitrumChainParams := zero_ArbitrumChainParams |} ∧
   (main (replay_host_with zero_ArbitrumChainParams 412346) replay_world).1 = Ret ()) ∧
  (ParseInitMessage conflicting_genesis_host ()
   = Ret {| ChainId := 412346;
            ChainConfig :=
              Some {| ChainID := 412346; ArbitrumChainParams := both_flags |} |} ∧
   (main conflicting_genesis_host (genesis_world 0)).1 = Ret ()) ∧
  (main (genesis_host 1 short_slot) (genesis_world 0)).1 = Ret () ∧
  ¬ (∀ (H : Host) (lastBlockHeader : option (Header H))
       (p : params_ArbitrumChainParams) (w w' : World) message,
       readMessage H lastBlockHeader p w = (Ret message, w') →
       xorb (DataAvailabilityCommittee p) (CelestiaDA p) = true).
Proof.
  split; [by split|]. split; [by split|]. split; [reflexivity|]. intros Hall.
  specialize (Hall (genesis_host 1 short_slot) None zero_ArbitrumChainParams
                (genesis_world 0) _ _ eq_refl).
  discriminate.
Qed.

(** C8 (amended): [PeekSequencerInbox] panics exactly when the capacity of
    the slice read from the inbox is below 8; otherwise, and so for every
    payload of at least 8 bytes, it returns the slice and the zero hash. *)
Theorem PeekSequencerInbox_capacity (H : Host) (w : World) :
  let pos := inboxPosition (cursor w) in
  let res := ReadInboxMessage H pos in
  let w' := record (EvReadInboxMessage pos) (record EvGetInboxPosition w) in
  (cap res < 8 → PeekSequencerInbox H w = (Panic SliceBoundsOutOfRange, w')) ∧
  (8 ≤ cap res → PeekSequencerInbox H w = (Ret (res, 0), w')) ∧
  (wf_bslice res → 8 ≤ len (elems res) → PeekSequencerInbox H w = (Ret (res, 0), w')).
Proof.
  intros pos res w'.
  assert (Hrun : PeekSequencerInbox H w =
                 (if cap res <? 8 then Panic SliceBoundsOutOfRange else Ret (res, 0), w')).
  { cbv beta iota zeta delta
      [PeekSequencerInbox mbind M_bind mret M_ret wavmio_GetInboxPosition emit lift
       bslice_to].
    fold pos res w'. change (8 <? 0) with false. cbv [orb].
    by destruct (cap res <? 8). }
  rewrite Hrun. split; [|split].
  - intros Hc. by destruct (Z.ltb_spec (cap res) 8); [|lia].
  - intros Hc. by destruct (Z.ltb_spec (cap res) 8); [lia|].
  - intros Hwf Hl.
    assert (len (elems res) ≤ cap res).
    { unfold elems, cap, len, wf_bslice in *. rewrite length_take. lia. }
    by destruct (Z.ltb_spec (cap res) 8); [lia|].
Qed.

Lemma PeekSequencerInbox_capacity_witness :
  PeekSequencerInbox (genesis_host 1 short_slot) (genesis_world 0)
  = (Ret (short_slot, 0),
     record (EvReadInboxMessage 0) (record EvGetInboxPosition (genesis_world 0))).
Proof.
  apply (proj1 (proj2 (PeekSequencerInbox_capacity (genesis_host 1 short_slot)
                         (genesis_world 0)))).
  vm_compute. discriminate.
Defined.

(** A payload of three bytes in an array of eight: no panic. *)
Lemma PeekSequencerInbox_short_payload_returns :
  wf_bslice short_slot ∧
  len (elems short_slot) = 3 ∧
  (PeekSequencerInbox (genesis_host 1 short_slot) (genesis_world 0)).1
  = Ret (short_slot, 0).
Proof. split; [vm_compute; lia|]. split; reflexivity. Qed.

End DriverFacts.

(** ** The sync monitor *)

Module SyncMonitorFacts.
Import SyncMonitor Spec Samples Fixtures GoFacts.


(** C9: [Synced] answers true exactly when [SyncProgressMap] returns the
    empty map; before [Initialize] the map has the single entry
    err = uninitialized and [Synced] answers false. *)
Theorem Synced_iff_empty_progress (s : SyncMonitor) :
  (Synced s = Ret true ↔ SyncProgressMap s = Ret ∅) ∧
  (initialized s = false →
     SyncProgressMap s = Ret {["err" := VString "uninitialized"]} ∧
     Synced s = Ret false).
Proof.
  split.
  - unfold Synced. destruct (SyncProgressMap s) as [m|e|p]; unbind.
    + split; intros Hs.
      * injection Hs as Hs. apply bool_decide_eq_true, map_size_empty_iff in Hs.
        by rewrite Hs.
      * injection Hs as ->. by rewrite map_size_empty.
    + split; discriminate.
    + split; discriminate.
  - intros Hinit.
    assert (Hmap : SyncProgressMap s = Ret {["err" := VString "uninitialized"]}).
    { unfold SyncProgressMap. rewrite Hinit. simpl. by rewrite insert_empty. }
    split; [done|]. unfold Synced. rewrite Hmap. unbind.
    by rewrite map_size_singleton.
Qed.

Lemma Synced_iff_empty_progress_witness :
  SyncProgressMap (NewSyncMonitor None) = Ret {["err" := VString "uninitialized"]} ∧
  Synced (NewSyncMonitor None) = Ret false.
Proof. apply (Synced_iff_empty_progress (NewSyncMonitor None)). reflexivity. Defined.

Lemma getLatestValidatedCount_clamp (s : SyncMonitor) (msg m : Z) :
  clamped true s msg = Some m →
  ∃ v, getLatestValidatedCount s = Ret v ∧ (if v <? msg then v else msg) = m.
Proof.
  unfold clamped, getLatestValidatedCount. simpl.
  destruct (txStreamer s) as [ts|]; [|done]. simpl.
  destruct (validator ts) as [v|]; [|done]. simpl.
  intros [= <-]. exists (GetValidated v). split; [done|].
  destruct (Z.ltb_spec (GetValidated v) msg); lia.
Qed.

Lemma SafeBlockNumber_run (s : SyncMonitor) (ir : InboxReader)
    (cfg : SyncMonitorConfig) (e : FullExecutionClient) (msg m : Z) :
  inboxReader s = Some ir → initialized s = true →
  config s = Some cfg → exec s = Some e →
  GetSafeMsgCount ir = Ret msg →
  clamped (SafeBlockWaitForBlockValidator cfg) s msg = Some m →
  SafeBlockNumber s = Ret (MessageIndexToBlockNumber e (wrap64 (m - 1))).
Proof.
  intros Hir Hinit Hcfg He Hmsg Hclamp. unfold SafeBlockNumber.
  rewrite Hir, Hinit, Hmsg, Hcfg, He. simpl. unbind.
  destruct (SafeBlockWaitForBlockValidator cfg).
  - destruct (getLatestValidatedCount_clamp _ _ _ Hclamp) as (v & -> & <-). done.
  - injection Hclamp as <-. done.
Qed.

Lemma FinalizedBlockNumber_run (s : SyncMonitor) (ir : InboxReader)
    (cfg : SyncMonitorConfig) (e : FullExecutionClient) (msg m : Z) :
  inboxReader s = Some ir → initialized s = true →
  config s = Some cfg → exec s = Some e →
  GetFinalizedMsgCount ir = Ret msg →
  clamped (FinalizedBlockWaitForBlockValidator cfg) s msg = Some m →
  FinalizedBlockNumber s = Ret (MessageIndexToBlockNumber e (wrap64 (m - 1))).
Proof.
  intros Hir Hinit Hcfg He Hmsg Hclamp. unfold FinalizedBlockNumber.
  rewrite Hir, Hinit, Hmsg, Hcfg, He. simpl. unbind.
  destruct (FinalizedBlockWaitForBlockValidator cfg).
  - destruct (getLatestValidatedCount_clamp _ _ _ Hclamp) as (v & -> & <-). done.
  - injection Hclamp as <-. done.
Qed.

(** C10: on a monitor that is set up, [SafeBlockNumber] and
    [FinalizedBlockNumber] return, without an error, the block number
    [MessageIndexToBlockNumber] gives for the index [msg - 1] reduced
    modulo 2^64, where [msg] is the safe (finalized) message count of the
    inbox reader, lowered to the validated count where the configuration
    asks to wait for the validator. For a count between 1 and 2^64 - 1
    that index is [msg - 1]; for the count 0 it is 2^64 - 1, and the call
    still returns no error. *)
Theorem block_number_of_message_count (s : SyncMonitor) (ir : InboxReader)
    (cfg : SyncMonitorConfig) (e : FullExecutionClient) :
  inboxReader s = Some ir → initialized s = true →
  config s = Some cfg → exec s = Some e →
  (∀ msg m, GetSafeMsgCount ir = Ret msg →
     clamped (SafeBlockWaitForBlockValidator cfg) s msg = Some m →
     SafeBlockNumber s = Ret (MessageIndexToBlockNumber e (wrap64 (m - 1))) ∧
     (0 < m < 2 ^ 64 →
        SafeBlockNumber s = Ret (MessageIndexToBlockNumber e (m - 1))) ∧
     (m = 0 →
        SafeBlockNumber s = Ret (MessageIndexToBlockNumber e (2 ^ 64 - 1)))) ∧
  (∀ msg m, GetFinalizedMsgCount ir = Ret msg →
     clamped (FinalizedBlockWaitForBlockValidator cfg) s msg = Some m →
     FinalizedBlockNumber s = Ret (MessageIndexToBlockNumber e (wrap64 (m - 1))) ∧
     (0 < m < 2 ^ 64 →
        FinalizedBlockNumber s = Ret (MessageIndexToBlockNumber e (m - 1))) ∧
     (m = 0 →
        FinalizedBlockNumber s = Ret (MessageIndexToBlockNumber e (2 ^ 64 - 1)))).
Proof.
  intros Hir Hinit Hcfg He.
  assert (Hin : ∀ m, 0 < m < 2 ^ 64 → wrap64 (m - 1) = m - 1).
  { intros m Hm. unfold wrap64. apply Z.mod_small. lia. }
  split; intros msg m Hmsg Hclamp.
  - pose proof (SafeBlockNumber_run s ir cfg e msg m Hir Hinit Hcfg He Hmsg Hclamp)
      as Hrun.
    split; [done|]. split.
    + intros Hm. by rewrite Hrun, Hin.
    + intros ->. by rewrite Hrun, wrap64_minus_one.
  - pose proof (FinalizedBlockNumber_run s ir cfg e msg m Hir Hinit Hcfg He Hmsg Hclamp)
      as Hrun.
    split; [done|]. split.
    + intros Hm. by rewrite Hrun, Hin.
    + intros ->. by rewrite Hrun, wrap64_minus_one.
Qed.

Lemma block_number_of_message_count_witness :
  (SafeBlockNumber idle_monitor = Ret 18446744073709551615 ∧
   FinalizedBlockNumber idle_monitor = Ret 18446744073709551615) ∧
  (SafeBlockNumber (busy_monitor 0) = Ret 25 ∧
   FinalizedBlockNumber (busy_monitor 0) = Ret 23).
Proof.
  split.
  - pose proof (block_number_of_message_count idle_monitor idle_reader
                  DefaultSyncMonitorConfig identity_exec
                  eq_refl eq_refl eq_refl eq_refl) as [Hsafe Hfin].
    split.
    + apply (proj2 (proj2 (Hsafe 0 0 eq_refl eq_refl))). reflexivity.
    + apply (proj2 (proj2 (Hfin 0 0 eq_refl eq_refl))). reflexivity.
  - pose proof (block_number_of_message_count (busy_monitor 0) busy_reader
                  waiting_config busy_exec
                  eq_refl eq_refl eq_refl eq_refl) as [Hsafe Hfin].
    split.
    + apply (proj1 (proj2 (Hsafe 5 4 eq_refl eq_refl))). lia.
    + apply (proj1 (proj2 (Hfin 2 2 eq_refl eq_refl))). lia.
Defined.

End SyncMonitorFacts.

(** ** The Celestia resolver, further *)

Module CelestiaReadFacts.
Import Replay Spec Terms Samples Fixtures GoFacts CelestiaFacts.

Lemma wrap64_sub_1 (a : Z) : wrap64 (wrap64 a - 1) = wrap64 (a - 1).
Proof. unfold wrap64. by rewrite Zminus_mod_idemp_l. Qed.

(** The range of a pointer that fits in the first row. *)
Lemma Read_range_single_row (squareSize odsSize : Z) (bp : BlobPointer) :
  0 ≤ odsSize < squareSize →
  squareSize < 2 ^ 64 →
  0 ≤ Start bp →
  Start bp + SharesLength bp ≤ 2 ^ 64 →
  1 ≤ SharesLength bp ≤ odsSize - Start bp mod squareSize →
  Read_range squareSize odsSize bp =
    Ret {| startRow := Start bp / squareSize;
           startIndex := Start bp mod squareSize;
           endRow := Start bp / squareSize;
           endIndex := Start bp mod squareSize + SharesLength bp - 1 |}.
Proof.
  intros Hods Hsq HS Hsum HL.
  assert (Hr : 0 ≤ Start bp mod squareSize < squareSize)
    by (apply Z.mod_pos_bound; lia).
  unfold Read_range.
  rewrite !udiv_nonzero, !umod_nonzero by lia. unbind.
  set (r := Start bp mod squareSize) in *.
  destruct (Z.ltb_spec odsSize r); [lia|].
  rewrite (wrap64_small (odsSize - r)) by lia.
  destruct (Z.eqb_spec (SharesLength bp) 0); [lia|].
  destruct (Z.leb_spec (SharesLength bp) (odsSize - r)); [|lia].
  rewrite wrap64_sub_1, wrap64_small by lia.
  rewrite umod_nonzero by lia.
  assert (Hm : (Start bp + SharesLength bp - 1) mod squareSize = r + SharesLength bp - 1).
  { rewrite (Z.div_mod (Start bp) squareSize) at 1 by lia. fold r.
    replace (squareSize * (Start bp / squareSize) + r + SharesLength bp - 1)
      with (r + SharesLength bp - 1 + (Start bp / squareSize) * squareSize) by lia.
    rewrite Z.mod_add by lia. apply Z.mod_small. lia. }
  rewrite Hm.
  rewrite wrap64_small by lia.
  destruct (Z.ltb_spec odsSize (r + SharesLength bp - 1 + 1)); [lia|]. done.
Qed.

Section ReadFacts.

Variable ResolveTypedPreimage : PreimageType → Hash → res bytes.
Variable NamespaceSize : Z.
Variable MerkleTreeContent : (Hash → res bytes) → Hash → res (list bytes).
Variable NmtContent : (Hash → res bytes) → bytes → res (list bytes).

Local Abbreviation Read := (Read ResolveTypedPreimage NamespaceSize MerkleTreeContent NmtContent).
Local Abbreviation opens := (MerkleTreeContent (ResolveTypedPreimage Sha2_256PreimageType)).

(** X1: a pointer without shares is refused before any row is opened:
    whatever the rows are, [Read] returns the start-index error when the
    start index lies beyond the ODS half, and the zero-length error
    otherwise. *)
Theorem Read_no_shares (bp : BlobPointer) (leaves : list bytes) :
  opens (DataRoot bp) = Ret leaves →
  2 ≤ len leaves →
  SharesLength bp = 0 →
  let squareSize := len leaves / 2 in
  let odsSize := squareSize / 2 in
  Read bp =
    if odsSize <? Start bp mod squareSize
    then Err (FirstRowStartIndex (Start bp mod squareSize) odsSize)
    else Err SharesLengthZero.
Proof.
  intros Hleaves Hlen HL squareSize odsSize.
  assert (Hsq : 0 < squareSize) by (apply Z.div_str_pos; lia).
  unfold Replay.Read. rewrite Hleaves. unbind. fold squareSize odsSize.
  unfold Read_range. rewrite !udiv_nonzero, !umod_nonzero by lia. unbind.
  destruct (odsSize <? Start bp mod squareSize); [done|].
  by rewrite HL.
Qed.

(** X2: a data root that opens to fewer than four leaves gives no blob:
    with fewer than two leaves the square size is 0 and the division of the
    start by it panics; with two or three the ODS size is 0 and, for a
    pointer with shares, the division of the remaining shares by it
    panics. *)
Theorem Read_small_square (bp : BlobPointer) (leaves : list bytes) :
  opens (DataRoot bp) = Ret leaves →
  (len leaves < 2 → Read bp = Panic DivideByZero) ∧
  (2 ≤ len leaves < 4 → 0 < SharesLength bp → Read bp = Panic DivideByZero).
Proof.
  intros Hleaves. split.
  - intros Hlen. unfold Replay.Read. rewrite Hleaves. unbind.
    assert (Hsq : len leaves / 2 = 0) by (apply Z.div_small; pose proof (len_nonneg leaves); lia).
    rewrite Hsq. reflexivity.
  - intros Hlen HL. unfold Replay.Read. rewrite Hleaves. unbind.
    assert (Hsq : len leaves / 2 = 1).
    { assert (len leaves = 2 ∨ len leaves = 3) as [->| ->] by lia; reflexivity. }
    rewrite Hsq. change (1 / 2) with 0.
    unfold Read_range. rewrite !udiv_nonzero, !umod_nonzero by lia. unbind.
    rewrite Z.mod_1_r. change (0 <? 0) with false. cbv iota.
    change (wrap64 (0 - 0)) with 0.
    destruct (Z.eqb_spec (SharesLength bp) 0); [lia|].
    destruct (Z.leb_spec (SharesLength bp) 0); [lia|].
    destruct (Z.ltb_spec (SharesLength bp) 0); [lia|].
    reflexivity.
Qed.

Lemma len_take_le {A} (l : list A) (n : Z) : 0 ≤ n ≤ len l → len (take (Z.to_nat n) l) = n.
Proof. unfold len. intros Hn. rewrite length_take. lia. Qed.

(** One turn of the loop for a range inside one row. *)
Lemma Read_rows_single (odsSize : Z) (r : ShareRange) (root : bytes)
    (roots : list bytes) (row : list bytes) :
  startRow r = endRow r →
  0 ≤ startIndex r ≤ endIndex r + 1 →
  endIndex r + 1 ≤ odsSize →
  odsSize < 2 ^ 64 →
  opens_to_row ResolveTypedPreimage NmtContent odsSize root row →
  Read_rows ResolveTypedPreimage NmtContent odsSize r (root :: roots) (startRow r) [] []
  = Ret ([row],
         take (Z.to_nat (endIndex r + 1 - startIndex r)) (drop (Z.to_nat (startIndex r)) row)).
Proof.
  intros Hrow Hsi Hei Hods [Hopen Hlen]. simpl.
  destruct (Z.ltb_spec (endRow r) (startRow r)); [lia|].
  rewrite Hopen. unbind.
  destruct (Z.ltb_spec (len row) odsSize); [lia|].
  destruct (Z.eqb_spec (startRow r) (endRow r)); [|lia].
  rewrite wrap64_small by lia.
  destruct (Z.ltb_spec (endIndex r + 1) (startIndex r)); [lia|].
  do 2 f_equal. unfold slice, slice_to.
  rewrite take_take, Nat.min_l by lia.
  rewrite take_drop_commute. f_equal. f_equal. lia.
Qed.

(** X3: a pointer whose shares fit in its first row, inside the square:
    [Read] opens that row only, takes exactly [SharesLength] shares from
    the start index on, and deframes them. *)
Theorem Read_single_row (bp : BlobPointer) (leaves : list bytes)
    (root : bytes) (row : list bytes) :
  opens (DataRoot bp) = Ret leaves →
  len leaves < 2 ^ 64 →
  let squareSize := len leaves / 2 in
  let odsSize := squareSize / 2 in
  0 ≤ Start bp →
  Start bp + SharesLength bp ≤ 2 ^ 64 →
  1 ≤ SharesLength bp ≤ odsSize - Start bp mod squareSize →
  Start bp / squareSize < squareSize →
  leaves !! Z.to_nat (Start bp / squareSize) = Some root →
  opens_to_row ResolveTypedPreimage NmtContent odsSize root row →
  let shares :=
    take (Z.to_nat (SharesLength bp)) (drop (Z.to_nat (Start bp mod squareSize)) row) in
  len shares = SharesLength bp ∧
  Read bp =
    (data ← Read_deframe NamespaceSize shares;
     Ret (data,
          {| RowRoots := take (Z.to_nat squareSize) leaves;
             ColumnRoots := drop (Z.to_nat squareSize) leaves;
             Rows := [row];
             SquareSize := squareSize;
             StartRow := Start bp / squareSize;
             EndRow := Start bp / squareSize |})).
Proof.
  intros Hleaves Hlen squareSize odsSize HS Hsum HL Hin Hroot Hrow shares.
  pose proof (len_nonneg leaves) as Hl0.
  assert (Hsq : 0 ≤ squareSize < 2 ^ 64).
  { split; [apply Z.div_pos; lia|]. apply Z.div_lt_upper_bound; lia. }
  assert (Hods : 0 ≤ odsSize ∧ 2 * odsSize ≤ squareSize).
  { split; [apply Z.div_pos; lia|]. apply Z.mul_div_le. lia. }
  assert (Hpos : 0 < squareSize).
  { destruct (Z.eq_dec squareSize 0) as [Hz|]; [exfalso|lia].
    assert (Hz' : odsSize = 0) by (unfold odsSize; rewrite Hz; reflexivity).
    rewrite Hz, Z.mod_0_r in HL. lia. }
  assert (Hm : 0 ≤ Start bp mod squareSize < squareSize)
    by (apply Z.mod_pos_bound; lia).
  assert (Hq : 0 ≤ Start bp / squareSize) by (apply Z.div_pos; lia).
  split.
  - destruct Hrow as [_ Hr]. unfold shares, len in *.
    rewrite length_take, length_drop. lia.
  - unfold Replay.Read. rewrite Hleaves. unbind. fold squareSize odsSize.
    rewrite Read_range_single_row by lia. unfold slice_to. cbn [startRow].
    assert (Hdrop : ∃ rest, drop (Z.to_nat (Start bp / squareSize))
                              (take (Z.to_nat squareSize) leaves) = root :: rest).
    { eexists. apply drop_S. rewrite lookup_take_lt by lia. done. }
    destruct Hdrop as [rest ->].
    pose proof (Read_rows_single odsSize
                  {| startRow := Start bp / squareSize;
                     startIndex := Start bp mod squareSize;
                     endRow := Start bp / squareSize;
                     endIndex := Start bp mod squareSize + SharesLength bp - 1 |}
                  root rest row) as Hrows.
    cbn [startRow startIndex endRow endIndex] in Hrows.
    rewrite Hrows by (done || lia).
    replace (Start bp mod squareSize + SharesLength bp - 1 + 1 - Start bp mod squareSize)
      with (SharesLength bp) by lia.
    reflexivity.
Qed.

(** X4: the start row is not checked against the square: a pointer that
    fits in one row but starts in a row past the last row root makes
    [Read] panic on the index into the row roots. *)
Theorem Read_start_row_outside_square (bp : BlobPointer) (leaves : list bytes) :
  opens (DataRoot bp) = Ret leaves →
  len leaves < 2 ^ 64 →
  let squareSize := len leaves / 2 in
  let odsSize := squareSize / 2 in
  0 ≤ Start bp →
  Start bp + SharesLength bp ≤ 2 ^ 64 →
  1 ≤ SharesLength bp ≤ odsSize - Start bp mod squareSize →
  squareSize ≤ Start bp / squareSize →
  Read bp = Panic IndexOutOfRange.
Proof.
  intros Hleaves Hlen squareSize odsSize HS Hsum HL Hout.
  pose proof (len_nonneg leaves) as Hl0.
  assert (Hsq : 0 ≤ squareSize < 2 ^ 64).
  { split; [apply Z.div_pos; lia|]. apply Z.div_lt_upper_bound; lia. }
  assert (Hods : 0 ≤ odsSize ∧ 2 * odsSize ≤ squareSize).
  { split; [apply Z.div_pos; lia|]. apply Z.mul_div_le. lia. }
  assert (Hpos : 0 < squareSize).
  { destruct (Z.eq_dec squareSize 0) as [Hz|]; [exfalso|lia].
    assert (Hz' : odsSize = 0) by (unfold odsSize; rewrite Hz; reflexivity).
    rewrite Hz, Z.mod_0_r in HL. lia. }
  assert (Hm : 0 ≤ Start bp mod squareSize < squareSize)
    by (apply Z.mod_pos_bound; lia).
  unfold Replay.Read. rewrite Hleaves. unbind. fold squareSize odsSize.
  rewrite Read_range_single_row by lia. unfold slice_to. cbn [startRow].
  rewrite drop_ge by (rewrite length_take; lia).
  simpl. destruct (Z.ltb_spec (Start bp / squareSize) (Start bp / squareSize)); [lia|done].
Qed.

(** X5: every range [Read_range] accepts has the start row and start
    index of the pointer, a start index of at most the ODS size and an end
    index below it. *)
Theorem Read_range_accepts (squareSize odsSize : Z) (bp : BlobPointer) (r : ShareRange) :
  0 < squareSize < 2 ^ 64 →
  0 ≤ Start bp →
  Read_range squareSize odsSize bp = Ret r →
  startRow r = Start bp / squareSize ∧
  startIndex r = Start bp mod squareSize ∧
  0 ≤ startIndex r ≤ odsSize ∧
  0 ≤ endIndex r < odsSize ∧
  SharesLength bp ≠ 0.
Proof.
  intros Hsq HS. unfold Read_range.
  rewrite !udiv_nonzero, !umod_nonzero by lia. unbind.
  assert (Hm : 0 ≤ Start bp mod squareSize < squareSize)
    by (apply Z.mod_pos_bound; lia).
  destruct (Z.ltb_spec odsSize (Start bp mod squareSize)); [done|].
  destruct (Z.eqb_spec (SharesLength bp) 0); [done|].
  match goal with
  | |- match ?m with _ => _ end = _ → _ => destruct m as [[er ei]|?|?]; [|done|done]
  end.
  rewrite umod_nonzero by lia.
  assert (He : 0 ≤ ei mod squareSize < squareSize) by (apply Z.mod_pos_bound; lia).
  rewrite (wrap64_small (ei mod squareSize + 1)) by lia.
  destruct (Z.ltb_spec odsSize (ei mod squareSize + 1)); [done|].
  intros [= <-]. cbn. lia.
Qed.

(** X6: when [Read] returns, the row roots and the column roots it reports
    are the two halves of the leaves behind the data root, and the square
    size is the number of row roots. *)
Theorem Read_square_data (bp : BlobPointer) (leaves : list bytes)
    (data : bytes) (square : SquareData) :
  opens (DataRoot bp) = Ret leaves →
  Read bp = Ret (data, square) →
  RowRoots square ++ ColumnRoots square = leaves ∧
  SquareSize square = len leaves / 2 ∧
  len (RowRoots square) = SquareSize square.
Proof.
  intros Hleaves. unfold Replay.Read. rewrite Hleaves. unbind.
  destruct (Read_range _ _ bp) as [r|?|?]; [|done|done].
  destruct (Read_rows _ _ _ _ _ _ _ _) as [[rows shares]|?|?]; [|done|done].
  destruct (Read_deframe _ _) as [d|?|?]; [|done|done].
  intros [= <- <-]. cbn. unfold slice_to.
  pose proof (len_nonneg leaves) as Hl0.
  assert (0 ≤ len leaves / 2 ≤ len leaves).
  { split; [apply Z.div_pos; lia|]. apply Z.div_le_upper_bound; lia. }
  split; [apply take_drop|]. split; [done|].
  by apply len_take_le.
Qed.

(** X7: whatever the shares are, a blob returned by the deframing step has
    the length written in the header of the first share, below 2^32. *)
Theorem Read_deframe_length (shares : list bytes) (blob : bytes) :
  0 ≤ NamespaceSize →
  Read_deframe NamespaceSize shares = Ret blob →
  ∃ share0 rest,
    shares = share0 :: rest ∧
    len blob = sequence_length NamespaceSize share0 ∧
    len blob < 2 ^ 32.
Proof.
  intros HNS. unfold Read_deframe. destruct shares as [|share0 rest]; [done|].
  destruct (Z.ltb_spec (len share0) (NamespaceSize * 2 + 1)); [done|].
  destruct (Z.ltb_spec (len share0) (NamespaceSize * 2 + 5)); [done|].
  cbv [orb]. rewrite Read_sequence_length by done. unbind.
  destruct (Read_strip _ _ _ _) as [data|?|?]; [|done|done].
  pose proof (sequence_length_bound NamespaceSize share0) as Hn.
  assert (Hw : 0 ≤ wrap32 (len data) ≤ len data).
  { unfold wrap32. pose proof (len_nonneg data).
    split; [apply Z.mod_pos_bound; lia|apply Z.mod_le; lia]. }
  destruct (Z.ltb_spec (wrap32 (len data)) (sequence_length NamespaceSize share0)); [done|].
  intros [= <-]. exists share0, rest. split; [done|].
  unfold slice_to. rewrite len_take_le by lia. lia.
Qed.

(** X8: with a namespace of at least 29 bytes the length check on the first
    share covers every byte the loop removes from it: when the later shares
    carry their headers the deframing step does not panic, and it fails
    with the share-length error exactly when the first share is shorter
    than [2*NamespaceSize + 5]. *)
Theorem Read_deframe_first_share_guard (share0 : bytes) (rest : list bytes) :
  29 ≤ NamespaceSize →
  Forall (carries_next_header NamespaceSize) rest →
  (∀ p, Read_deframe NamespaceSize (share0 :: rest) ≠ Panic p) ∧
  (Read_deframe NamespaceSize (share0 :: rest) = Err (SequenceLengthShare (len share0))
   ↔ len share0 < NamespaceSize * 2 + 5).
Proof.
  intros HNS Hrest.
  destruct (Z.lt_ge_cases (len share0) (NamespaceSize * 2 + 5)) as [Hshort|Hlong].
  - assert (Hrun : Read_deframe NamespaceSize (share0 :: rest)
                   = Err (SequenceLengthShare (len share0))).
    { unfold Read_deframe.
      destruct (Z.ltb_spec (len share0) (NamespaceSize * 2 + 1)); [done|].
      destruct (Z.ltb_spec (len share0) (NamespaceSize * 2 + 5)); [done|lia]. }
    rewrite Hrun. split; [done|]. done.
  - assert (Hfirst : carries_first_header NamespaceSize share0) by (split; lia).
    rewrite (Read_deframe_run NamespaceSize ltac:(lia) share0 rest Hfirst Hrest).
    cbv zeta. destruct (_ <? _); (split; [done|]); (split; [done|lia]).
Qed.

(** The turns of the loop after the start row. *)
Lemma Read_rows_tail (odsSize : Z) (r : ShareRange) (roots : list bytes)
    (rows : list (list bytes)) :
  Forall2 (opens_to_row ResolveTypedPreimage NmtContent odsSize) roots rows →
  ∀ (extra : list bytes) (i : Z) (seen : list (list bytes)) (shares : list bytes),
  0 ≤ startRow r < i →
  i + len rows = endRow r + 1 →
  endRow r < 2 ^ 64 - 1 →
  0 ≤ endIndex r + 1 < 2 ^ 64 →
  Read_rows ResolveTypedPreimage NmtContent odsSize r (roots ++ extra) i seen shares
  = Ret (seen ++ rows, shares ++ covered_tail odsSize r rows).
Proof.
  induction 1 as [|root row roots rows [Hopen Hlen] Hall IH];
    intros extra i seen shares Hi Hn Hend Hei.
  - unfold len in Hn. simpl in Hn.
    assert (Hlt : endRow r < i) by lia.
    rewrite !app_nil_r. destruct extra; simpl;
      by destruct (Z.ltb_spec (endRow r) i); [|lia].
  - assert (Hlr : len (row :: rows) = 1 + len rows) by (unfold len; simpl; lia).
    pose proof (len_nonneg rows) as Hr0.
    simpl. destruct (Z.ltb_spec (endRow r) i); [lia|].
    rewrite Hopen. unbind.
    destruct (Z.ltb_spec (len row) odsSize); [lia|].
    destruct (Z.eqb_spec (startRow r) (endRow r)); [lia|].
    destruct (Z.eqb_spec i (startRow r)); [lia|].
    rewrite (wrap64_small (i + 1)) by lia.
    destruct (Z.eqb_spec i (endRow r)) as [Hlast|Hmid].
    + assert (rows = []) as -> by (destruct rows; [done|unfold len in *; simpl in *; lia]).
      apply Forall2_nil_inv_r in Hall as Hroots.
      rewrite (IH extra (i + 1)) by (unfold len; simpl; lia).
      rewrite wrap64_small by lia. unfold slice_to.
      by rewrite <- !app_assoc, !app_nil_r.
    + rewrite (IH extra (i + 1)) by lia. unfold slice_to.
      destruct rows as [|row' rows']; [unfold len in *; simpl in *; lia|].
      by rewrite <- !app_assoc.
Qed.

(** X9: a range that spans several rows whose roots open: the loop visits
    the rows from the start row to the end row in order and collects the
    first row from the start index, the rows between in full and the last
    row up to the end index, each cut to its ODS half. *)
Theorem Read_rows_spanning (odsSize : Z) (r : ShareRange)
    (roots extra : list bytes) (rows : list (list bytes)) :
  Forall2 (opens_to_row ResolveTypedPreimage NmtContent odsSize) roots rows →
  0 ≤ startRow r < endRow r →
  endRow r < 2 ^ 64 - 1 →
  len rows = endRow r - startRow r + 1 →
  0 ≤ startIndex r ≤ odsSize →
  0 ≤ endIndex r < odsSize →
  odsSize < 2 ^ 64 →
  Read_rows ResolveTypedPreimage NmtContent odsSize r (roots ++ extra) (startRow r) [] []
  = Ret (rows, covered_shares odsSize r rows) ∧
  len (covered_shares odsSize r rows)
  = (odsSize - startIndex r) + (endRow r - startRow r - 1) * odsSize + (endIndex r + 1).
Proof.
  intros Hall Hrows Hend Hn Hsi Hei Hods.
  destruct Hall as [|root row roots rows [Hopen Hlen] Hall];
    [unfold len in Hn; simpl in Hn; lia|].
  assert (Hlr : len rows = endRow r - startRow r).
  { unfold len in *. simpl in Hn. lia. }
  split.
  - simpl. destruct (Z.ltb_spec (endRow r) (startRow r)); [lia|].
    rewrite Hopen. unbind.
    destruct (Z.ltb_spec (len row) odsSize); [lia|].
    destruct (Z.eqb_spec (startRow r) (endRow r)); [lia|].
    rewrite Z.eqb_refl.
    unfold slice_to. rewrite slice_from_ok by (rewrite len_take_le; lia). unbind.
    rewrite (wrap64_small (startRow r + 1)) by lia.
    by rewrite (Read_rows_tail odsSize r roots rows Hall extra) by lia.
  - simpl. rewrite len_app, len_drop, len_take_le by (rewrite ?len_take_le; lia).
    assert (Htail : ∀ rs, Forall (λ row, odsSize ≤ len row) rs → rs ≠ [] →
              len (covered_tail odsSize r rs) = (len rs - 1) * odsSize + (endIndex r + 1)).
    { clear -Hei. induction 1 as [|row' rs' Hrow' Hrs' IH]; [done|]. intros _.
      destruct rs' as [|row'' rs''].
      - simpl. rewrite take_take, Nat.min_l by lia.
        rewrite len_take_le by lia. unfold len. simpl. lia.
      - change (covered_tail odsSize r (row' :: row'' :: rs''))
          with (take (Z.to_nat odsSize) row' ++ covered_tail odsSize r (row'' :: rs'')).
        rewrite len_app, len_take_le, IH by (done || lia).
        unfold len. simpl length. lia. }
    rewrite Htail.
    + lia.
    + clear -Hall. induction Hall as [|? ? ? ? [_ ?] _ IH]; constructor; done.
    + destruct rows; [unfold len in Hlr; simpl in Hlr; lia|done].
Qed.

End ReadFacts.

Lemma Read_no_shares_witness :
  Read no_preimage 29 square_leaves square_rows pointer_1_0 = Err SharesLengthZero.
Proof.
  exact (Read_no_shares no_preimage 29 square_leaves square_rows pointer_1_0
           leaves_of_square eq_refl ltac:(by vm_compute) eq_refl).
Defined.

Lemma Read_small_square_witness :
  Read no_preimage 29 one_leaf empty_rows pointer_1_2 = Panic DivideByZero ∧
  Read no_preimage 29 two_leaves empty_rows pointer_1_2 = Panic DivideByZero.
Proof.
  split.
  - apply (proj1 (Read_small_square no_preimage 29 one_leaf empty_rows pointer_1_2
                    [[Byte.x00]] eq_refl)).
    by vm_compute.
  - apply (proj2 (Read_small_square no_preimage 29 two_leaves empty_rows pointer_1_2
                    [[Byte.x00]; [Byte.x01]] eq_refl)); by vm_compute.
Defined.

Lemma Read_single_row_witness :
  Read no_preimage 29 square_leaves square_rows pointer_4_2
  = Ret ([Byte.x10; Byte.x00], square_4_2).
Proof.
  pose proof (Read_single_row no_preimage 29 square_leaves square_rows pointer_4_2
                leaves_of_square [Byte.x01] row_1 eq_refl
                ltac:(by vm_compute) ltac:(by vm_compute) ltac:(by vm_compute)
                ltac:(by vm_compute) ltac:(by vm_compute) eq_refl
                ltac:(by vm_compute)) as [_ Hread].
  rewrite Hread. reflexivity.
Defined.

Lemma Read_start_row_outside_square_witness :
  Read no_preimage 29 square_leaves square_rows pointer_16_1 = Panic IndexOutOfRange.
Proof.
  exact (Read_start_row_outside_square no_preimage 29 square_leaves square_rows
           pointer_16_1 leaves_of_square eq_refl
           ltac:(by vm_compute) ltac:(by vm_compute) ltac:(by vm_compute)
           ltac:(by vm_compute) ltac:(by vm_compute)).
Defined.

Lemma Read_range_accepts_witness :
  Read_range 4 2 pointer_4_2 = Ret range_4_2 ∧
  0 ≤ startIndex range_4_2 ≤ 2 ∧
  0 ≤ endIndex range_4_2 < 2.
Proof.
  split; [reflexivity|].
  pose proof (Read_range_accepts 4 2 pointer_4_2 range_4_2
                ltac:(by vm_compute) ltac:(by vm_compute) eq_refl)
    as (_ & _ & Hstart & Hend & _).
  by split.
Defined.

Lemma Read_square_data_witness :
  RowRoots square_4_2 ++ ColumnRoots square_4_2 = leaves_of_square ∧
  SquareSize square_4_2 = len leaves_of_square / 2 ∧
  len (RowRoots square_4_2) = SquareSize square_4_2.
Proof.
  apply (Read_square_data no_preimage 29 square_leaves square_rows pointer_4_2
           leaves_of_square [Byte.x10; Byte.x00] square_4_2 eq_refl).
  by vm_compute.
Defined.

Lemma Read_deframe_length_witness :
  ∃ share0 rest,
    [first_share; second_share] = share0 :: rest ∧
    len [Byte.x61; Byte.x62] = sequence_length 29 share0 ∧
    len [Byte.x61; Byte.x62] < 2 ^ 32.
Proof.
  apply (Read_deframe_length 29 [first_share; second_share] [Byte.x61; Byte.x62]);
    by vm_compute.
Defined.

Lemma Read_deframe_first_share_guard_witness :
  (∀ p, Read_deframe 29 [first_share; second_share] ≠ Panic p) ∧
  (Read_deframe 29 [first_share; second_share]
     = Err (SequenceLengthShare (len first_share))
   ↔ len first_share < 29 * 2 + 5).
Proof.
  apply (Read_deframe_first_share_guard 29 first_share [second_share]);
    [by vm_compute|].
  repeat constructor. by vm_compute.
Defined.

Lemma Read_rows_spanning_witness :
  Read_rows no_preimage square_rows 2 range_0_1
    ([[Byte.x00]; [Byte.x01]] ++ [[Byte.x02]; [Byte.x03]]) 0 [] []
  = Ret ([row_0; row_1], covered_shares 2 range_0_1 [row_0; row_1]) ∧
  len (covered_shares 2 range_0_1 [row_0; row_1]) = 2.
Proof.
  apply (Read_rows_spanning no_preimage square_rows 2 range_0_1
           [[Byte.x00]; [Byte.x01]] [[Byte.x02]; [Byte.x03]] [row_0; row_1]);
    try by vm_compute.
  repeat constructor; by vm_compute.
Defined.

End CelestiaReadFacts.

(** ** The blob reader, further *)

Module BlobReaderFacts.
Import Replay Spec Samples GoFacts BlobFacts.

Section GetBlobsFacts.
Variable ResolveTypedPreimage : PreimageType → Hash → res bytes.

Lemma GetBlobs_loop_acc (hs : list Hash) : ∀ acc : list bytes,
  GetBlobs_loop ResolveTypedPreimage hs acc
  = (blobs ← GetBlobs_loop ResolveTypedPreimage hs []; Ret (acc ++ blobs)).
Proof.
  induction hs as [|h hs IH]; intros acc; simpl.
  - unbind. by rewrite app_nil_r.
  - destruct (ResolveTypedPreimage EthVersionedHashPreimageType h) as [p|?|?]; unbind; [|done..].
    destruct (negb (len p =? BlobLen)); [done|].
    rewrite (IH (acc ++ _)), (IH [_]). unbind.
    destruct (GetBlobs_loop ResolveTypedPreimage hs []); [|done..].
    by rewrite <- app_assoc.
Qed.

Lemma GetBlobs_loop_app (xs ys : list Hash) : ∀ acc : list bytes,
  GetBlobs_loop ResolveTypedPreimage (xs ++ ys) acc
  = (blobs ← GetBlobs_loop ResolveTypedPreimage xs acc;
     GetBlobs_loop ResolveTypedPreimage ys blobs).
Proof.
  induction xs as [|h xs IH]; intros acc; simpl; [done|].
  destruct (ResolveTypedPreimage EthVersionedHashPreimageType h) as [p|?|?]; unbind; [|done..].
  destruct (negb (len p =? BlobLen)); [done|]. apply IH.
Qed.

(** X10: resolving a list of hashes in one call or in two calls on its two
    parts gives the same blobs in the same order, and the same failure:
    that of the first hash that fails, with no blob returned. *)
Theorem GetBlobs_app (batchBlockHash : Hash) (xs ys : list Hash) :
  GetBlobs ResolveTypedPreimage batchBlockHash (xs ++ ys)
  = (first ← GetBlobs ResolveTypedPreimage batchBlockHash xs;
     second ← GetBlobs ResolveTypedPreimage batchBlockHash ys;
     Ret (first ++ second)).
Proof.
  unfold GetBlobs. rewrite GetBlobs_loop_app. unbind.
  destruct (GetBlobs_loop ResolveTypedPreimage xs []) as [first|?|?]; [|done..].
  by rewrite GetBlobs_loop_acc.
Qed.

End GetBlobsFacts.
End BlobReaderFacts.

(** ** The replay, further *)

Module ReplayFacts.
Import Replay ChainContext Spec Terms Samples Fixtures GoFacts DriverFacts.

(** X11: a replay that starts from the zero state root: [readMessage] is
    called with the zero chain parameters, so the blob reader is the only
    provider, and with the nonce of the last header when there is one; the
    chain configuration is that of the init message, or the one known for
    its chain id; the genesis block is made from the state root left by
    the initialisation of ArbOS. The branch is chosen by the state root,
    not by the committed hash. *)
Theorem main_produce_genesis (H : Host) (w : World) (hdr : option (Header H))
    (db db' : StateDB H) (message : MessageWithMetadata (L1IncomingMessage H))
    (c : Cursor) (initMessage : ParsedInitMessage) (chainConfig : params_ChainConfig) :
  last_header H w hdr →
  match hdr with Some h => Header_Root H h | None => 0 end = 0 →
  NewDeterministic H 0 = Ret db →
  Pop H (multiplexer_for H hdr zero_ArbitrumChainParams w) (cursor w) = (Ret message, c) →
  ParseInitMessage H (Message message) = Ret initMessage →
  match ChainConfig initMessage with
  | Some config => config = chainConfig
  | None => GetChainConfig H (ChainId initMessage) 0 = Ret chainConfig
  end →
  InitializeArbosState H db chainConfig initMessage = Ret db' →
  main_produce H w
  = (Ret (MakeGenesisBlock H 0 0 0 (IntermediateRoot H db') chainConfig),
     after_pop H hdr zero_ArbitrumChainParams w c).
Proof.
  intros Hlast Hroot Hdb Hpop Hinit Hcfg Harbos.
  assert (Hread : readMessage H hdr zero_ArbitrumChainParams (before_pop H hdr w)
                  = (Ret message, after_pop H hdr zero_ArbitrumChainParams w c)).
  { rewrite readMessage_before_pop by done. by rewrite Hpop. }
  run_header Hlast. rewrite Hroot.
  change (negb (0 =? 0)) with false. cbv iota.
  run_step. rewrite M_bind_run, Hread. cbv beta iota. run_step.
  rewrite M_bind_run. unfold mret, M_ret.
  destruct (ChainConfig initMessage) as [config|];
    [subst config|rewrite must_lift_run, Hcfg];
    cbv beta iota; run_step; reflexivity.
Qed.


(** X13: a replay on top of a block whose state root is not zero: the
    chain parameters given to [readMessage] are those of the chain
    configuration stored in the ArbOS state when it is not empty and
    agrees with the state (otherwise of the configuration known for the
    chain id), the multiplexer starts from the nonce of the last header,
    and the block producer is given the popped message with its delayed
    count, the last header, the state opened at its root and that
    configuration. *)
Theorem main_produce_block (H : Host) (w : World) (h : Header H)
    (db : StateDB H) (chainId genesisBlockNum : Z) (json : bytes)
    (chainConfig : params_ChainConfig)
    (message : MessageWithMetadata (L1IncomingMessage H)) (c : Cursor) :
  last_header H w (Some h) →
  arbos_state H h db chainId genesisBlockNum json →
  (if 0 <? len json
   then json_Unmarshal H json = Ret chainConfig ∧
        ChainID chainConfig = chainId ∧
        GenesisBlockNum (ArbitrumChainParams chainConfig) = genesisBlockNum
   else GetChainConfig H chainId genesisBlockNum = Ret chainConfig) →
  DataAvailabilityCommittee (ArbitrumChainParams chainConfig)
    && CelestiaDA (ArbitrumChainParams chainConfig) = false →
  Pop H (multiplexer_for H (Some h) (ArbitrumChainParams chainConfig) w) (cursor w)
  = (Ret message, c) →
  main_produce H w
  = (match ProduceBlock H (Message message) (DelayedMessagesRead message)
                        (Some h) db chainConfig with
     | Ret newBlock => Ret newBlock
     | Err _ => Panic (Explicit "ProduceBlock")
     | Panic p => Panic p
     end,
     after_pop H (Some h) (ArbitrumChainParams chainConfig) w c).
Proof.
  intros Hlast Hstate Hcfg Hflags Hpop.
  rewrite (main_produce_loads_config H w h db chainId genesisBlockNum json chainConfig
             Hlast Hstate Hcfg).
  rewrite M_bind_run, readMessage_before_pop by done. rewrite Hpop.
  cbv beta iota. by rewrite must_lift_run.
Qed.

(** X15: [GetHeader] only returns the header behind the hash, and only
    when its number is the requested one and fits 64 bits; otherwise it
    panics; it never returns an error. On the tape it records the one
    resolution of the preimage and changes nothing else: cursor, committed
    hash and send root are as before. *)
Theorem GetHeader_number (H : Host) (Header_Number : Header H → Z)
    (hash : Hash) (num : Z) (w w' : World) (r : res (Header H)) :
  GetHeader H Header_Number hash num w = (r, w') →
  w' = record (EvResolveTypedPreimage Keccak256PreimageType hash) w ∧
  (∀ e, r ≠ Err e) ∧
  (∀ h, r = Ret h →
     resolves_header H hash h ∧ Header_Number h = num ∧ 0 ≤ num < 2 ^ 64).
Proof.
  unfold GetHeader.
  rewrite M_bind_run, getBlockHeaderByHash_run.
  destruct (ResolvePreimage H Keccak256PreimageType hash) as [enc|?|?] eqn:Henc;
    cbv beta iota; [|by intros [= <- <-]..].
  destruct (rlp_DecodeBytes H enc) as [h|?|?] eqn:Hdec;
    cbv beta iota; [|by intros [= <- <-]..].
  unfold IsUint64.
  destruct (Z.leb_spec 0 (Header_Number h)); cbn [andb negb orb];
    [|by intros [= <- <-]].
  destruct (Z.ltb_spec (Header_Number h) (2 ^ 64)); cbn [andb negb orb];
    [|by intros [= <- <-]].
  destruct (Z.eqb_spec (Header_Number h) num); cbn [andb negb orb];
    [|by intros [= <- <-]].
  intros [= <- <-]. split; [done|]. split; [done|].
  intros h' [= <-]. split; [by exists enc|lia].
Qed.

Lemma last_header_42 (configChainId : Z) :
  last_header (replay_host configChainId) replay_world (Some (header_42 configChainId)).
Proof. split; [done|]. exists [Byte.x01]. by split. Qed.

Lemma arbos_state_42 (configChainId : Z) :
  arbos_state (replay_host configChainId) (header_42 configChainId) ()
    412346 0 [Byte.x7b; Byte.x7d].
Proof. split; [done|]. split; [done|]. exists (). by repeat split. Qed.

Lemma main_produce_genesis_witness :
  main_produce (genesis_host 11 short_slot) (genesis_world 0)
  = (Ret (11 : Block (genesis_host 11 short_slot)), genesis_produced).
Proof.
  exact (main_produce_genesis (genesis_host 11 short_slot) (genesis_world 0) None
           () () genesis_popped cursor_0_1 init_message genesis_config
           eq_refl eq_refl eq_refl eq_refl eq_refl eq_refl eq_refl).
Defined.


Lemma main_produce_block_witness :
  main_produce (replay_host 412346) replay_world
  = (Ret (8 : Block (replay_host 412346)),
     after_pop (replay_host 412346) (Some (header_42 412346))
       (ArbitrumChainParams (stored_config 412346)) replay_world cursor_10).
Proof.
  apply (main_produce_block (replay_host 412346) replay_world (header_42 412346) ()
           412346 0 [Byte.x7b; Byte.x7d] (stored_config 412346)
           (popped 412346) cursor_10
           (last_header_42 412346) (arbos_state_42 412346)).
  - by vm_compute.
  - reflexivity.
  - reflexivity.
Defined.

Lemma GetHeader_number_witness :
  resolves_header (replay_host 1) 42 (header_42 1) ∧
  snd (header_42 1) = 3 ∧ 0 ≤ 3 < 2 ^ 64.
Proof.
  exact (proj2 (proj2 (GetHeader_number (replay_host 1) snd 42 3
                         replay_world
                         (record (EvResolveTypedPreimage Keccak256PreimageType 42)
                                 replay_world)
                         (Ret (header_42 1)) eq_refl))
           (header_42 1) eq_refl).
Defined.

End ReplayFacts.

(** ** The sync monitor, further *)

Module SyncProgressFacts.
Import SyncMonitor Spec Terms Samples Fixtures GoFacts.

Ltac keep_key :=
  unfold feed_key; repeat (rewrite lookup_insert_ne by done); try done.

Lemma progress_built_inv (e : FullExecutionClient) (sy sy' : bool)
    (res res' : gmap string value) (b : Z) :
  progress_built e sy res = Ret (sy', res', b) →
  res' !! feed_key = res !! feed_key ∧
  (sy' = false → sy = false ∧
     ∃ built, HeadMessageNumber e = Ret built ∧ b = wrap64 (built + 1)).
Proof.
  unfold progress_built. destruct (HeadMessageNumber e) as [built|err|p]; [| |done].
  - intros [= <- <- <-]. split; [keep_key|]. intros ->. split; [done|by exists built].
  - intros [= <- <- <-]. split; [keep_key|done].
Qed.

Lemma progress_msgCount_inv (s : SyncMonitor) (ts : TransactionStreamer)
    (b : Z) (sy sy' : bool) (res res' : gmap string value) (mc : Z) :
  progress_msgCount s ts b sy res = Ret (sy', res', mc) →
  res' !! feed_key = res !! feed_key ∧
  (sy' = false → sy = false ∧
     ∃ cfg, config s = Some cfg ∧ GetMessageCount ts = Ret mc ∧
            mc ≤ wrap64 (b + BlockBuildLag cfg)).
Proof.
  unfold progress_msgCount. destruct (GetMessageCount ts) as [msgCount|err|p]; [| |done].
  - destruct (config s) as [cfg|]; [|done]. simpl. unbind.
    destruct (Z.ltb_spec (wrap64 (b + BlockBuildLag cfg)) msgCount);
      intros [= <- <- <-]; (split; [keep_key|]); [done|].
    intros ->. split; [done|]. by exists cfg.
  - intros [= <- <- <-]. split; [keep_key|done].
Qed.

Lemma progress_inbox_inv (s : SyncMonitor) (b : Z) (sy sy' : bool)
    (res res' : gmap string value) :
  progress_inbox s b sy res = Ret (sy', res') →
  res' !! feed_key = res !! feed_key ∧
  (sy' = false → sy = false ∧
     ∀ ir, inboxReader s = Some ir →
       GetLastSeenBatchCount ir ≠ 0 ∧
       GetLastSeenBatchCount ir ≤ snd (GetLastReadBlockAndBatchCount ir) ∧
       ∃ cfg processedMetadata,
         config s = Some cfg ∧
         Tracker_GetBatchMetadata ir
           (wrap64 (snd (GetLastReadBlockAndBatchCount ir) - 1)) = Ret processedMetadata ∧
         MessageCount processedMetadata
           ≤ wrap64 (b + BlockBuildSequencerInboxLag cfg)).
Proof.
  unfold progress_inbox. destruct (inboxReader s) as [ir|].
  2:{ intros [= <- <-]. split; [done|]. intros ->. split; [done|]. intros ? [=]. }
  cbv zeta.
  destruct (Tracker_GetBatchMetadata ir _) as [meta|err|p] eqn:Hmeta; [| |done].
  - destruct (config s) as [cfg|]; [|done]. simpl. unbind.
    destruct (l1Reader ir) as [l1|].
    + destruct (LastHeaderWithError l1) as [[header|] [err|]];
        intros [= <- <-]; (split; [keep_key|]).
      all: destruct (Z.eqb_spec (GetLastSeenBatchCount ir) 0); simpl;
        [by destruct (_ <? _)|].
      all: destruct (Z.ltb_spec (snd (GetLastReadBlockAndBatchCount ir))
                                (GetLastSeenBatchCount ir)); simpl;
        [by destruct (_ <? _)|].
      all: destruct (Z.ltb_spec (wrap64 (b + BlockBuildSequencerInboxLag cfg))
                                (MessageCount meta)); [done|].
      all: intros ->; split; [done|]; intros ? [= <-];
        split; [done|]; split; [done|]; by exists cfg, meta.
    + intros [= <- <-]. split; [keep_key|].
      destruct (Z.eqb_spec (GetLastSeenBatchCount ir) 0); simpl;
        [by destruct (_ <? _)|].
      destruct (Z.ltb_spec (snd (GetLastReadBlockAndBatchCount ir))
                           (GetLastSeenBatchCount ir)); simpl;
        [by destruct (_ <? _)|].
      destruct (Z.ltb_spec (wrap64 (b + BlockBuildSequencerInboxLag cfg))
                           (MessageCount meta)); [done|].
      intros ->; split; [done|]; intros ? [= <-];
        split; [done|]; split; [done|]; by exists cfg, meta.
  - simpl. unbind. destruct (l1Reader ir) as [l1|].
    + destruct (LastHeaderWithError l1) as [[header|] [err'|]];
        intros [= <- <-]; (split; [keep_key|done]).
    + intros [= <- <-]. split; [keep_key|done].
Qed.

Lemma progress_coordinator_inv (s : SyncMonitor) (mc : Z) (sy sy' : bool)
    (res res' : gmap string value) :
  progress_coordinator s mc sy res = Ret (sy', res') →
  res' !! feed_key = res !! feed_key ∧
  (sy' = false → sy = false ∧
     ∀ c, coordinator s = Some c →
       ∃ cfg coordinatorMessageCount,
         config s = Some cfg ∧
         GetRemoteMsgCount c = Ret coordinatorMessageCount ∧
         coordinatorMessageCount ≤ wrap64 (mc + CoordinatorMsgLag cfg)).
Proof.
  unfold progress_coordinator. destruct (coordinator s) as [c|].
  2:{ intros [= <- <-]. split; [done|]. intros ->. split; [done|]. intros ? [=]. }
  destruct (GetRemoteMsgCount c) as [n|err|p] eqn:Hn; [| |done].
  - destruct (config s) as [cfg|]; [|done]. simpl. unbind.
    destruct (Z.ltb_spec (wrap64 (mc + CoordinatorMsgLag cfg)) n);
      intros [= <- <-]; (split; [keep_key|]); [done|].
    intros ->. split; [done|]. intros ? [= <-]. by exists cfg, n.
  - intros [= <- <-]. split; [keep_key|done].
Qed.

Lemma progress_built_run (e : FullExecutionClient) (sy : bool)
    (res : gmap string value) (built : Z) :
  HeadMessageNumber e = Ret built →
  progress_built e sy res
  = Ret (sy,
         <["messageOfLastBlock" := VMessageIndex (wrap64 (built + 1))]>
           (<["blockNum" := VUint64 (MessageIndexToBlockNumber e built)]> res),
         wrap64 (built + 1)).
Proof. intros Hb. unfold progress_built. by rewrite Hb. Qed.

Lemma progress_msgCount_run (s : SyncMonitor) (ts : TransactionStreamer)
    (b : Z) (sy : bool) (res : gmap string value) (cfg : SyncMonitorConfig) (mc : Z) :
  config s = Some cfg → GetMessageCount ts = Ret mc →
  mc ≤ wrap64 (b + BlockBuildLag cfg) →
  progress_msgCount s ts b sy res
  = Ret (sy, <["msgCount" := VMessageIndex mc]> res, mc).
Proof.
  intros Hcfg Hmc Hlag. unfold progress_msgCount. rewrite Hmc, Hcfg. simpl. unbind.
  by destruct (Z.ltb_spec (wrap64 (b + BlockBuildLag cfg)) mc); [lia|].
Qed.

Lemma progress_inbox_run (s : SyncMonitor) (b : Z) (res : gmap string value)
    (cfg : SyncMonitorConfig) :
  config s = Some cfg →
  (∀ ir, inboxReader s = Some ir →
     GetLastSeenBatchCount ir ≠ 0 ∧
     GetLastSeenBatchCount ir ≤ snd (GetLastReadBlockAndBatchCount ir) ∧
     ∃ processedMetadata,
       Tracker_GetBatchMetadata ir
         (wrap64 (snd (GetLastReadBlockAndBatchCount ir) - 1)) = Ret processedMetadata ∧
       MessageCount processedMetadata
         ≤ wrap64 (b + BlockBuildSequencerInboxLag cfg)) →
  ∃ res', progress_inbox s b false res = Ret (false, res').
Proof.
  intros Hcfg Hi. unfold progress_inbox.
  destruct (inboxReader s) as [ir|]; [|by eexists].
  destruct (Hi ir eq_refl) as (Hseen & Hproc & meta & Hmeta & Hmlag).
  cbv zeta. rewrite Hmeta, Hcfg. simpl. unbind.
  destruct (Z.eqb_spec (GetLastSeenBatchCount ir) 0); [done|]. simpl.
  destruct (Z.ltb_spec (snd (GetLastReadBlockAndBatchCount ir))
                       (GetLastSeenBatchCount ir)); [lia|]. simpl.
  destruct (Z.ltb_spec (wrap64 (b + BlockBuildSequencerInboxLag cfg))
                       (MessageCount meta)); [lia|].
  destruct (l1Reader ir) as [l1|]; [|by eexists].
  destruct (LastHeaderWithError l1) as [? ?]. by eexists.
Qed.

Lemma progress_coordinator_run (s : SyncMonitor) (mc : Z) (res : gmap string value)
    (cfg : SyncMonitorConfig) :
  config s = Some cfg →
  (∀ c, coordinator s = Some c →
     ∃ coordinatorMessageCount,
       GetRemoteMsgCount c = Ret coordinatorMessageCount ∧
       coordinatorMessageCount ≤ wrap64 (mc + CoordinatorMsgLag cfg)) →
  ∃ res', progress_coordinator s mc false res = Ret (false, res').
Proof.
  intros Hcfg Hc. unfold progress_coordinator.
  destruct (coordinator s) as [c|]; [|by eexists].
  destruct (Hc c eq_refl) as (n & -> & Hn). rewrite Hcfg. simpl. unbind.
  destruct (Z.ltb_spec (wrap64 (mc + CoordinatorMsgLag cfg)) n); [lia|]. by eexists.
Qed.

(** The run of [SyncProgressMap] on an initialised monitor, stage by stage. *)
Lemma SyncProgressMap_stages (s : SyncMonitor) (m : gmap string value) :
  initialized s = true → SyncProgressMap s = Ret m →
  ∃ ts e sy1 res1 b sy2 res2 mc sy3 res3 sy4 res4,
    txStreamer s = Some ts ∧ exec s = Some e ∧
    progress_built e (negb (broadcasterQueuedMessagesPos ts =? 0))
      (<[feed_key := VUint64 (broadcasterQueuedMessagesPos ts)]> ∅)
      = Ret (sy1, res1, b) ∧
    progress_msgCount s ts b sy1 res1 = Ret (sy2, res2, mc) ∧
    progress_inbox s b sy2 res2 = Ret (sy3, res3) ∧
    progress_coordinator s mc sy3 res3 = Ret (sy4, res4) ∧
    m = (if sy4 then res4 else ∅).
Proof.
  intros Hinit. unfold SyncProgressMap. rewrite Hinit. simpl.
  destruct (txStreamer s) as [ts|]; [|done]. simpl.
  destruct (exec s) as [e|]; [|done]. simpl. unbind.
  replace (if negb (broadcasterQueuedMessagesPos ts =? 0) then true else false)
    with (negb (broadcasterQueuedMessagesPos ts =? 0)) by by destruct (_ =? _).
  fold feed_key.
  destruct (progress_built e _ _) as [[[sy1 res1] b]|?|?] eqn:H1; [|done..].
  destruct (progress_msgCount s ts b sy1 res1) as [[[sy2 res2] mc]|?|?] eqn:H2; [|done..].
  destruct (progress_inbox s b sy2 res2) as [[sy3 res3]|?|?] eqn:H3; [|done..].
  destruct (progress_coordinator s mc sy3 res3) as [[sy4 res4]|?|?] eqn:H4; [|done..].
  intros Hm. exists ts, e, sy1, res1, b, sy2, res2, mc, sy3, res3, sy4, res4.
  repeat (split; [done|]). destruct sy4; simpl in Hm; by injection Hm as <-.
Qed.

(** X16: whatever [SyncProgressMap] reports on an initialised monitor, an
    empty map apart, tells the position of the broadcast feed. *)
Theorem SyncProgressMap_feed_position (s : SyncMonitor) (m : gmap string value) :
  initialized s = true → SyncProgressMap s = Ret m → m ≠ ∅ →
  ∃ ts, txStreamer s = Some ts ∧
        m !! "broadcasterQueuedMessagesPos"
          = Some (VUint64 (broadcasterQueuedMessagesPos ts)).
Proof.
  intros Hinit Hm Hne.
  destruct (SyncProgressMap_stages s m Hinit Hm)
    as (ts & e & sy1 & res1 & b & sy2 & res2 & mc & sy3 & res3 & sy4 & res4 &
        Hts & He & H1 & H2 & H3 & H4 & ->).
  exists ts. split; [done|]. destruct sy4; [|done].
  apply progress_built_inv in H1 as [K1 _].
  apply progress_msgCount_inv in H2 as [K2 _].
  apply progress_inbox_inv in H3 as [K3 _].
  apply progress_coordinator_inv in H4 as [K4 _].
  fold feed_key. rewrite K4, K3, K2, K1. by rewrite lookup_insert.
Qed.

(** X17: [Synced] answers true exactly on an initialised monitor with
    its configuration, streamer and execution client set, whose feed is
    drained and whose counts are all read without error and within the
    configured lags. *)
Theorem Synced_iff_in_sync (s : SyncMonitor) :
  Synced s = Ret true ↔ in_sync s.
Proof.
  split.
  - intros Hs. unfold Synced in Hs.
    destruct (SyncProgressMap s) as [m|?|?] eqn:Hm; [|done..].
    simpl in Hs. injection Hs as Hs.
    apply bool_decide_eq_true, map_size_empty_iff in Hs. subst m.
    destruct (initialized s) eqn:Hinit.
    2:{ unfold SyncProgressMap in Hm. rewrite Hinit in Hm. simpl in Hm.
        assert (Hm' : <["err" := VString "uninitialized"]> (∅ : gmap string value) = ∅)
          by congruence.
        by apply insert_non_empty in Hm'. }
    destruct (SyncProgressMap_stages s ∅ Hinit Hm)
      as (ts & e & sy1 & res1 & b & sy2 & res2 & mc & sy3 & res3 & sy4 & res4 &
          Hts & He & H1 & H2 & H3 & H4 & Hres).
    apply progress_built_inv in H1 as [K1 Q1].
    apply progress_msgCount_inv in H2 as [K2 Q2].
    apply progress_inbox_inv in H3 as [K3 Q3].
    apply progress_coordinator_inv in H4 as [K4 Q4].
    destruct sy4.
    { exfalso. assert (Hk : res4 !! feed_key = None) by by rewrite <- Hres.
      rewrite K4, K3, K2, K1 in Hk. by rewrite lookup_insert in Hk. }
    destruct (Q4 eq_refl) as [-> Hc].
    destruct (Q3 eq_refl) as [-> Hi].
    destruct (Q2 eq_refl) as [-> (cfg & Hcfg & Hmc & Hlag)].
    destruct (Q1 eq_refl) as [Hq (built & Hb & ->)].
    split; [done|]. exists ts, e, cfg, built, mc.
    repeat (split; [done|]).
    split. { apply negb_false_iff in Hq. lia. }
    repeat (split; [done|]). split.
    + intros ir Hir. destruct (Hi ir Hir) as (? & ? & cfg' & meta & Hcfg' & ? & ?).
      rewrite Hcfg in Hcfg'. injection Hcfg' as <-.
      repeat (split; [done|]). by exists meta.
    + intros c Hco. destruct (Hc c Hco) as (cfg' & n & Hcfg' & ? & ?).
      rewrite Hcfg in Hcfg'. injection Hcfg' as <-. by exists n.
  - intros (Hinit & ts & e & cfg & built & mc & Hts & He & Hcfg & Hq & Hb & Hmc &
            Hlag & Hi & Hc).
    assert (Hmap : SyncProgressMap s = Ret ∅).
    { unfold SyncProgressMap. rewrite Hinit, Hts, He.
      cbv beta iota zeta delta [negb deref mbind outcome_bind Go.bind].
      rewrite Hq. change (0 =? 0) with true. cbv iota.
      rewrite (progress_built_run _ _ _ _ Hb). cbv beta iota.
      rewrite (progress_msgCount_run _ _ _ _ _ _ _ Hcfg Hmc Hlag). cbv beta iota.
      match goal with
      | |- context [progress_inbox s ?b ?sy ?res] =>
          destruct (progress_inbox_run s b res cfg Hcfg Hi) as [res3 ->]
      end.
      cbv beta iota.
      match goal with
      | |- context [progress_coordinator s ?mc ?sy ?res] =>
          destruct (progress_coordinator_run s mc res cfg Hcfg Hc) as [res4 ->]
      end.
      done. }
    unfold Synced. rewrite Hmap. simpl. unbind. by rewrite map_size_empty.
Qed.

(** *** Block numbers *)

Lemma getLatestValidatedCount_validated (s : SyncMonitor) (v : Z) :
  getLatestValidatedCount s = Ret v → validated s = Some v.
Proof.
  unfold getLatestValidatedCount, validated.
  destruct (txStreamer s) as [ts|]; [|done]. simpl.
  destruct (validator ts) as [bv|]; [|done]. simpl. by intros [= <-].
Qed.

Lemma SafeBlockNumber_inv (s : SyncMonitor) (b : Z) :
  SafeBlockNumber s = Ret b →
  ∃ ir cfg e msg m,
    inboxReader s = Some ir ∧ initialized s = true ∧ config s = Some cfg ∧
    exec s = Some e ∧ GetSafeMsgCount ir = Ret msg ∧
    clamped (SafeBlockWaitForBlockValidator cfg) s msg = Some m ∧
    b = MessageIndexToBlockNumber e (wrap64 (m - 1)).
Proof.
  unfold SafeBlockNumber. destruct (inboxReader s) as [ir|] eqn:Hir; [|done].
  destruct (initialized s) eqn:Hinit; [|done]. simpl.
  destruct (GetSafeMsgCount ir) as [msg|?|?] eqn:Hmsg; [|done..]. simpl.
  destruct (config s) as [cfg|] eqn:Hcfg; [|done]. simpl.
  destruct (SafeBlockWaitForBlockValidator cfg) eqn:Hwait.
  - destruct (getLatestValidatedCount s) as [v|?|?] eqn:Hv; [|done..]. simpl.
    apply getLatestValidatedCount_validated in Hv.
    destruct (exec s) as [e|] eqn:He; [|done]. simpl. intros [= <-].
    exists ir, cfg, e, msg, (Z.min msg v). repeat (split; [done|]). split.
    + rewrite Hwait. unfold clamped. unfold validated in Hv.
      destruct (txStreamer s) as [ts|]; [|done]. simpl in *.
      destruct (validator ts) as [bv|]; [|done]. simpl in *. by injection Hv as <-.
    + destruct (Z.ltb_spec v msg);
        [by rewrite Z.min_r by lia|by rewrite Z.min_l by lia].
  - simpl. destruct (exec s) as [e|] eqn:He; [|done]. simpl. intros [= <-].
    exists ir, cfg, e, msg, msg. repeat (split; [done|]). by rewrite Hwait.
Qed.

Lemma FinalizedBlockNumber_inv (s : SyncMonitor) (b : Z) :
  FinalizedBlockNumber s = Ret b →
  ∃ ir cfg e msg m,
    inboxReader s = Some ir ∧ initialized s = true ∧ config s = Some cfg ∧
    exec s = Some e ∧ GetFinalizedMsgCount ir = Ret msg ∧
    clamped (FinalizedBlockWaitForBlockValidator cfg) s msg = Some m ∧
    b = MessageIndexToBlockNumber e (wrap64 (m - 1)).
Proof.
  unfold FinalizedBlockNumber. destruct (inboxReader s) as [ir|] eqn:Hir; [|done].
  destruct (initialized s) eqn:Hinit; [|done]. simpl.
  destruct (GetFinalizedMsgCount ir) as [msg|?|?] eqn:Hmsg; [|done..]. simpl.
  destruct (config s) as [cfg|] eqn:Hcfg; [|done]. simpl.
  destruct (FinalizedBlockWaitForBlockValidator cfg) eqn:Hwait.
  - destruct (getLatestValidatedCount s) as [v|?|?] eqn:Hv; [|done..]. simpl.
    apply getLatestValidatedCount_validated in Hv.
    destruct (exec s) as [e|] eqn:He; [|done]. simpl. intros [= <-].
    exists ir, cfg, e, msg, (Z.min msg v). repeat (split; [done|]). split.
    + rewrite Hwait. unfold clamped. unfold validated in Hv.
      destruct (txStreamer s) as [ts|]; [|done]. simpl in *.
      destruct (validator ts) as [bv|]; [|done]. simpl in *. by injection Hv as <-.
    + destruct (Z.ltb_spec v msg);
        [by rewrite Z.min_r by lia|by rewrite Z.min_l by lia].
  - simpl. destruct (exec s) as [e|] eqn:He; [|done]. simpl. intros [= <-].
    exists ir, cfg, e, msg, msg. repeat (split; [done|]). by rewrite Hwait.
Qed.

(** X18: the errors of [SafeBlockNumber] and [FinalizedBlockNumber] are
    three: the monitor is not set up (no inbox reader, or not
    initialised), the reader's own error, passed on unchanged, and a
    missing validator when the configuration waits for it. *)
Theorem block_number_errors (s : SyncMonitor) (msg : string) :
  (SafeBlockNumber s = Err msg →
     (msg = "not set up for safeblock" ∧
        (inboxReader s = None ∨ initialized s = false)) ∨
     (∃ ir, inboxReader s = Some ir ∧ GetSafeMsgCount ir = Err msg) ∨
     (msg = "validator not set up" ∧ validated s = None ∧
        ∃ cfg, config s = Some cfg ∧ SafeBlockWaitForBlockValidator cfg = true)) ∧
  (FinalizedBlockNumber s = Err msg →
     (msg = "not set up for safeblock" ∧
        (inboxReader s = None ∨ initialized s = false)) ∨
     (∃ ir, inboxReader s = Some ir ∧ GetFinalizedMsgCount ir = Err msg) ∨
     (msg = "validator not set up" ∧ validated s = None ∧
        ∃ cfg, config s = Some cfg ∧ FinalizedBlockWaitForBlockValidator cfg = true)).
Proof.
  split.
  - unfold SafeBlockNumber. destruct (inboxReader s) as [ir|].
    2:{ intros [= <-]. left. split; [done|by left]. }
    destruct (initialized s).
    2:{ intros [= <-]. left. split; [done|by right]. }
    simpl. destruct (GetSafeMsgCount ir) as [n|err|?] eqn:Hn; [| |done].
    2:{ intros [= <-]. right. left. by exists ir. }
    simpl. destruct (config s) as [cfg|]; [|done]. simpl.
    destruct (SafeBlockWaitForBlockValidator cfg) eqn:Hwait.
    + unfold getLatestValidatedCount, validated.
      destruct (txStreamer s) as [ts|]; [|done]. simpl.
      destruct (validator ts) as [bv|]; simpl.
      * by destruct (exec s).
      * intros [= <-]. right. right. repeat (split; [done|]). by exists cfg.
    + simpl. by destruct (exec s).
  - unfold FinalizedBlockNumber. destruct (inboxReader s) as [ir|].
    2:{ intros [= <-]. left. split; [done|by left]. }
    destruct (initialized s).
    2:{ intros [= <-]. left. split; [done|by right]. }
    simpl. destruct (GetFinalizedMsgCount ir) as [n|err|?] eqn:Hn; [| |done].
    2:{ intros [= <-]. right. left. by exists ir. }
    simpl. destruct (config s) as [cfg|]; [|done]. simpl.
    destruct (FinalizedBlockWaitForBlockValidator cfg) eqn:Hwait.
    + unfold getLatestValidatedCount, validated.
      destruct (txStreamer s) as [ts|]; [|done]. simpl.
      destruct (validator ts) as [bv|]; simpl.
      * by destruct (exec s).
      * intros [= <-]. right. right. repeat (split; [done|]). by exists cfg.
    + simpl. by destruct (exec s).
Qed.

(** X19: with a block numbering that never goes back, at least one
    finalized message, no more finalized than safe messages, and a
    configuration that waits for the validator on the finalized number
    whenever it does on the safe one (the validator then having
    validated a message), the finalized block number is at most the safe
    block number. *)
Theorem FinalizedBlockNumber_le_SafeBlockNumber (s : SyncMonitor)
    (ir : InboxReader) (cfg : SyncMonitorConfig) (e : FullExecutionClient)
    (msgF msgS bf bs : Z) :
  inboxReader s = Some ir → config s = Some cfg → exec s = Some e →
  monotone_blocks e →
  GetFinalizedMsgCount ir = Ret msgF → GetSafeMsgCount ir = Ret msgS →
  1 ≤ msgF → msgF ≤ msgS → msgS < 2 ^ 64 →
  (SafeBlockWaitForBlockValidator cfg = true →
     FinalizedBlockWaitForBlockValidator cfg = true) →
  (∀ v, FinalizedBlockWaitForBlockValidator cfg = true →
        validated s = Some v → 1 ≤ v) →
  FinalizedBlockNumber s = Ret bf → SafeBlockNumber s = Ret bs →
  bf ≤ bs.
Proof.
  intros Hir Hcfg He Hmono HF HS H1 Hle Hmax Hflags Hval HbF HbS.
  apply FinalizedBlockNumber_inv in HbF
    as (ir1 & cfg1 & e1 & msg1 & mF & Hir1 & _ & Hcfg1 & He1 & HF1 & HmF & ->).
  apply SafeBlockNumber_inv in HbS
    as (ir2 & cfg2 & e2 & msg2 & mS & Hir2 & _ & Hcfg2 & He2 & HS2 & HmS & ->).
  rewrite Hir in Hir1, Hir2. injection Hir1 as <-. injection Hir2 as <-.
  rewrite Hcfg in Hcfg1, Hcfg2. injection Hcfg1 as <-. injection Hcfg2 as <-.
  rewrite He in He1, He2. injection He1 as <-. injection He2 as <-.
  rewrite HF in HF1. injection HF1 as <-. rewrite HS in HS2. injection HS2 as <-.
  assert (Hm : 1 ≤ mF ∧ mF ≤ mS ∧ mS < 2 ^ 64).
  { unfold clamped, validated in *.
    destruct (FinalizedBlockWaitForBlockValidator cfg) eqn:HwF;
      destruct (SafeBlockWaitForBlockValidator cfg) eqn:HwS.
    - destruct (txStreamer s) as [ts|]; [|done]. simpl in *.
      destruct (validator ts) as [bv|]; [|done]. simpl in *.
      injection HmF as <-. injection HmS as <-.
      specialize (Hval _ eq_refl eq_refl). lia.
    - destruct (txStreamer s) as [ts|]; [|done]. simpl in *.
      destruct (validator ts) as [bv|]; [|done]. simpl in *.
      injection HmF as <-. injection HmS as <-.
      specialize (Hval _ eq_refl eq_refl). lia.
    - by specialize (Hflags eq_refl).
    - injection HmF as <-. injection HmS as <-. lia. }
  rewrite !wrap64_small by lia. apply Hmono; lia.
Qed.

Lemma SyncProgressMap_feed_position_witness :
  ∃ m, SyncProgressMap (busy_monitor 3) = Ret m ∧
       m !! "broadcasterQueuedMessagesPos" = Some (VUint64 3).
Proof.
  destruct (SyncProgressMap (busy_monitor 3)) as [m|e|p] eqn:Hm;
    [|by vm_compute in Hm..].
  exists m. split; [done|].
  destruct (SyncProgressMap_feed_position (busy_monitor 3) m eq_refl Hm)
    as (ts & Hts & Hk).
  { intros ->. by vm_compute in Hm. }
  simpl in Hts. injection Hts as <-. exact Hk.
Defined.

Lemma block_number_errors_witness :
  (∃ ir, inboxReader failing_monitor = Some ir ∧
         GetSafeMsgCount ir = Err "no safe block") ∧
  (∃ ir, inboxReader failing_monitor = Some ir ∧
         GetFinalizedMsgCount ir = Err "no finalized block").
Proof.
  split.
  - destruct (proj1 (block_number_errors failing_monitor "no safe block") eq_refl)
      as [[Hmsg _]|[Hreader|[Hmsg _]]]; [done|exact Hreader|done].
  - destruct (proj2 (block_number_errors failing_monitor "no finalized block") eq_refl)
      as [[Hmsg _]|[Hreader|[Hmsg _]]]; [done|exact Hreader|done].
Defined.

Lemma FinalizedBlockNumber_le_SafeBlockNumber_witness :
  FinalizedBlockNumber (busy_monitor 0) = Ret 23 ∧
  SafeBlockNumber (busy_monitor 0) = Ret 25 ∧
  23 ≤ 25.
Proof.
  split; [reflexivity|]. split; [reflexivity|].
  apply (FinalizedBlockNumber_le_SafeBlockNumber (busy_monitor 0) busy_reader
           waiting_config busy_exec 2 5 23 25 eq_refl eq_refl eq_refl).
  - intros i j Hi Hij Hj. simpl. lia.
  - reflexivity.
  - reflexivity.
  - lia.
  - lia.
  - lia.
  - done.
  - intros v _ [= <-]. lia.
  - reflexivity.
  - reflexivity.
Defined.

End SyncProgressFacts.

(** ** The dummy broadcast messages *)

Module BroadcastFacts.
Import Broadcast GoFacts.

Section DummyFacts.

Context {MessageWithMetadata : Type} (Empty : MessageWithMetadata).
Context (maxAlloc PtrSize : Z).

Local Abbreviation dummy :=
  (λ seqNum : Z, {| SequenceNumber := seqNum; Message := Empty |}).

Lemma append_dummies_map (seqNums : list Z)
    (acc : list (BroadcastFeedMessage MessageWithMetadata)) :
  append_dummies MessageWithMetadata Empty seqNums acc = acc ++ map dummy seqNums.
Proof.
  revert acc. induction seqNums as [|n rest IH]; intros acc; simpl.
  - by rewrite app_nil_r.
  - rewrite IH. by rewrite <- app_assoc.
Qed.

Lemma CreateDummyBroadcastMessagesImpl_run (seqNums : list Z) (length : Z) :
  CreateDummyBroadcastMessagesImpl MessageWithMetadata Empty maxAlloc PtrSize
    seqNums length
  = if (length <? 0) || (maxAlloc <? PtrSize * length)
    then Panic (Explicit "makeslice: cap out of range")
    else Ret (map dummy seqNums).
Proof.
  unfold CreateDummyBroadcastMessagesImpl, make_empty.
  destruct ((length <? 0) || (maxAlloc <? PtrSize * length)); [done|].
  simpl. unbind. by rewrite append_dummies_map.
Qed.

(** X20: [CreateDummyBroadcastMessages] returns one message per sequence
    number, in the order given, each with the empty test message, and
    [CreateDummyBroadcastMessage] wraps exactly these; this for every
    slice whose length in pointers is within the allocation limit of the
    runtime. Past that limit, which a slice of sequence numbers held in
    memory does not reach where a pointer is no larger than a sequence
    number, [make] panics in both. *)
Theorem CreateDummyBroadcastMessages_one_per_number (seqNums : list Z) :
  if maxAlloc <? PtrSize * len seqNums
  then
    CreateDummyBroadcastMessages MessageWithMetadata Empty maxAlloc PtrSize seqNums
      = Panic (Explicit "makeslice: cap out of range") ∧
    CreateDummyBroadcastMessage MessageWithMetadata Empty maxAlloc PtrSize seqNums
      = Panic (Explicit "makeslice: cap out of range")
  else
    ∃ messages,
      CreateDummyBroadcastMessages MessageWithMetadata Empty maxAlloc PtrSize seqNums
        = Ret messages ∧
      CreateDummyBroadcastMessage MessageWithMetadata Empty maxAlloc PtrSize seqNums
        = Ret {| Messages := messages |} ∧
      map SequenceNumber messages = seqNums ∧
      Forall (λ m, Message m = Empty) messages.
Proof.
  assert (Hm : CreateDummyBroadcastMessages MessageWithMetadata Empty maxAlloc PtrSize
                 seqNums
               = if maxAlloc <? PtrSize * len seqNums
                 then Panic (Explicit "makeslice: cap out of range")
                 else Ret (map dummy seqNums)).
  { unfold CreateDummyBroadcastMessages. rewrite CreateDummyBroadcastMessagesImpl_run.
    destruct (Z.ltb_spec (len seqNums) 0) as [Hneg|_]; [|done].
    pose proof (len_nonneg seqNums). lia. }
  unfold CreateDummyBroadcastMessage. rewrite Hm.
  destruct (maxAlloc <? PtrSize * len seqNums); [done|].
  exists (map dummy seqNums).
  split; [done|]. split; [done|]. split.
  - rewrite map_map. simpl. by rewrite map_id.
  - clear Hm. induction seqNums as [|n rest IH]; simpl; by constructor.
Qed.

(** X21: the length handed to [CreateDummyBroadcastMessagesImpl] only
    sizes the allocation: with a length that [make] accepts, from zero up
    to the allocation limit of the runtime in pointers, the messages are
    one per sequence number whatever the length, also when it is smaller
    than the number of sequence numbers; a negative length or one past the
    limit panics before any message is built. *)
Theorem CreateDummyBroadcastMessagesImpl_length (seqNums : list Z) (length : Z) :
  (0 ≤ length → PtrSize * length ≤ maxAlloc →
   ∃ messages,
     CreateDummyBroadcastMessagesImpl MessageWithMetadata Empty maxAlloc PtrSize
       seqNums length = Ret messages ∧
     map SequenceNumber messages = seqNums ∧
     Forall (λ m, Message m = Empty) messages ∧
     ∀ length', 0 ≤ length' → PtrSize * length' ≤ maxAlloc →
       CreateDummyBroadcastMessagesImpl MessageWithMetadata Empty maxAlloc PtrSize
         seqNums length' = Ret messages) ∧
  (length < 0 ∨ maxAlloc < PtrSize * length →
   CreateDummyBroadcastMessagesImpl MessageWithMetadata Empty maxAlloc PtrSize
     seqNums length = Panic (Explicit "makeslice: cap out of range")).
Proof.
  assert (Hin : ∀ l, 0 ≤ l → PtrSize * l ≤ maxAlloc →
            CreateDummyBroadcastMessagesImpl MessageWithMetadata Empty maxAlloc PtrSize
              seqNums l = Ret (map dummy seqNums)).
  { intros l Hl Hmax. rewrite CreateDummyBroadcastMessagesImpl_run.
    destruct (Z.ltb_spec l 0); [lia|].
    by destruct (Z.ltb_spec maxAlloc (PtrSize * l)); [lia|]. }
  split.
  - intros Hl Hmax. exists (map dummy seqNums).
    split; [by apply Hin|]. split; [|split; [|done]].
    + rewrite map_map. simpl. by rewrite map_id.
    + clear Hin. induction seqNums as [|n rest IH]; simpl; by constructor.
  - intros Hout. rewrite CreateDummyBroadcastMessagesImpl_run.
    destruct (Z.ltb_spec length 0); [done|].
    by destruct (Z.ltb_spec maxAlloc (PtrSize * length)); [|lia].
Qed.

End DummyFacts.

(** With [maxAlloc = 2^48] and pointers of 8 bytes, as on a 64-bit Linux. *)
Lemma CreateDummyBroadcastMessages_one_per_number_witness :
  ∃ messages,
    CreateDummyBroadcastMessages unit () (2 ^ 48) 8 [7; 8; 9] = Ret messages ∧
    CreateDummyBroadcastMessage unit () (2 ^ 48) 8 [7; 8; 9]
      = Ret {| Messages := messages |} ∧
    map SequenceNumber messages = [7; 8; 9] ∧
    Forall (λ m, Message m = ()) messages.
Proof.
  exact (CreateDummyBroadcastMessages_one_per_number () (2 ^ 48) 8 [7; 8; 9]).
Defined.

(** The limit at work, on the same platform. *)
Lemma CreateDummyBroadcastMessagesImpl_length_witness :
  (∃ messages,
     CreateDummyBroadcastMessagesImpl unit () (2 ^ 48) 8 [7; 8; 9] 1 = Ret messages ∧
     map SequenceNumber messages = [7; 8; 9] ∧
     Forall (λ m, Message m = ()) messages ∧
     ∀ length', 0 ≤ length' → 8 * length' ≤ 2 ^ 48 →
       CreateDummyBroadcastMessagesImpl unit () (2 ^ 48) 8 [7; 8; 9] length'
       = Ret messages) ∧
  CreateDummyBroadcastMessagesImpl unit () (2 ^ 48) 8 [7; 8; 9] (2 ^ 62)
  = Panic (Explicit "makeslice: cap out of range").
Proof.
  split.
  - apply (proj1 (CreateDummyBroadcastMessagesImpl_length () (2 ^ 48) 8 [7; 8; 9] 1));
      lia.
  - apply (proj2 (CreateDummyBroadcastMessagesImpl_length () (2 ^ 48) 8 [7; 8; 9] (2 ^ 62))).
    right. lia.
Defined.

End BroadcastFacts.
